(** * Token lifecycle and sliding-window rate limiting of the FastAPI boilerplate

    A shallow embedding of [src/core/rate_limiter.py], [src/core/security.py],
    [src/services/auth_service.py], [src/services/user_service.py] and the
    request plumbing around them ([src/api/v1/auth.py], [src/api/v1/users.py],
    [src/db/database.py], [src/core/exceptions.py], [src/core/config.py],
    [src/models/user.py]), of the dependencies of the protected endpoints
    ([src/core/dependencies.py]), the pagination helpers
    ([src/core/pagination.py]), the field validators of
    [src/schemas/auth.py] and the rate-limit middleware
    ([src/api/middlewares/rate_limit.py]), followed by the properties the
    specification states about them and by further properties of the
    code.

    Conventions of the embedding:
    - a Python function that may raise returns a [pyresult]; logging is left
      out, and a [try ... except: log; raise] is the code inside it;
    - [time.time()] is a float of seconds; it is idealised as an exact
      rational ([Q]), so rounding errors of the float arithmetic are not
      modelled;
    - [datetime.now(timezone.utc)] has microsecond resolution and is an
      integer number of microseconds ([Z]);
    - every reading of a clock and every draw of random bytes is explicit:
      either an argument of the function, in the order the code reads them,
      or an oracle carried by the state;
    - the libraries the code calls (bcrypt, PyJWT) are parameters;
    - [src/repositories/auth_repository.py] is not among the sources: its
      operations are modelled from the store contract of the specification
      and marked as such. *)

From Stdlib Require Import ZArith QArith Qround Qminmax Lqa Lia String.
From stdpp Require Import gmap strings list pretty.

Local Open Scope Z_scope.

(** ** Python values shared by the modules *)

(** The exception classes the modelled code raises or lets through.  All of
    them derive from [Exception]. *)
Inductive PyException : Type :=
  | ValueError (msg : string)
  | IntegrityError (constraint : string)
  | ExpiredSignatureError
  | InvalidTokenError (msg : string)
  | RateLimitError (message : string) (details : gmap string Z)
  | HTTPException (status_code : Z) (detail : string)
  | LibraryError (origin : string).

Inductive pyresult (A : Type) : Type :=
  | Return (a : A)
  | Raise (e : PyException).
Arguments Return {A} a.
Arguments Raise {A} e.

(** [int(x)] on a float truncates toward zero. *)
Definition py_int (x : Q) : Z := Z.quot (Qnum x) (Zpos (Qden x)).

(** [a < b] on floats. *)
Definition Qlt_bool (a b : Q) : bool := negb (Qle_bool b a).

(** [str(n)] for an [int]. *)
Definition py_str_int (n : Z) : string := pretty n.

(** ** [src/core/config.py] : the settings the modelled code reads *)
Record Config : Type := {
  SECRET_KEY : string;
  ALGORITHM : string;
  ACCESS_TOKEN_EXPIRE_MINUTES : Z;
  REFRESH_TOKEN_EXPIRE_DAYS : Z;
  RATE_LIMIT_ENABLED : bool;
  RATE_LIMIT_PER_MINUTE : Z;
  RATE_LIMIT_PER_HOUR : Z;
  RATE_LIMIT_PER_DAY : Z;
  MAX_SESSIONS_PER_USER : Z
}.

(** The defaults of the class, with the secret a deployment must supply. *)
Definition default_config (secret : string) : Config := {|
  SECRET_KEY := secret;
  ALGORITHM := "HS256";
  ACCESS_TOKEN_EXPIRE_MINUTES := 30;
  REFRESH_TOKEN_EXPIRE_DAYS := 7;
  RATE_LIMIT_ENABLED := true;
  RATE_LIMIT_PER_MINUTE := 60;
  RATE_LIMIT_PER_HOUR := 1000;
  RATE_LIMIT_PER_DAY := 10000;
  MAX_SESSIONS_PER_USER := 5
|}.

(** ** [src/core/rate_limiter.py] *)
Module RateLimiter.

(** [self._requests : Dict[str, List[Tuple[float, int]]]], a
    [defaultdict(list)]. *)
Abbreviation requests_t := (gmap string (list (Q * Z))).

(** [sum(count for _, count in entries)] *)
Definition sum_counts (entries : list (Q * Z)) : Z :=
  fold_left Z.add (map snd entries) 0.

(** [min(ts for ts, _ in entries)]; Python keeps the first smallest item.
    The code calls it on a non-empty list only. *)
Definition min_timestamp (first : Q) (rest : list (Q * Z)) : Q :=
  fold_left (fun m ts => if Qlt_bool ts m then ts else m) (map fst rest) first.

(** Reading [d[key]] on a [defaultdict(list)]: a missing key is inserted
    with the empty list. *)
Definition getitem (identifier : string) (requests : requests_t)
  : list (Q * Z) * requests_t :=
  match requests !! identifier with
  | Some entries => (entries, requests)
  | None => ([], <[identifier := []]> requests)
  end.

(** The block under [with self._lock] in [_clean_old_requests]. *)
Definition clean_section (cutoff_time : Q) (identifier : string)
    (requests : requests_t) : requests_t :=
  match requests !! identifier with
  | Some entries =>
      let kept := filter (fun e => Qlt_bool cutoff_time (fst e)) entries in
      match kept with
      | [] => delete identifier requests
      | _ => <[identifier := kept]> requests
      end
  | None => requests
  end.

(** [_clean_old_requests]; [current_time] is its [time.time()]. *)
Definition _clean_old_requests (current_time : Q) (identifier : string)
    (window_seconds : Z) (requests : requests_t) : requests_t :=
  let cutoff_time := (current_time - inject_Z window_seconds)%Q in
  clean_section cutoff_time identifier requests.

(** The block under [with self._lock] in [check_rate_limit]. *)
Definition check_section (current_time : Q) (identifier : string)
    (max_requests window_seconds : Z) (requests : requests_t)
  : (bool * option Z) * requests_t :=
  let '(entries, requests) := getitem identifier requests in
  let request_count := sum_counts entries in
  if max_requests <=? request_count then
    match entries with
    | e :: rest =>
        let oldest_timestamp := min_timestamp (fst e) rest in
        let retry_after :=
          py_int (inject_Z window_seconds - (current_time - oldest_timestamp))%Q + 1 in
        ((false, Some retry_after), requests)
    | [] => ((false, Some window_seconds), requests)
    end
  else
    ((true, None), <[identifier := entries ++ [(current_time, 1)]]> requests).

(** [check_rate_limit]: [current_time] is read first, then
    [_clean_old_requests] reads the clock again ([clean_time]). *)
Definition check_rate_limit (current_time clean_time : Q) (identifier : string)
    (max_requests window_seconds : Z) (requests : requests_t)
  : (bool * option Z) * requests_t :=
  let requests := _clean_old_requests clean_time identifier window_seconds requests in
  check_section current_time identifier max_requests window_seconds requests.

(** [RateLimitError.__init__]: [retry_after] enters [details] when truthy. *)
Definition make_RateLimitError (message : string) (retry_after : option Z)
  : PyException :=
  let details : gmap string Z :=
    match retry_after with
    | Some r => if r =? 0 then ∅ else {[ "retry_after"%string := r ]}
    | None => ∅
    end in
  RateLimitError message details.

Definition format_retry (retry_after : option Z) : string :=
  match retry_after with
  | Some r => py_str_int r
  | None => "None"
  end.

(** [check_rate_limit_or_raise] *)
Definition check_rate_limit_or_raise (current_time clean_time : Q)
    (identifier : string) (max_requests window_seconds : Z)
    (requests : requests_t) : pyresult unit * requests_t :=
  let '((is_allowed, retry_after), requests) :=
    check_rate_limit current_time clean_time identifier max_requests
      window_seconds requests in
  if negb is_allowed then
    (Raise (make_RateLimitError
              ("Rate limit exceeded. Try again in " ++ format_retry retry_after
               ++ " seconds.")%string
              retry_after), requests)
  else (Return tt, requests).

(** [reset] *)
Definition reset (identifier : string) (requests : requests_t) : requests_t :=
  match requests !! identifier with
  | Some _ => delete identifier requests
  | None => requests
  end.

(** The tiers.  Each takes the two clock readings of its check. *)
Definition check_rate_limit_per_minute (config : Config) (clock : Q * Q)
    (identifier : string) (requests : requests_t) : pyresult unit * requests_t :=
  if RATE_LIMIT_ENABLED config then
    check_rate_limit_or_raise (fst clock) (snd clock)
      ("minute:" ++ identifier)%string (RATE_LIMIT_PER_MINUTE config) 60 requests
  else (Return tt, requests).

Definition check_rate_limit_per_hour (config : Config) (clock : Q * Q)
    (identifier : string) (requests : requests_t) : pyresult unit * requests_t :=
  if RATE_LIMIT_ENABLED config then
    check_rate_limit_or_raise (fst clock) (snd clock)
      ("hour:" ++ identifier)%string (RATE_LIMIT_PER_HOUR config) 3600 requests
  else (Return tt, requests).

Definition check_rate_limit_per_day (config : Config) (clock : Q * Q)
    (identifier : string) (requests : requests_t) : pyresult unit * requests_t :=
  if RATE_LIMIT_ENABLED config then
    check_rate_limit_or_raise (fst clock) (snd clock)
      ("day:" ++ identifier)%string (RATE_LIMIT_PER_DAY config) 86400 requests
  else (Return tt, requests).

(** [check_all_rate_limits]: a raised [RateLimitError] leaves the function,
    so the statements after it do not run. *)
Definition check_all_rate_limits (config : Config)
    (clock_minute clock_hour clock_day : Q * Q)
    (identifier : string) (requests : requests_t) : pyresult unit * requests_t :=
  match check_rate_limit_per_minute config clock_minute identifier requests with
  | (Raise e, requests) => (Raise e, requests)
  | (Return _, requests) =>
      match check_rate_limit_per_hour config clock_hour identifier requests with
      | (Raise e, requests) => (Raise e, requests)
      | (Return _, requests) =>
          check_rate_limit_per_day config clock_day identifier requests
      end
  end.

(** What the limiter holds for an identifier: the list under its key, the
    empty list when the key is absent. *)
Definition entries_of (requests : requests_t) (identifier : string)
  : list (Q * Z) :=
  default [] (requests !! identifier).

(** The entries that survive the pruning of a check whose
    [_clean_old_requests] read the clock at [clean_time]. *)
Definition kept (clean_time : Q) (window_seconds : Z) (entries : list (Q * Z))
  : list (Q * Z) :=
  filter (fun e => Qlt_bool (clean_time - inject_Z window_seconds)%Q (fst e))
    entries.

(** The entries of an identifier that was only ever checked against
    [max_requests]: every count is one and there are at most
    [max_requests] of them. *)
Definition quota_kept (max_requests : Z) (entries : list (Q * Z)) : Prop :=
  Forall (fun e => snd e = 1) entries
  /\ Z.of_nat (length entries) <= max_requests.

(** A caller that checks the same limit once per pair of clock readings,
    in order. *)
Fixpoint check_many (clocks : list (Q * Q)) (identifier : string)
    (max_requests window_seconds : Z) (requests : requests_t)
  : list (bool * option Z) * requests_t :=
  match clocks with
  | [] => ([], requests)
  | (current_time, clean_time) :: rest =>
      let '(result, requests) :=
        check_rate_limit current_time clean_time identifier max_requests
          window_seconds requests in
      let '(results, requests) :=
        check_many rest identifier max_requests window_seconds requests in
      (result :: results, requests)
  end.

End RateLimiter.

(** ** The limiter as section 4.2 of the specification words it

    [check_and_record(identity, max_requests, window_seconds)] on the entry
    list of the identity, at the one instant [now] the specification
    speaks of: "prune entries older than [now - window_seconds]; sum
    remaining counts; if sum >= max_requests, deny and compute
    [retry_after] ...; otherwise append [(now, 1)] and allow". *)
Module RateLimiterSpec.

Inductive Decision : Type :=
  | Allowed
  | Denied (retry_after_seconds : Z).

(** An entry the window still covers: [timestamp > now - window_seconds]. *)
Definition in_window (now : Q) (window_seconds : Z) (e : Q * Z) : bool :=
  Qlt_bool (now - inject_Z window_seconds)%Q (fst e).

(** The sum of the counts the window covers at [now]. *)
Definition window_count (now : Q) (window_seconds : Z) (entries : list (Q * Z))
  : Z :=
  foldr (fun e acc => snd e + acc) 0
    (List.filter (in_window now window_seconds) entries).

(** The smallest timestamp of a non-empty entry list. *)
Definition oldest_timestamp (first : Q * Z) (rest : list (Q * Z)) : Q :=
  foldr (fun e m => Qmin (fst e) m) (fst first) rest.

(** "Ceiling to next whole second": a number of seconds rounded up to a
    whole number. *)
Definition rounded_up (x : Q) : Z := Qceiling x.

(** "[retry_after = window_seconds - (now - oldest_timestamp) + 1]
    (ceiling to next whole second ...), clamp to [window_seconds] if the
    identity's entry list is empty at denial time". *)
Definition retry_after (now : Q) (window_seconds : Z) (entries : list (Q * Z))
  : Z :=
  match entries with
  | [] => window_seconds
  | first :: rest =>
      rounded_up
        (inject_Z window_seconds - (now - oldest_timestamp first rest) + 1)%Q
  end.

Definition check_and_record (now : Q) (max_requests window_seconds : Z)
    (entries : list (Q * Z)) : Decision * list (Q * Z) :=
  let remaining := List.filter (in_window now window_seconds) entries in
  let total := foldr (fun e acc => snd e + acc) 0 remaining in
  if max_requests <=? total
  then (Denied (retry_after now window_seconds remaining), remaining)
  else (Allowed, remaining ++ [(now, 1)]).

(** The two clock readings of a check lie in the window that opens at
    [opened]: the call reads [fst c], then its pruning reads [snd c]. *)
Definition within_window (opened : Q) (window_seconds : Z) (c : Q * Q) : Prop :=
  (opened <= fst c)%Q /\ (fst c <= snd c)%Q
  /\ (snd c < opened + inject_Z window_seconds)%Q.

(** The pair [check_rate_limit] returns for a decision. *)
Definition as_tuple (d : Decision) : bool * option Z :=
  match d with
  | Allowed => (true, None)
  | Denied retry_after_seconds => (false, Some retry_after_seconds)
  end.

End RateLimiterSpec.

(** ** [src/core/security.py] *)
Module Security.

(** The values a token payload holds: strings, [datetime]s (microseconds
    since the epoch) before encoding, integers (seconds) after decoding. *)
Inductive ClaimValue : Type :=
  | VStr (s : string)
  | VDatetime (micros : Z)
  | VInt (n : Z).

Abbreviation claims_t := (gmap string ClaimValue).

(** [timedelta(minutes=m)] and [timedelta(days=d)] in microseconds. *)
Definition timedelta_minutes (m : Z) : Z := m * 60000000.
Definition timedelta_days (d : Z) : Z := d * 86400000000.

(** How the first stage of [jwt.decode] can fail. *)
Inductive JwsFailure : Type := Malformed | BadSignature.

Section Libraries.

(** [bcrypt.hashpw] on the encoded password and a salt, decoded back. *)
Variable hashpw : string -> string -> string.

(** The body of the [try] of [verify_password]: both [encode('utf-8')]
    calls and [bcrypt.checkpw].  It returns a [bool] or raises. *)
Variable checkpw : string -> string -> pyresult bool.

(** [jwt.encode payload key algorithm]; [None] when PyJWT raises. *)
Variable jwt_encode : claims_t -> string -> string -> option string.

(** PyJWT's [jwt.decode], first stage: split the compact form, decode the
    segments and check the signature under the key and algorithm. *)
Variable jws_verify : string -> string -> string -> JwsFailure + claims_t.

(** PyJWT's checks of the registered claims other than [exp]: those it
    runs before the expiry check ([iat], [nbf]) and after it ([iss],
    [aud]); [Some msg] when one raises an [InvalidTokenError]. *)
Variable validate_before_exp : claims_t -> Z -> option string.
Variable validate_after_exp : claims_t -> Z -> option string.

Variable config : Config.

(** [hash_password]; [salt] is what [bcrypt.gensalt()] drew. *)
Definition hash_password (salt : string) (password : string) : string :=
  hashpw password salt.

(** [verify_password]: [except Exception] turns every failure into
    [False]. *)
Definition verify_password (plain_password hashed_password : string) : bool :=
  match checkpw plain_password hashed_password with
  | Return b => b
  | Raise _ => false
  end.

(** The claim set [create_access_token] signs.  [now_exp] and [now_iat]
    are its two [datetime.now(timezone.utc)] readings; [if expires_delta:]
    tests the truth value, and a zero [timedelta] is false. *)
Definition access_token_claims (now_exp now_iat : Z) (data : claims_t)
    (expires_delta : option Z) : claims_t :=
  let to_encode := data in
  let expire :=
    match expires_delta with
    | Some delta =>
        if delta =? 0
        then now_exp + timedelta_minutes (ACCESS_TOKEN_EXPIRE_MINUTES config)
        else now_exp + delta
    | None => now_exp + timedelta_minutes (ACCESS_TOKEN_EXPIRE_MINUTES config)
    end in
  <[ "type"%string := VStr "access" ]>
    (<[ "iat"%string := VDatetime now_iat ]>
       (<[ "exp"%string := VDatetime expire ]> to_encode)).

(** [create_access_token] *)
Definition create_access_token (now_exp now_iat : Z) (data : claims_t)
    (expires_delta : option Z) : pyresult string :=
  match jwt_encode (access_token_claims now_exp now_iat data expires_delta)
          (SECRET_KEY config) (ALGORITHM config) with
  | Some encoded_jwt => Return encoded_jwt
  | None => Raise (LibraryError "jwt.encode")
  end.

(** [jwt.decode(token, key, algorithms=[algorithm])] of PyJWT at the time
    [now] (microseconds): signature first, then the registered claims,
    where a token is expired when [exp <= now]. *)
Definition jwt_decode (now : Z) (token key algorithm : string)
  : pyresult claims_t :=
  match jws_verify token key algorithm with
  | inl Malformed => Raise (InvalidTokenError "Not enough segments")
  | inl BadSignature => Raise (InvalidTokenError "Signature verification failed")
  | inr payload =>
      match validate_before_exp payload now with
      | Some msg => Raise (InvalidTokenError msg)
      | None =>
          match payload !! "exp"%string with
          | Some (VInt exp) =>
              if exp * 1000000 <=? now then Raise ExpiredSignatureError
              else
                match validate_after_exp payload now with
                | Some msg => Raise (InvalidTokenError msg)
                | None => Return payload
                end
          | Some _ =>
              Raise (InvalidTokenError
                       "Expiration Time claim (exp) must be an integer.")
          | None =>
              match validate_after_exp payload now with
              | Some msg => Raise (InvalidTokenError msg)
              | None => Return payload
              end
          end
      end
  end.

(** [decode_access_token]: both [except] clauses re-raise what they
    caught. *)
Definition decode_access_token (now : Z) (token : string) : pyresult claims_t :=
  match jwt_decode now token (SECRET_KEY config) (ALGORITHM config) with
  | Return payload =>
      match payload !! "type"%string with
      | Some (VStr "access") => Return payload
      | _ => Raise (InvalidTokenError "Invalid token type")
      end
  | Raise e => Raise e
  end.

End Libraries.

End Security.

(** ** [src/models/user.py] : the two tables the services use *)
Module User.
Record t : Type := {
  id : Z;
  username : string;
  email : string;
  hashed_password : string;
  is_active : bool;
  is_admin : bool;
  email_verified : bool;
  created_at : Z;
  updated_at : Z
}.
End User.

Module RefreshToken.
Record t : Type := {
  id : Z;
  token : string;
  user_id : Z;
  expires_at : Z;
  created_at : Z;
  is_revoked : bool;
  user_agent : option string;
  ip_address : option string
}.

Definition revoke (r : t) : t :=
  {| id := id r; token := token r; user_id := user_id r;
     expires_at := expires_at r; created_at := created_at r;
     is_revoked := true;
     user_agent := user_agent r; ip_address := ip_address r |}.
End RefreshToken.

(** ** [src/schemas/auth.py] *)
Record UserRegister : Type := {
  register_username : string;
  register_email : string;
  register_password : string
}.

Record UserLogin : Type := {
  login_username : string;
  login_password : string
}.

Record TokenResponse : Type := {
  access_token : string;
  refresh_token : string;
  token_type : string
}.

Record UpdateUserRequest : Type := {
  update_username : option string;
  update_email : option string
}.

Record UserResponse : Type := {
  response_id : Z;
  response_username : string;
  response_email : string;
  response_is_active : bool;
  response_is_admin : bool;
  response_email_verified : bool;
  response_created_at : Z;
  response_updated_at : Z
}.

(** ** The state a request runs in *)

(** The rows of the database session. *)
Record Database : Type := {
  users : list User.t;
  refresh_tokens : list RefreshToken.t
}.

Definition empty_database : Database := {| users := []; refresh_tokens := [] |}.

(** The database together with what the process will read next from the
    wall clock ([clock 0] is the next [datetime.now(timezone.utc)]) and from
    the system's random source ([entropy 0] is the next draw). *)
Record World : Type := {
  db : Database;
  clock : nat -> Z;
  entropy : nat -> string
}.

(** A computation that reads and writes the world and may raise. *)
Definition M (A : Type) : Type := World -> pyresult A * World.

Definition ret {A : Type} (a : A) : M A := fun w => (Return a, w).

Definition raise {A : Type} (e : PyException) : M A := fun w => (Raise e, w).

Definition bind {A B : Type} (m : M A) (k : A -> M B) : M B :=
  fun w =>
    match m w with
    | (Return a, w') => k a w'
    | (Raise e, w') => (Raise e, w')
    end.

Notation "'let*' x ':=' m 'in' k" := (bind m (fun x => k))
  (at level 10, x name, m at level 100, k at level 200).

Definition lift {A : Type} (r : pyresult A) : M A := fun w => (r, w).

Definition get_database : M Database := fun w => (Return (db w), w).

Definition put_database (d : Database) : M unit :=
  fun w => (Return tt, {| db := d; clock := clock w; entropy := entropy w |}).

(** A computation whose final world is related to the world it starts in,
    whatever it returns or raises. *)
Definition relates (R : World -> World -> Prop) {A : Type} (m : M A) : Prop :=
  forall w, R w (snd (m w)).

(** [datetime.now(timezone.utc)] *)
Definition datetime_now : M Z :=
  fun w => (Return (clock w 0%nat),
            {| db := db w; clock := fun n => clock w (S n); entropy := entropy w |}).

(** One draw from the random source ([secrets.token_urlsafe(32)],
    [bcrypt.gensalt()]). *)
Definition draw_entropy : M string :=
  fun w => (Return (entropy w 0%nat),
            {| db := db w; clock := clock w; entropy := fun n => entropy w (S n) |}).

(** [generate_refresh_token] of [src/core/security.py] *)
Definition generate_refresh_token : M string := draw_entropy.

(** ** The repository the services call *)
Module AuthRepository.

Section Repository.

Variable config : Config.

(** The next value of an auto-incremented primary key. *)
Definition next_id (ids : list Z) : Z := 1 + foldr Z.max 0 ids.

(** The row a query by a unique column returns. *)
Definition find_username (name : string) (rows : list User.t) : option User.t :=
  List.find (fun u => String.eqb (User.username u) name) rows.

Definition find_email (addr : string) (rows : list User.t) : option User.t :=
  List.find (fun u => String.eqb (User.email u) addr) rows.

Definition find_user (uid : Z) (rows : list User.t) : option User.t :=
  List.find (fun u => User.id u =? uid) rows.

Definition find_token (tok : string) (rows : list RefreshToken.t)
  : option RefreshToken.t :=
  List.find (fun r => String.eqb (RefreshToken.token r) tok) rows.

(** Modelled from the spec: [src/repositories/auth_repository.py] is
    missing; [find_user_by_username(name) -> User?]. *)
Definition get_user_by_username (name : string) : M (option User.t) :=
  let* d := get_database in
  ret (find_username name (users d)).

(** Modelled from the spec: [find_user_by_email(email) -> User?]. *)
Definition get_user_by_email (addr : string) : M (option User.t) :=
  let* d := get_database in
  ret (find_email addr (users d)).

(** Modelled from the spec: [find_user_by_id(id) -> User?]. *)
Definition get_user_by_id (uid : Z) : M (option User.t) :=
  let* d := get_database in
  ret (find_user uid (users d)).

(** Modelled from the spec: [create_user(username, email, password_hash)
    -> User], with the defaults and the unique columns of the [users]
    table of [src/models/user.py]. *)
Definition create_user (name addr hashed : string) : M User.t :=
  let* now := datetime_now in
  let* d := get_database in
  if existsb (fun u => String.eqb (User.username u) name
                       || String.eqb (User.email u) addr) (users d)
  then raise (IntegrityError "users")
  else
    let user := {| User.id := next_id (map User.id (users d));
                   User.username := name; User.email := addr;
                   User.hashed_password := hashed;
                   User.is_active := true; User.is_admin := false;
                   User.email_verified := false;
                   User.created_at := now; User.updated_at := now |} in
    let* _ := put_database {| users := users d ++ [user];
                              refresh_tokens := refresh_tokens d |} in
    ret user.

(** Modelled from the spec: [update_user(id, fields) -> User?], "returns
    nothing-found as null, not an error"; a field that is [None] is left as
    it is, and the unique columns of the [users] table are kept. *)
Definition update_user (uid : Z) (name addr : option string)
  : M (option User.t) :=
  let* d := get_database in
  match find_user uid (users d) with
  | None => ret None
  | Some user =>
      let* now := datetime_now in
      let updated :=
        {| User.id := User.id user;
           User.username := default (User.username user) name;
           User.email := default (User.email user) addr;
           User.hashed_password := User.hashed_password user;
           User.is_active := User.is_active user;
           User.is_admin := User.is_admin user;
           User.email_verified := User.email_verified user;
           User.created_at := User.created_at user;
           User.updated_at := now |} in
      if existsb (fun u => negb (User.id u =? uid)
                           && (String.eqb (User.username u) (User.username updated)
                               || String.eqb (User.email u) (User.email updated)))
           (users d)
      then raise (IntegrityError "users")
      else
        let* _ := put_database
                    {| users := map (fun u => if User.id u =? uid then updated else u)
                                  (users d);
                       refresh_tokens := refresh_tokens d |} in
        ret (Some updated)
  end.

(** Modelled from the spec: [deactivate_user(id) -> bool]. *)
Definition deactivate_user (uid : Z) : M bool :=
  let* d := get_database in
  if existsb (fun u => User.id u =? uid) (users d) then
    let off (u : User.t) : User.t :=
      if User.id u =? uid then
        {| User.id := User.id u; User.username := User.username u;
           User.email := User.email u;
           User.hashed_password := User.hashed_password u;
           User.is_active := false; User.is_admin := User.is_admin u;
           User.email_verified := User.email_verified u;
           User.created_at := User.created_at u;
           User.updated_at := User.updated_at u |}
      else u in
    let* _ := put_database {| users := map off (users d);
                              refresh_tokens := refresh_tokens d |} in
    ret true
  else ret false.

(** A change of rows that keeps every token string and never clears
    [is_revoked]. *)
Definition keeps_tokens (f : RefreshToken.t -> RefreshToken.t) : Prop :=
  forall r,
    RefreshToken.token (f r) = RefreshToken.token r
    /\ (RefreshToken.is_revoked r = true ->
        RefreshToken.is_revoked (f r) = true).

(** The token is in the table and revoked. *)
Definition revoked_in (tok : string) (d : Database) : Prop :=
  exists r,
    find_token tok (refresh_tokens d) = Some r
    /\ RefreshToken.is_revoked r = true.

(** Between two worlds, a revoked token stays revoked. *)
Definition stays_revoked (tok : string) (w w' : World) : Prop :=
  revoked_in tok (db w) -> revoked_in tok (db w').

(** Modelled from the spec: [find_refresh_credential(token) ->
    RefreshCredential?]. *)
Definition get_refresh_token (tok : string) : M (option RefreshToken.t) :=
  let* d := get_database in
  ret (find_token tok (refresh_tokens d)).

Definition revoke_token (tok : string) (rows : list RefreshToken.t)
  : list RefreshToken.t :=
  map (fun r => if String.eqb (RefreshToken.token r) tok
                then RefreshToken.revoke r else r) rows.

(** Modelled from the spec: [revoke_refresh_credential(token) -> void]. *)
Definition revoke_refresh_token (tok : string) : M unit :=
  let* d := get_database in
  put_database
    {| users := users d;
       refresh_tokens := revoke_token tok (refresh_tokens d) |}.

(** A credential that is neither revoked nor expired at [now]; a
    credential is expired when [expires_at < now], as
    [refresh_access_token] tests it. *)
Definition is_live (now : Z) (r : RefreshToken.t) : bool :=
  negb (RefreshToken.is_revoked r) && (now <=? RefreshToken.expires_at r).

(** The live credentials of a user, in table order. *)
Definition live_sessions (now uid : Z) (rows : list RefreshToken.t)
  : list RefreshToken.t :=
  List.filter (fun r => (RefreshToken.user_id r =? uid) && is_live now r) rows.

(** The credential created first ([created_at]), the earlier row on a
    tie. *)
Definition oldest (rows : list RefreshToken.t) : option RefreshToken.t :=
  match rows with
  | [] => None
  | r :: rest =>
      Some (fold_left
              (fun m x => if RefreshToken.created_at x <? RefreshToken.created_at m
                          then x else m)
              rest r)
  end.

Definition revoke_row (rid : Z) (rows : list RefreshToken.t)
  : list RefreshToken.t :=
  map (fun r => if RefreshToken.id r =? rid then RefreshToken.revoke r else r)
    rows.

(** Modelled from the spec: session-limit enforcement, "before persisting
    a new refresh credential, the count of non-revoked, non-expired
    credentials for the user is checked against a configured maximum; if
    at or above the limit, the oldest is revoked to make room (eviction
    is FIFO by [created_at])". *)
Definition enforce_session_limit (now uid : Z) (rows : list RefreshToken.t)
  : list RefreshToken.t :=
  let live := live_sessions now uid rows in
  if MAX_SESSIONS_PER_USER config <=? Z.of_nat (length live) then
    match oldest live with
    | Some r => revoke_row (RefreshToken.id r) rows
    | None => rows
    end
  else rows.

(** How many live credentials a user holds at [now]. *)
Definition session_count (now uid : Z) (rows : list RefreshToken.t) : Z :=
  Z.of_nat (length (live_sessions now uid rows)).

(** A change of rows that at most revokes. *)
Definition only_revokes (f : RefreshToken.t -> RefreshToken.t) : Prop :=
  forall r, f r = r \/ f r = RefreshToken.revoke r.

(** The clock never runs backwards, and from the next reading on no user
    holds more live credentials than the configured maximum. *)
Definition sessions_bounded (w : World) : Prop :=
  (forall n, clock w n <= clock w (S n))
  /\ forall uid t,
      clock w 0%nat <= t ->
      session_count t uid (refresh_tokens (db w))
      <= MAX_SESSIONS_PER_USER config.

(** The second world reads the clock of the first from a later point. *)
Definition advances (w w' : World) : Prop :=
  exists k, forall n, clock w' n = clock w (n + k)%nat.

Definition keeps_sessions_bounded (w w' : World) : Prop :=
  advances w w' /\ (sessions_bounded w -> sessions_bounded w').

(** Modelled from the spec: [create_refresh_credential(user_id, token,
    ttl_days, user_agent?, origin?) -> RefreshCredential], with the
    session limit above and the unique [token] column of the
    [refresh_tokens] table of [src/models/user.py]. *)
Definition create_refresh_token (uid : Z) (tok : string) (expires_days : Z)
    (agent address : option string) : M RefreshToken.t :=
  let* now := datetime_now in
  let* d := get_database in
  let rows := enforce_session_limit now uid (refresh_tokens d) in
  if existsb (fun r => String.eqb (RefreshToken.token r) tok) rows
  then raise (IntegrityError "refresh_tokens.token")
  else
    let row := {| RefreshToken.id := next_id (map RefreshToken.id rows);
                  RefreshToken.token := tok;
                  RefreshToken.user_id := uid;
                  RefreshToken.expires_at :=
                    now + Security.timedelta_days expires_days;
                  RefreshToken.created_at := now;
                  RefreshToken.is_revoked := false;
                  RefreshToken.user_agent := agent;
                  RefreshToken.ip_address := address |} in
    let* _ := put_database {| users := users d;
                              refresh_tokens := rows ++ [row] |} in
    ret row.

(** The rows after a credential with the token [tok] was stored for the
    user, the session limit enforced first. *)
Definition stored_with_limit (uid : Z) (before after : list RefreshToken.t)
    (tok : string) : Prop :=
  exists now row,
    after = enforce_session_limit now uid before ++ [row]
    /\ RefreshToken.token row = tok
    /\ RefreshToken.user_id row = uid
    /\ RefreshToken.is_revoked row = false
    /\ RefreshToken.created_at row = now.

End Repository.

End AuthRepository.

(** ** [src/services/auth_service.py] *)
Module AuthService.

Section Service.

Variable hashpw : string -> string -> string.
Variable checkpw : string -> string -> pyresult bool.
Variable jwt_encode : Security.claims_t -> string -> string -> option string.
Variable config : Config.

(** [create_access_token] with its two readings of the clock. *)
Definition create_access_token (data : Security.claims_t)
    (expires_delta : option Z) : M string :=
  let* now_exp := datetime_now in
  let* now_iat := datetime_now in
  lift (Security.create_access_token jwt_encode config now_exp now_iat
          data expires_delta).

(** [{"sub": str(user.id), "username": user.username}] *)
Definition token_data (user : User.t) : Security.claims_t :=
  <[ "sub"%string := Security.VStr (py_str_int (User.id user)) ]>
    ({[ "username"%string := Security.VStr (User.username user) ]}).

Definition token_response (access refresh : string) : TokenResponse :=
  {| access_token := access; refresh_token := refresh; token_type := "bearer" |}.

(** [AuthService.register_user].  The [try ... except Exception: raise]
    around the last part logs and re-raises, here and below. *)
Definition register_user (user_data : UserRegister)
    (user_agent ip_address : option string) : M TokenResponse :=
  let* existing_user :=
    AuthRepository.get_user_by_username (register_username user_data) in
  match existing_user with
  | Some _ => raise (ValueError "Username already exists")
  | None =>
      let* existing_email :=
        AuthRepository.get_user_by_email (register_email user_data) in
      match existing_email with
      | Some _ => raise (ValueError "Email already exists")
      | None =>
          let* salt := draw_entropy in
          let hashed_password :=
            Security.hash_password hashpw salt (register_password user_data) in
          let* user :=
            AuthRepository.create_user (register_username user_data)
              (register_email user_data) hashed_password in
          let* access := create_access_token (token_data user) None in
          let* refresh := generate_refresh_token in
          let* _ :=
            AuthRepository.create_refresh_token config (User.id user) refresh
              (REFRESH_TOKEN_EXPIRE_DAYS config) user_agent ip_address in
          ret (token_response access refresh)
      end
  end.

(** [AuthService.login_user] *)
Definition login_user (login_data : UserLogin)
    (user_agent ip_address : option string) : M TokenResponse :=
  let* found := AuthRepository.get_user_by_username (login_username login_data) in
  match found with
  | None => raise (ValueError "Invalid username or password")
  | Some user =>
      if negb (Security.verify_password checkpw (login_password login_data)
                 (User.hashed_password user))
      then raise (ValueError "Invalid username or password")
      else if negb (User.is_active user)
      then raise (ValueError "Account is inactive")
      else
        let* access := create_access_token (token_data user) None in
        let* refresh := generate_refresh_token in
        let* _ :=
          AuthRepository.create_refresh_token config (User.id user) refresh
            (REFRESH_TOKEN_EXPIRE_DAYS config) user_agent ip_address in
        ret (token_response access refresh)
  end.

(** [AuthService.refresh_access_token] *)
Definition refresh_access_token (refresh : string)
    (user_agent ip_address : option string) (rotate_refresh_token : bool)
  : M TokenResponse :=
  let* found := AuthRepository.get_refresh_token refresh in
  match found with
  | None => raise (ValueError "Invalid refresh token")
  | Some token_record =>
      if RefreshToken.is_revoked token_record
      then raise (ValueError "Refresh token has been revoked")
      else
        let* now := datetime_now in
        if RefreshToken.expires_at token_record <? now
        then raise (ValueError "Refresh token has expired")
        else
          let* owner :=
            AuthRepository.get_user_by_id (RefreshToken.user_id token_record) in
          match owner with
          | None => raise (ValueError "User not found")
          | Some user =>
              if negb (User.is_active user)
              then raise (ValueError "Account is inactive")
              else
                let* access := create_access_token (token_data user) None in
                if rotate_refresh_token then
                  let* _ := AuthRepository.revoke_refresh_token refresh in
                  let* new_refresh_token := generate_refresh_token in
                  let* _ :=
                    AuthRepository.create_refresh_token config (User.id user)
                      new_refresh_token (REFRESH_TOKEN_EXPIRE_DAYS config)
                      user_agent ip_address in
                  ret (token_response access new_refresh_token)
                else ret (token_response access refresh)
          end
  end.

(** [AuthService.logout_user] *)
Definition logout_user (refresh : string) (user_id : Z) : M bool :=
  let* found := AuthRepository.get_refresh_token refresh in
  match found with
  | None => raise (ValueError "Invalid refresh token")
  | Some token_record =>
      if negb (RefreshToken.user_id token_record =? user_id)
      then raise (ValueError "Invalid refresh token")
      else if RefreshToken.is_revoked token_record
      then ret true
      else
        let* _ := AuthRepository.revoke_refresh_token refresh in
        ret true
  end.

End Service.

End AuthService.

(** ** [src/services/user_service.py] *)
Module UserService.

(** [UserService.get_user_response] *)
Definition get_user_response (user : User.t) : UserResponse :=
  {| response_id := User.id user;
     response_username := User.username user;
     response_email := User.email user;
     response_is_active := User.is_active user;
     response_is_admin := User.is_admin user;
     response_email_verified := User.email_verified user;
     response_created_at := User.created_at user;
     response_updated_at := User.updated_at user |}.

(** The truth value of an optional string: [None] and the empty string are
    false. *)
Definition truthy (s : option string) : bool :=
  match s with
  | Some EmptyString | None => false
  | Some _ => true
  end.

(** [UserService.update_user_profile] *)
Definition update_user_profile (user_id : Z) (update_data : UpdateUserRequest)
  : M UserResponse :=
  match update_username update_data, update_email update_data with
  | None, None => raise (ValueError "No fields to update")
  | _, _ =>
      let* _ :=
        if truthy (update_username update_data) then
          let* existing_user :=
            AuthRepository.get_user_by_username
              (default EmptyString (update_username update_data)) in
          match existing_user with
          | Some existing =>
              if negb (User.id existing =? user_id)
              then raise (ValueError "Username already exists")
              else ret tt
          | None => ret tt
          end
        else ret tt in
      let* _ :=
        if truthy (update_email update_data) then
          let* existing_email :=
            AuthRepository.get_user_by_email
              (default EmptyString (update_email update_data)) in
          match existing_email with
          | Some existing =>
              if negb (User.id existing =? user_id)
              then raise (ValueError "Email already exists")
              else ret tt
          | None => ret tt
          end
        else ret tt in
      let* updated_user :=
        AuthRepository.update_user user_id (update_username update_data)
          (update_email update_data) in
      match updated_user with
      | None => raise (ValueError "User not found")
      | Some user => ret (get_user_response user)
      end
  end.

(** [UserService.delete_user_account] *)
Definition delete_user_account (user_id : Z) : M bool :=
  let* success := AuthRepository.deactivate_user user_id in
  if negb success then raise (ValueError "User not found") else ret true.

End UserService.

(** ** The endpoints: [src/api/v1/auth.py], [src/api/v1/users.py] and the
    session of [src/db/database.py] *)
Module Api.

(** [get_db]: the session commits when the endpoint returns and rolls back
    when it raises. *)
Definition get_db {A : Type} (endpoint : M A) : M A :=
  fun w =>
    match endpoint w with
    | (Return a, w') => (Return a, w')
    | (Raise e, w') =>
        (Raise e, {| db := db w; clock := clock w'; entropy := entropy w' |})
    end.

(** The [except ValueError] / [except Exception] pair of an endpoint. *)
Definition http_errors {A : Type} (status_code : Z) (failure : string)
    (service : M A) : M A :=
  fun w =>
    match service w with
    | (Return a, w') => (Return a, w')
    | (Raise (ValueError msg), w') => (Raise (HTTPException status_code msg), w')
    | (Raise _, w') => (Raise (HTTPException 500 failure), w')
    end.

(** The requests that reach the services.  For the endpoints behind the
    [get_current_user] dependency, [current_user_id] is the id of the user
    that dependency has authenticated. *)
Inductive Request : Type :=
  | PostRegister (user_data : UserRegister) (user_agent ip_address : option string)
  | PostLogin (login_data : UserLogin) (user_agent ip_address : option string)
  | PostRefresh (refresh : string) (user_agent ip_address : option string)
  | PostLogout (refresh : string) (current_user_id : Z)
  | PutMe (update_data : UpdateUserRequest) (current_user_id : Z)
  | DeleteMe (current_user_id : Z).

Inductive Response : Type :=
  | Tokens (tokens : TokenResponse)
  | Profile (profile : UserResponse)
  | Message (message : string).

Section Endpoints.

Variable hashpw : string -> string -> string.
Variable checkpw : string -> string -> pyresult bool.
Variable jwt_encode : Security.claims_t -> string -> string -> option string.
Variable config : Config.

Definition register (user_data : UserRegister)
    (user_agent ip_address : option string) : M TokenResponse :=
  http_errors 400 "Failed to register user"
    (AuthService.register_user hashpw jwt_encode config user_data
       user_agent ip_address).

Definition login (login_data : UserLogin)
    (user_agent ip_address : option string) : M TokenResponse :=
  http_errors 401 "Failed to login"
    (AuthService.login_user checkpw jwt_encode config login_data
       user_agent ip_address).

(** The [refresh_token] endpoint; it always rotates. *)
Definition refresh_token_endpoint (refresh : string)
    (user_agent ip_address : option string) : M TokenResponse :=
  http_errors 401 "Failed to refresh token"
    (AuthService.refresh_access_token jwt_encode config refresh
       user_agent ip_address true).

Definition logout (refresh : string) (current_user_id : Z) : M string :=
  http_errors 400 "Failed to logout"
    (let* _ := AuthService.logout_user refresh current_user_id in
     ret "Successfully logged out"%string).

Definition update_current_user_profile (update_data : UpdateUserRequest)
    (current_user_id : Z) : M UserResponse :=
  http_errors 400 "Failed to update user profile"
    (UserService.update_user_profile current_user_id update_data).

Definition delete_current_user_account (current_user_id : Z) : M string :=
  http_errors 400 "Failed to delete user account"
    (let* _ := UserService.delete_user_account current_user_id in
     ret "User account successfully deleted"%string).

(** One request served inside its database session. *)
Definition serve (request : Request) : M Response :=
  get_db
    match request with
    | PostRegister user_data user_agent ip_address =>
        let* tokens := register user_data user_agent ip_address in
        ret (Tokens tokens)
    | PostLogin login_data user_agent ip_address =>
        let* tokens := login login_data user_agent ip_address in
        ret (Tokens tokens)
    | PostRefresh refresh user_agent ip_address =>
        let* tokens := refresh_token_endpoint refresh user_agent ip_address in
        ret (Tokens tokens)
    | PostLogout refresh current_user_id =>
        let* message := logout refresh current_user_id in
        ret (Message message)
    | PutMe update_data current_user_id =>
        let* profile := update_current_user_profile update_data current_user_id in
        ret (Profile profile)
    | DeleteMe current_user_id =>
        let* message := delete_current_user_account current_user_id in
        ret (Message message)
    end.

(** The world after a sequence of requests. *)
Fixpoint serve_all (requests : list Request) (w : World) : World :=
  match requests with
  | [] => w
  | request :: rest => serve_all rest (snd (serve request w))
  end.

End Endpoints.

End Api.

(** ** Threads calling the one [rate_limiter] instance

    Every access to [self._requests] in [src/core/rate_limiter.py] stands
    inside a [with self._lock] block, and [threading.Lock] admits one holder.
    A thread running [check_rate_limit] therefore moves through the points
    below; the body of a [with] block takes effect when the thread leaves
    the block. *)
Module Concurrent.

Import RateLimiter.

(** The arguments of one call of [check_rate_limit]. *)
Record Call : Type := {
  identifier : string;
  max_requests : Z;
  window_seconds : Z
}.

Inductive Pc : Type :=
  | AtEntry
    (** before [current_time = time.time()] *)
  | AtCleanClock (current_time : Q)
    (** in [_clean_old_requests], before its own [time.time()] *)
  | AtCleanLock (current_time cutoff_time : Q)
    (** before [with self._lock] of [_clean_old_requests] *)
  | InCleanLock (current_time cutoff_time : Q)
    (** holding the lock, inside that block *)
  | AtCheckLock (current_time : Q)
    (** before [with self._lock] of [check_rate_limit] *)
  | InCheckLock (current_time : Q)
    (** holding the lock, inside that block *)
  | Returned (result : bool * option Z).

Record Thread : Type := {
  call : Call;
  pc : Pc
}.

(** The limiter shared by the threads, the wall clock they read, and the
    threads themselves; a thread is named by its position. *)
Record Limiter : Type := {
  _requests : requests_t;
  _lock : option nat;
  wall_clock : Q;
  threads : list Thread
}.

Inductive Event : Type :=
  | ReadClock (tid : nat)
  | Acquire (tid : nat)
  | Release (tid : nat).

(** What the scheduler may do next: let a thread take its next step, or
    let time pass. *)
Inductive Action : Type :=
  | Run (tid : nat)
  | Advance (dt : Q).

Definition move (tid : nat) (th : Thread) (next : Pc) (requests : requests_t)
    (lock : option nat) (s : Limiter) : Limiter :=
  {| _requests := requests;
     _lock := lock;
     wall_clock := wall_clock s;
     threads := <[tid := {| call := call th; pc := next |}]> (threads s) |}.

(** The next step of thread [tid]; [None] when it has returned, does not
    exist, or waits for the lock. *)
Definition thread_step (tid : nat) (s : Limiter) : option (Event * Limiter) :=
  match threads s !! tid with
  | None => None
  | Some th =>
      match pc th with
      | AtEntry =>
          Some (ReadClock tid,
                move tid th (AtCleanClock (wall_clock s)) (_requests s) (_lock s) s)
      | AtCleanClock current_time =>
          let cutoff_time :=
            (wall_clock s - inject_Z (window_seconds (call th)))%Q in
          Some (ReadClock tid,
                move tid th (AtCleanLock current_time cutoff_time)
                  (_requests s) (_lock s) s)
      | AtCleanLock current_time cutoff_time =>
          match _lock s with
          | None =>
              Some (Acquire tid,
                    move tid th (InCleanLock current_time cutoff_time)
                      (_requests s) (Some tid) s)
          | Some _ => None
          end
      | InCleanLock current_time cutoff_time =>
          Some (Release tid,
                move tid th (AtCheckLock current_time)
                  (clean_section cutoff_time (identifier (call th)) (_requests s))
                  None s)
      | AtCheckLock current_time =>
          match _lock s with
          | None =>
              Some (Acquire tid,
                    move tid th (InCheckLock current_time) (_requests s)
                      (Some tid) s)
          | Some _ => None
          end
      | InCheckLock current_time =>
          let '(result, requests) :=
            check_section current_time (identifier (call th))
              (max_requests (call th)) (window_seconds (call th)) (_requests s) in
          Some (Release tid, move tid th (Returned result) requests None s)
      | Returned _ => None
      end
  end.

(** One action of the scheduler; an action that cannot be taken leaves the
    state as it is. *)
Definition act (a : Action) (s : Limiter) : list Event * Limiter :=
  match a with
  | Run tid =>
      match thread_step tid s with
      | Some (ev, s') => ([ev], s')
      | None => ([], s)
      end
  | Advance dt =>
      ([], if Qle_bool 0 dt
           then {| _requests := _requests s; _lock := _lock s;
                   wall_clock := (wall_clock s + dt)%Q; threads := threads s |}
           else s)
  end.

(** A schedule, with the events it produces in order. *)
Fixpoint run (schedule : list Action) (s : Limiter) : list Event * Limiter :=
  match schedule with
  | [] => ([], s)
  | a :: rest =>
      let '(evs, s') := act a s in
      let '(evs', s'') := run rest s' in
      (evs ++ evs', s'')
  end.

(** How often thread [tid] took the lock in a trace. *)
Definition acquisitions (tid : nat) (trace : list Event) : nat :=
  length (List.filter (fun ev => match ev with
                                 | Acquire t => Nat.eqb t tid
                                 | _ => false
                                 end) trace).

(** The thread an event belongs to, and the events of one thread. *)
Definition event_thread (ev : Event) : nat :=
  match ev with
  | ReadClock tid | Acquire tid | Release tid => tid
  end.

Definition events_of (tid : nat) (trace : list Event) : list Event :=
  List.filter (fun ev => Nat.eqb (event_thread ev) tid) trace.

(** The events a thread has produced when it stands at a point of its
    call: the lock is taken and released once around the pruning, and
    once more around the summing and the conditional append. *)
Definition events_until (tid : nat) (p : Pc) : list Event :=
  match p with
  | AtEntry => []
  | AtCleanClock _ => [ReadClock tid]
  | AtCleanLock _ _ => [ReadClock tid; ReadClock tid]
  | InCleanLock _ _ => [ReadClock tid; ReadClock tid; Acquire tid]
  | AtCheckLock _ => [ReadClock tid; ReadClock tid; Acquire tid; Release tid]
  | InCheckLock _ =>
      [ReadClock tid; ReadClock tid; Acquire tid; Release tid; Acquire tid]
  | Returned _ =>
      [ReadClock tid; ReadClock tid; Acquire tid; Release tid; Acquire tid;
       Release tid]
  end.

(** The points at which a thread holds the lock. *)
Definition holds_lock (p : Pc) : bool :=
  match p with
  | InCleanLock _ _ | InCheckLock _ => true
  | _ => false
  end.

(** Every thread's events are those of the point it stands at. *)
Definition events_follow (pre : list Event) (s : Limiter) : Prop :=
  forall tid th,
    threads s !! tid = Some th -> events_of tid pre = events_until tid (pc th).

(** The lock is held by the thread that stands inside a [with] block. *)
Definition lock_held_by_holder (s : Limiter) : Prop :=
  forall tid th,
    threads s !! tid = Some th -> holds_lock (pc th) = true -> _lock s = Some tid.

(** The limiter holds at most [limit] entries for every identifier, and
    every caller of an identifier checks it against that limit. *)
Definition quota_holds (limit : string -> Z) (s : Limiter) : Prop :=
  (forall id, quota_kept (limit id) (entries_of (_requests s) id))
  /\ (forall tid th,
        threads s !! tid = Some th ->
        max_requests (call th) = limit (identifier (call th))).

(** Threads at the entry of their calls, the lock free. *)
Definition start (requests : requests_t) (now : Q) (calls : list Call) : Limiter :=
  {| _requests := requests; _lock := None; wall_clock := now;
     threads := map (fun c => {| call := c; pc := AtEntry |}) calls |}.

(** Two callers of one identifier with a limit of one request per minute,
    an entry recorded 100 seconds ago, and a schedule that lets the second
    caller run between the pruning and the summing of the first. *)
Definition one_per_minute : Call :=
  {| identifier := "ip"; max_requests := 1; window_seconds := 60 |}.

Definition two_callers : Limiter :=
  start {[ "ip"%string := [(0%Q, 1)] ]} 100%Q [one_per_minute; one_per_minute].

Definition interleaved : list Action :=
  [Run 0; Run 0; Run 0; Run 0;
   Run 1; Run 1; Run 1; Run 1; Run 1; Run 1;
   Run 0; Run 0]%nat.

End Concurrent.

(** ** A small deployment, for concrete checks

    Stand-ins for the libraries: the hash of a password is the password
    behind a [$], [checkpw] raises on a stored hash that does not start with
    [$] (bcrypt's "Invalid salt"), and a token is signed by naming the key. *)
Module Scenario.

Definition dollar : Ascii.ascii :=
  Ascii.Ascii false false true false false true false false.

Definition hashpw (password salt : string) : string := String dollar password.

Definition checkpw (password hashed : string) : pyresult bool :=
  match hashed with
  | String c rest =>
      if Ascii.eqb c dollar then Return (String.eqb rest password)
      else Raise (ValueError "Invalid salt")
  | EmptyString => Raise (ValueError "Invalid salt")
  end.

Definition jwt_encode (claims : Security.claims_t) (key algorithm : string)
  : option string :=
  Some ("jwt:" ++ key)%string.

(** Two sessions per user, one request per minute, otherwise the defaults. *)
Definition config : Config := {|
  SECRET_KEY := "k";
  ALGORITHM := "HS256";
  ACCESS_TOKEN_EXPIRE_MINUTES := 30;
  REFRESH_TOKEN_EXPIRE_DAYS := 7;
  RATE_LIMIT_ENABLED := true;
  RATE_LIMIT_PER_MINUTE := 1;
  RATE_LIMIT_PER_HOUR := 1000;
  RATE_LIMIT_PER_DAY := 10000;
  MAX_SESSIONS_PER_USER := 2
|}.

(** An empty database, a clock that ticks once per reading, and a random
    source that counts. *)
Definition world : World := {|
  db := empty_database;
  clock := fun n => 1000 + Z.of_nat n;
  entropy := fun n => pretty n
|}.

Definition alice : UserRegister := {|
  register_username := "alice";
  register_email := "alice@x.com";
  register_password := "Passw0rd1"
|}.

Definition alice_login : UserLogin := {|
  login_username := "alice";
  login_password := "Passw0rd1"
|}.

Definition serve_all : list Api.Request -> World -> World :=
  Api.serve_all hashpw checkpw jwt_encode config.

(** Alice registers, then logs in twice. *)
Definition three_sessions : list Api.Request :=
  [Api.PostRegister alice None None;
   Api.PostLogin alice_login None None;
   Api.PostLogin alice_login None None].

(** A user whose stored hash is not a bcrypt hash. *)
Definition mallory : User.t := {|
  User.id := 7;
  User.username := "mallory";
  User.email := "mallory@x.com";
  User.hashed_password := "corrupt";
  User.is_active := true;
  User.is_admin := false;
  User.email_verified := false;
  User.created_at := 0;
  User.updated_at := 0
|}.

Definition corrupt_world : World := {|
  db := {| users := [mallory]; refresh_tokens := [] |};
  clock := clock world;
  entropy := entropy world
|}.

Definition mallory_login : UserLogin := {|
  login_username := "mallory";
  login_password := "Passw0rd1"
|}.




End Scenario.

(** ** [src/core/dependencies.py] *)
Module Dependencies.

(** PyJWT writes the [datetime]s of the registered claims [exp], [iat] and
    [nbf] as whole seconds since the epoch when it encodes a payload. *)
Definition numeric_date (v : Security.ClaimValue) : Security.ClaimValue :=
  match v with
  | Security.VDatetime micros => Security.VInt (micros / 1000000)
  | _ => v
  end.

Definition numeric_dates (claims : Security.claims_t) : Security.claims_t :=
  alter numeric_date "exp"%string
    (alter numeric_date "iat"%string
       (alter numeric_date "nbf"%string claims)).

Section Dependencies.

Variable jws_verify :
  string -> string -> string -> Security.JwsFailure + Security.claims_t.
Variable validate_before_exp : Security.claims_t -> Z -> option string.
Variable validate_after_exp : Security.claims_t -> Z -> option string.

(** [int(x)] on the value of a claim: the number a string spells, or the
    exception [int] raises. *)
Variable int_of_claim : Security.ClaimValue -> pyresult Z.

Variable config : Config.

(** [decode_access_token(token)] inside a request.  PyJWT reads the clock
    once, after it has verified the signature. *)
Definition decode_access_token (token : string) : M Security.claims_t :=
  match jws_verify token (SECRET_KEY config) (ALGORITHM config) with
  | inl _ =>
      lift (Security.decode_access_token jws_verify validate_before_exp
              validate_after_exp config 0 token)
  | inr _ =>
      let* now := datetime_now in
      lift (Security.decode_access_token jws_verify validate_before_exp
              validate_after_exp config now token)
  end.

(** The [try] block of [get_current_user] with its two [except] clauses;
    the [HTTPException] raised inside the block passes both.  The headers
    of the exceptions are left out. *)
Definition token_subject (token : string) : M Security.ClaimValue :=
  fun w =>
    match decode_access_token token w with
    | (Return payload, w') =>
        match payload !! "sub"%string with
        | None =>
            (Raise (HTTPException 401 "Invalid authentication credentials"), w')
        | Some user_id => (Return user_id, w')
        end
    | (Raise ExpiredSignatureError, w') =>
        (Raise (HTTPException 401 "Token has expired"), w')
    | (Raise (InvalidTokenError _), w') =>
        (Raise (HTTPException 401 "Invalid authentication credentials"), w')
    | (Raise e, w') => (Raise e, w')
    end.

(** [get_current_user]; [token] is [credentials.credentials]. *)
Definition get_current_user (token : string) : M User.t :=
  let* user_id := token_subject token in
  let* uid := lift (int_of_claim user_id) in
  let* user := AuthRepository.get_user_by_id uid in
  match user with
  | None => raise (HTTPException 401 "User not found")
  | Some user =>
      if negb (User.is_active user)
      then raise (HTTPException 403 "Inactive user account")
      else ret user
  end.

(** [require_admin] *)
Definition require_admin (current_user : User.t) : M User.t :=
  if negb (User.is_admin current_user)
  then raise (HTTPException 403 "Admin privileges required")
  else ret current_user.

(** [CurrentAdmin]: [require_admin] depends on [get_current_user]. *)
Definition current_admin (token : string) : M User.t :=
  let* current_user := get_current_user token in
  require_admin current_user.

End Dependencies.

End Dependencies.

(** ** [src/core/pagination.py] *)
Module Pagination.

Record PaginationParams : Type := {
  page : Z;
  page_size : Z;
  sort_by : option string;
  sort_order : option string
}.

(** The constraints of the [Field] declarations, [page >= 1] and
    [1 <= page_size <= 100]; pydantic builds no instance that breaks
    them. *)
Definition valid (pagination : PaginationParams) : Prop :=
  1 <= page pagination /\ 1 <= page_size pagination <= 100.

(** The property [offset] *)
Definition offset (pagination : PaginationParams) : Z :=
  (page pagination - 1) * page_size pagination.

(** The property [limit] *)
Definition limit (pagination : PaginationParams) : Z :=
  page_size pagination.

Record PaginatedResponse (T : Type) : Type := {
  items : list T;
  total : Z;
  response_page : Z;
  response_page_size : Z;
  total_pages : Z
}.
Arguments items {T} _.
Arguments total {T} _.
Arguments response_page {T} _.
Arguments response_page_size {T} _.
Arguments total_pages {T} _.

(** [PaginatedResponse.create].  [//] is the floor division of Python; it
    raises [ZeroDivisionError] on a zero [page_size], which is [None]
    here. *)
Definition create {T : Type} (items : list T) (total page page_size : Z)
  : option (PaginatedResponse T) :=
  if page_size =? 0 then None
  else
    let total_pages := (total + page_size - 1) / page_size in
    Some {| items := items; total := total; response_page := page;
            response_page_size := page_size; total_pages := total_pages |}.

(** [paginate].  [rows] are the rows the query selects, in the order it
    gives them: the count query counts them ([scalar() or 0] is their
    number), and [OFFSET] and [LIMIT] cut the page out of them. *)
Definition paginate {T : Type} (rows : list T) (pagination : PaginationParams)
  : list T * Z :=
  let total := Z.of_nat (length rows) in
  let items :=
    take (Z.to_nat (limit pagination)) (drop (Z.to_nat (offset pagination)) rows) in
  (items, total).

End Pagination.

(** ** [src/core/security.py] : masking and password strength

    A [str] is the sequence of its characters; a [string] holds those with
    a code point below 256, one per [ascii]. *)
Module SecurityText.

(** [c * n] for a one-character string [c]: empty when [n <= 0]. *)
Definition py_repeat (c : Ascii.ascii) (n : Z) : string :=
  string_of_list_ascii (repeat c (Z.to_nat n)).

(** [s[:n]]: the first [n] characters, or all but the last [-n] when [n]
    is negative. *)
Definition py_slice_to (s : string) (n : Z) : string :=
  if 0 <=? n then String.substring 0 (Z.to_nat n) s
  else String.substring 0 (Z.to_nat (Z.of_nat (String.length s) + n)) s.

Definition star : Ascii.ascii := Ascii.ascii_of_nat 42.

(** [mask_sensitive_data] *)
Definition mask_sensitive_data (data : string) (visible_chars : Z) : string :=
  let len := Z.of_nat (String.length data) in
  if String.eqb data "" || (len <=? visible_chars) then
    if negb (String.eqb data "") then py_repeat star len else ""%string
  else
    (py_slice_to data visible_chars ++ py_repeat star (len - visible_chars))%string.

(** The password settings of [Config]. *)
Record PasswordPolicy : Type := {
  PASSWORD_MIN_LENGTH : Z;
  PASSWORD_REQUIRE_UPPERCASE : bool;
  PASSWORD_REQUIRE_LOWERCASE : bool;
  PASSWORD_REQUIRE_DIGITS : bool;
  PASSWORD_REQUIRE_SPECIAL : bool
}.

(** The defaults of the class. *)
Definition default_policy : PasswordPolicy := {|
  PASSWORD_MIN_LENGTH := 8;
  PASSWORD_REQUIRE_UPPERCASE := true;
  PASSWORD_REQUIRE_LOWERCASE := true;
  PASSWORD_REQUIRE_DIGITS := true;
  PASSWORD_REQUIRE_SPECIAL := false
|}.

Definition code (c : Ascii.ascii) : nat := Ascii.nat_of_ascii c.

Definition between (low high : nat) (c : Ascii.ascii) : bool :=
  (low <=? code c)%nat && (code c <=? high)%nat.

(** The character classes [[A-Z]], [[a-z]] and [\d]; below 256 the only
    decimal digits are [0] to [9]. *)
Definition is_upper : Ascii.ascii -> bool := between 65 90.
Definition is_lower : Ascii.ascii -> bool := between 97 122.
Definition is_digit : Ascii.ascii -> bool := between 48 57.

(** The class of the twenty special characters the pattern lists, by code
    point: the exclamation mark, the at sign, the hash, the dollar, the
    percent sign, the caret, the ampersand, the asterisk, both parentheses,
    the comma, the full stop, the question mark, the double quote, the
    colon, both braces, the bar and both angle brackets. *)
Definition special_codes : list nat :=
  [33; 64; 35; 36; 37; 94; 38; 42; 40; 41; 44; 46; 63; 34; 58; 123; 125;
   124; 60; 62]%nat.

Definition is_special (c : Ascii.ascii) : bool :=
  existsb (Nat.eqb (code c)) special_codes.

(** [re.search] with a one-character class: some character is in it. *)
Fixpoint re_search (class : Ascii.ascii -> bool) (s : string) : bool :=
  match s with
  | EmptyString => false
  | String c rest => class c || re_search class rest
  end.

(** [str.lower] on one character: the letters [A-Z], and the capital
    letters of the upper half but the multiplication sign, move down by
    32. *)
Definition lower_char (c : Ascii.ascii) : Ascii.ascii :=
  if is_upper c || (between 192 222 c && negb (code c =? 215)%nat)
  then Ascii.ascii_of_nat (code c + 32)
  else c.

Fixpoint lower (s : string) : string :=
  match s with
  | EmptyString => EmptyString
  | String c rest => String (lower_char c) (lower rest)
  end.

Definition common_passwords : list string :=
  ["password"; "123456"; "12345678"; "qwerty"; "abc123";
   "password123"; "admin"; "letmein"; "welcome"]%string.

(** [validate_password_strength]; the errors are in the order the code
    appends them. *)
Definition validate_password_strength (policy : PasswordPolicy)
    (password : string) : bool * list string :=
  let errors : list string := [] in
  let errors :=
    if Z.of_nat (String.length password) <? PASSWORD_MIN_LENGTH policy
    then errors ++ [("Password must be at least "
                     ++ py_str_int (PASSWORD_MIN_LENGTH policy)
                     ++ " characters long")%string]
    else errors in
  let errors :=
    if PASSWORD_REQUIRE_UPPERCASE policy && negb (re_search is_upper password)
    then errors ++ ["Password must contain at least one uppercase letter"%string]
    else errors in
  let errors :=
    if PASSWORD_REQUIRE_LOWERCASE policy && negb (re_search is_lower password)
    then errors ++ ["Password must contain at least one lowercase letter"%string]
    else errors in
  let errors :=
    if PASSWORD_REQUIRE_DIGITS policy && negb (re_search is_digit password)
    then errors ++ ["Password must contain at least one digit"%string]
    else errors in
  let errors :=
    if PASSWORD_REQUIRE_SPECIAL policy && negb (re_search is_special password)
    then errors ++ ["Password must contain at least one special character"%string]
    else errors in
  let errors :=
    if existsb (String.eqb (lower password)) common_passwords
    then errors ++ ["Password is too common"%string]
    else errors in
  ((length errors =? 0)%nat, errors).

End SecurityText.

(** ** [src/schemas/auth.py] : the field validators *)
Module Schemas.

Import SecurityText.

(** [validate_password] of [UserRegister], [PasswordResetConfirm] and
    [PasswordChange] *)
Definition validate_password (v : string) : pyresult string :=
  if (String.length v <? 8)%nat
  then Raise (ValueError "Password must be at least 8 characters long")
  else if negb (re_search is_upper v)
  then Raise (ValueError "Password must contain at least one uppercase letter")
  else if negb (re_search is_lower v)
  then Raise (ValueError "Password must contain at least one lowercase letter")
  else if negb (re_search is_digit v)
  then Raise (ValueError "Password must contain at least one digit")
  else Return v.

(** The characters [str.strip] removes: those for which [str.isspace]
    holds. *)
Definition is_space (c : Ascii.ascii) : bool :=
  between 9 13 c || between 28 32 c || (code c =? 133)%nat || (code c =? 160)%nat.

Fixpoint lstrip (s : string) : string :=
  match s with
  | EmptyString => EmptyString
  | String c rest => if is_space c then lstrip rest else s
  end.

Fixpoint rstrip (s : string) : string :=
  match s with
  | EmptyString => EmptyString
  | String c rest =>
      match rstrip rest with
      | EmptyString => if is_space c then EmptyString else String c EmptyString
      | kept => String c kept
      end
  end.

(** [v.strip()] *)
Definition strip (s : string) : string := rstrip (lstrip s).

(** The class [[a-zA-Z0-9_-]] *)
Definition is_username_char (c : Ascii.ascii) : bool :=
  is_lower c || is_upper c || is_digit c || (code c =? 95)%nat || (code c =? 45)%nat.

Definition newline : Ascii.ascii := Ascii.ascii_of_nat 10.

(** [re.match(r"^[a-zA-Z0-9_-]+$", v)]: one or more characters of the
    class up to the end of the string, where [$] also matches just before
    a newline that ends the string. *)
Fixpoint re_match_username (v : string) : bool :=
  match v with
  | EmptyString => false
  | String c rest =>
      is_username_char c
      && match rest with
         | EmptyString => true
         | String d EmptyString => is_username_char d || Ascii.eqb d newline
         | _ => re_match_username rest
         end
  end.

(** Every character of the string is in the class. *)
Fixpoint every_char (class : Ascii.ascii -> bool) (s : string) : bool :=
  match s with
  | EmptyString => true
  | String c rest => class c && every_char class rest
  end.

(** [validate_username] of [UserRegister] *)
Definition validate_username (v : string) : pyresult string :=
  let v := strip v in
  if negb (re_match_username v)
  then Raise (ValueError
                "Username must contain only alphanumeric characters, underscores, and hyphens")
  else Return v.

(** [validate_username] of [UpdateUserRequest] *)
Definition validate_optional_username (v : option string)
  : pyresult (option string) :=
  match v with
  | None => Return None
  | Some v =>
      match validate_username v with
      | Return v => Return (Some v)
      | Raise e => Raise e
      end
  end.

End Schemas.

(** ** [src/api/middlewares/rate_limit.py] *)
Module RateLimitMiddleware.

(** What the middleware reads of a request: [request.client], with its
    [host], and [request.url.path]. *)
Record Request : Type := {
  client_host : option string;
  url_path : string
}.

(** The readings of [time.time()] one call of [check_all_rate_limits]
    takes: two for each tier it reaches. *)
Record Clocks : Type := {
  at_minute : Q * Q;
  at_hour : Q * Q;
  at_day : Q * Q
}.

(** [request.client.host if request.client else "unknown"] *)
Definition client_ip (request : Request) : string :=
  match client_host request with
  | Some host => host
  | None => "unknown"%string
  end.

Definition exempt_paths : list string :=
  ["/health"; "/health/ready"; "/metrics"]%string.

Section Middleware.

Variable config : Config.

Context {App Response : Type}.

(** [call_next]: the rest of the stack, which runs on the state of the
    application and returns a response or raises. *)
Variable call_next : Request -> App -> pyresult Response * App.

(** [RateLimitMiddleware.dispatch] on the limiter and the application.
    The [except Exception: raise] around the check re-raises what it
    caught. *)
Definition dispatch (clocks : Clocks) (request : Request)
    (state : RateLimiter.requests_t * App)
  : pyresult Response * (RateLimiter.requests_t * App) :=
  let '(requests, app) := state in
  if negb (RATE_LIMIT_ENABLED config) then
    let '(response, app) := call_next request app in
    (response, (requests, app))
  else
    let client_ip := client_ip request in
    if existsb (String.eqb (url_path request)) exempt_paths then
      let '(response, app) := call_next request app in
      (response, (requests, app))
    else
      match RateLimiter.check_all_rate_limits config (at_minute clocks)
              (at_hour clocks) (at_day clocks) client_ip requests with
      | (Raise e, requests) => (Raise e, (requests, app))
      | (Return _, requests) =>
          let '(response, app) := call_next request app in
          (response, (requests, app))
      end.

(** The requests of a log go through the middleware one after the
    other. *)
Fixpoint dispatch_all (log : list (Clocks * Request))
    (state : RateLimiter.requests_t * App)
  : list (pyresult Response) * (RateLimiter.requests_t * App) :=
  match log with
  | [] => ([], state)
  | (clocks, request) :: rest =>
      let '(response, state) := dispatch clocks request state in
      let '(responses, state) := dispatch_all rest state in
      (response :: responses, state)
  end.

End Middleware.

(** A stack that counts the requests that reach it, in front of its
    state. *)
Definition counting {App Response : Type}
    (call_next : Request -> App -> pyresult Response * App)
    (request : Request) (counted : nat * App)
  : pyresult Response * (nat * App) :=
  let '(response, app) := call_next request (snd counted) in
  (response, (S (fst counted), app)).

End RateLimitMiddleware.

(** ** Accounts that were switched off *)
Module Accounts.

(** The account is in the table and not active. *)
Definition deactivated_in (uid : Z) (d : Database) : Prop :=
  exists u,
    AuthRepository.find_user uid (users d) = Some u
    /\ User.is_active u = false.

(** Between two worlds, an account that is off stays off. *)
Definition stays_deactivated (uid : Z) (w w' : World) : Prop :=
  deactivated_in uid (db w) -> deactivated_in uid (db w').

End Accounts.

(** ** More deployments, for concrete checks *)
Module Samples.

(** Five requests per minute and one per hour, otherwise the settings of
    [Scenario.config]. *)
Definition hourly : Config := {|
  SECRET_KEY := "k";
  ALGORITHM := "HS256";
  ACCESS_TOKEN_EXPIRE_MINUTES := 30;
  REFRESH_TOKEN_EXPIRE_DAYS := 7;
  RATE_LIMIT_ENABLED := true;
  RATE_LIMIT_PER_MINUTE := 5;
  RATE_LIMIT_PER_HOUR := 1;
  RATE_LIMIT_PER_DAY := 10000;
  MAX_SESSIONS_PER_USER := 2
|}.

(** A limiter that has counted one request of the address this hour. *)
Definition used_hour : RateLimiter.requests_t :=
  {[ "hour:ip"%string := [(1%Q, 1)] ]}.

(** A refresh token that was revoked and has expired since. *)
Definition spent : RefreshToken.t := {|
  RefreshToken.id := 1;
  RefreshToken.token := "spent";
  RefreshToken.user_id := 7;
  RefreshToken.expires_at := 5;
  RefreshToken.created_at := 0;
  RefreshToken.is_revoked := true;
  RefreshToken.user_agent := None;
  RefreshToken.ip_address := None
|}.

Definition spent_world : World := {|
  db := {| users := [Scenario.mallory]; refresh_tokens := [spent] |};
  clock := clock Scenario.world;
  entropy := entropy Scenario.world
|}.

(** The world after Alice has registered: she holds the refresh token
    ["1"]. *)
Definition registered : World :=
  Scenario.serve_all [Api.PostRegister Scenario.alice None None] Scenario.world.

(** Stand-ins for PyJWT's verification and for [int]: the one token
    ["jwt:k"] verifies, to the claims signed for Mallory at the microsecond
    1000; the registered claims raise no complaint; and [int] reads the
    string ["7"]. *)
Definition mallory_claims : Security.claims_t :=
  Security.access_token_claims Scenario.config 1000 1001
    (AuthService.token_data Scenario.mallory) None.

Definition jws_verify (token key algorithm : string)
  : Security.JwsFailure + Security.claims_t :=
  if String.eqb token "jwt:k"
  then inr (Dependencies.numeric_dates mallory_claims)
  else inl Security.Malformed.

Definition no_complaint (payload : Security.claims_t) (now : Z) : option string :=
  None.

Definition int_of_claim (v : Security.ClaimValue) : pyresult Z :=
  match v with
  | Security.VInt n => Return n
  | Security.VStr "7" => Return 7
  | _ => Raise (ValueError "invalid literal for int() with base 10")
  end.

(** A login attempt from the address ["ip"], the clock readings of a check
    made within one second, and an application that answers every
    request. *)
Definition login_attempt : RateLimitMiddleware.Request := {|
  RateLimitMiddleware.client_host := Some "ip"%string;
  RateLimitMiddleware.url_path := "/api/v1/auth/login"
|}.

Definition at_second (t : Q) : RateLimitMiddleware.Clocks := {|
  RateLimitMiddleware.at_minute := (t, t);
  RateLimitMiddleware.at_hour := (t, t);
  RateLimitMiddleware.at_day := (t, t)
|}.

Definition answer (request : RateLimitMiddleware.Request) (app : unit)
  : pyresult string * unit :=
  (Return "ok"%string, tt).

Definition two_attempts
  : list (RateLimitMiddleware.Clocks * RateLimitMiddleware.Request) :=
  [(at_second 1, login_attempt); (at_second 2, login_attempt)].

End Samples.

(** * Properties *)

(** ** Arithmetic of the Python helpers *)

Lemma Qlt_bool_iff (a b : Q) : Qlt_bool a b = true <-> (a < b)%Q.
Proof.
  unfold Qlt_bool. rewrite negb_true_iff, <- not_true_iff_false, Qle_bool_iff.
  split; [apply Qnot_le_lt | apply Qlt_not_le].
Qed.

Lemma Qlt_bool_Is_true (a b : Q) : Is_true (Qlt_bool a b) <-> (a < b)%Q.
Proof. rewrite Is_true_true. apply Qlt_bool_iff. Qed.

Lemma py_int_floor (x : Q) : (0 <= x)%Q -> py_int x = Qfloor x.
Proof.
  destruct x as [n d]. unfold py_int, Qfloor, Qle. simpl. intros H.
  apply Z.quot_div_nonneg; lia.
Qed.

Lemma py_int_nonneg (x : Q) : (0 <= x)%Q -> 0 <= py_int x.
Proof.
  intros H. rewrite (py_int_floor x H).
  change 0 with (Qfloor 0). now apply Qfloor_resp_le.
Qed.


(** ** The rate limiter: what one check does *)
Section OneCheck.

Import RateLimiter.

Lemma sum_counts_foldr (entries : list (Q * Z)) :
  sum_counts entries = foldr (fun e acc => snd e + acc) 0 entries.
Proof.
  unfold sum_counts.
  assert (G : forall (l : list (Q * Z)) a,
             fold_left Z.add (map snd l) a
             = a + foldr (fun e acc => snd e + acc) 0 l).
  { induction l as [|e l IH]; intros a; simpl; [lia|]. rewrite IH. lia. }
  rewrite G. lia.
Qed.

Lemma sum_counts_cons (e : Q * Z) (entries : list (Q * Z)) :
  sum_counts (e :: entries) = snd e + sum_counts entries.
Proof. rewrite !sum_counts_foldr. reflexivity. Qed.

Lemma sum_counts_app (l k : list (Q * Z)) :
  sum_counts (l ++ k) = sum_counts l + sum_counts k.
Proof.
  induction l as [|e l IH]; simpl.
  - unfold sum_counts at 2. simpl. lia.
  - rewrite !sum_counts_cons, IH. lia.
Qed.

Variables (current_time clean_time : Q) (identifier : string).
Variables (max_requests window_seconds : Z) (requests : requests_t).

Let survivors := kept clean_time window_seconds (entries_of requests identifier).

Lemma getitem_after_clean :
  let '(entries, requests') :=
    getitem identifier
      (_clean_old_requests clean_time identifier window_seconds requests) in
  entries = survivors
  /\ requests' !! identifier = Some survivors
  /\ forall other, other <> identifier -> requests' !! other = requests !! other.
Proof.
  unfold survivors, kept, entries_of, getitem, _clean_old_requests, clean_section.
  destruct (requests !! identifier) as [entries|] eqn:E; simpl.
  - destruct (filter _ entries) as [|e rest] eqn:F.
    + rewrite lookup_delete_eq. repeat split.
      * apply lookup_insert_eq.
      * intros other Hne. rewrite lookup_insert_ne, lookup_delete_ne by done. done.
    + rewrite lookup_insert_eq. repeat split.
      * apply lookup_insert_eq.
      * intros other Hne. by rewrite lookup_insert_ne.
  - rewrite E. repeat split.
    + apply lookup_insert_eq.
    + intros other Hne. by rewrite lookup_insert_ne.
Qed.

(** The verdict of a check, from the surviving entries. *)
Lemma check_rate_limit_result :
  fst (check_rate_limit current_time clean_time identifier max_requests
         window_seconds requests)
  = if max_requests <=? sum_counts survivors
    then (false,
          Some match survivors with
               | e :: rest =>
                   py_int (inject_Z window_seconds
                           - (current_time - min_timestamp (fst e) rest))%Q + 1
               | [] => window_seconds
               end)
    else (true, None).
Proof.
  unfold check_rate_limit, check_section.
  pose proof getitem_after_clean as G.
  destruct (getitem _ _) as [entries requests']. destruct G as (-> & _ & _).
  destruct (max_requests <=? sum_counts survivors); [|done].
  by destruct survivors.
Qed.

(** The entries of the identifier after a check. *)
Lemma check_rate_limit_entries :
  entries_of (snd (check_rate_limit current_time clean_time identifier
                     max_requests window_seconds requests)) identifier
  = if max_requests <=? sum_counts survivors
    then survivors
    else survivors ++ [(current_time, 1)].
Proof.
  unfold check_rate_limit, check_section, entries_of.
  pose proof getitem_after_clean as G.
  destruct (getitem _ _) as [entries requests']. destruct G as (-> & G & _).
  destruct (max_requests <=? sum_counts survivors).
  - destruct survivors; simpl; by rewrite G.
  - simpl. by rewrite lookup_insert_eq.
Qed.

(** A check touches the key of its identifier only. *)
Lemma check_rate_limit_frame (other : string) :
  other <> identifier ->
  snd (check_rate_limit current_time clean_time identifier max_requests
         window_seconds requests) !! other = requests !! other.
Proof.
  intros Hne. unfold check_rate_limit, check_section.
  pose proof getitem_after_clean as G.
  destruct (getitem _ _) as [entries requests']. destruct G as (-> & _ & G).
  destruct (max_requests <=? sum_counts survivors).
  - destruct survivors; simpl; by apply G.
  - simpl. rewrite lookup_insert_ne by done. by apply G.
Qed.

End OneCheck.

(** ** The oldest timestamp *)
Section Oldest.

Import RateLimiter.

Lemma min_timestamp_member (first : Q) (rest : list (Q * Z)) :
  min_timestamp first rest = first \/ In (min_timestamp first rest) (map fst rest).
Proof.
  unfold min_timestamp. revert first.
  induction rest as [|e rest IH]; intros first; simpl; [by left|].
  destruct (IH (if Qlt_bool (fst e) first then fst e else first)) as [H|H].
  - rewrite H. destruct (Qlt_bool (fst e) first); auto.
  - auto.
Qed.

Lemma min_timestamp_lower (first : Q) (rest : list (Q * Z)) :
  (min_timestamp first rest <= first)%Q
  /\ Forall (fun e => (min_timestamp first rest <= fst e)%Q) rest.
Proof.
  unfold min_timestamp. revert first.
  induction rest as [|e rest IH]; intros first; simpl.
  - split; [apply Qle_refl | constructor].
  - destruct (IH (if Qlt_bool (fst e) first then fst e else first)) as [H1 H2].
    destruct (Qlt_bool (fst e) first) eqn:C.
    + apply Qlt_bool_iff in C. split; [|constructor; [done|done]].
      eapply Qle_trans; [exact H1|]. by apply Qlt_le_weak.
    + assert (first <= fst e)%Q.
      { apply Qnot_lt_le. intros L. apply Qlt_bool_iff in L. congruence. }
      split; [done|]. constructor; [|done].
      eapply Qle_trans; [exact H1|done].
Qed.

Lemma oldest_timestamp_member (first : Q * Z) (rest : list (Q * Z)) :
  RateLimiterSpec.oldest_timestamp first rest = fst first
  \/ In (RateLimiterSpec.oldest_timestamp first rest) (map fst rest).
Proof.
  unfold RateLimiterSpec.oldest_timestamp.
  induction rest as [|e rest IH]; simpl; [by left|].
  set (m := foldr (fun e m => Qmin (fst e) m) (fst first) rest) in *.
  assert (H : Qmin (fst e) m = fst e \/ Qmin (fst e) m = m).
  { unfold Qmin, GenericMinMax.gmin. destruct (fst e ?= m)%Q; auto. }
  destruct H as [H|H]; rewrite H; auto.
  destruct IH; auto.
Qed.

Lemma oldest_timestamp_lower (first : Q * Z) (rest : list (Q * Z)) :
  (RateLimiterSpec.oldest_timestamp first rest <= fst first)%Q
  /\ Forall (fun e => (RateLimiterSpec.oldest_timestamp first rest <= fst e)%Q) rest.
Proof.
  unfold RateLimiterSpec.oldest_timestamp.
  induction rest as [|e rest [IH1 IH2]]; simpl.
  - split; [apply Qle_refl | constructor].
  - split.
    + eapply Qle_trans; [apply Q.le_min_r | exact IH1].
    + constructor; [apply Q.le_min_l|].
      eapply Forall_impl; [exact IH2|]. simpl. intros x Hx.
      eapply Qle_trans; [apply Q.le_min_r | exact Hx].
Qed.

(** Both ways of taking the minimum agree. *)
Lemma min_timestamp_oldest (first : Q * Z) (rest : list (Q * Z)) :
  (min_timestamp (fst first) rest == RateLimiterSpec.oldest_timestamp first rest)%Q.
Proof.
  destruct (min_timestamp_lower (fst first) rest) as [A1 A2].
  destruct (oldest_timestamp_lower first rest) as [B1 B2].
  rewrite Forall_forall in A2, B2.
  apply Qle_antisym.
  - destruct (oldest_timestamp_member first rest) as [H|H].
    + rewrite H. exact A1.
    + apply in_map_iff in H. destruct H as (e & <- & He). apply A2.
      by apply list_elem_of_In.
  - destruct (min_timestamp_member (fst first) rest) as [H|H].
    + rewrite H. exact B1.
    + apply in_map_iff in H. destruct H as (e & <- & He). apply B2.
      by apply list_elem_of_In.
Qed.

End Oldest.

(** ** One check against the algorithm of the specification *)
Section Algorithm.

Import RateLimiter.

Lemma filter_Is_true {A : Type} (f : A -> bool) (l : list A) :
  filter (fun x => f x) l = List.filter f l.
Proof.
  induction l as [|a l IH]; [done|].
  rewrite filter_cons. simpl. rewrite IH.
  destruct (f a) eqn:E; case_decide as D; simpl in D; done.
Qed.

Lemma kept_in_window (clean_time : Q) (window_seconds : Z)
    (entries : list (Q * Z)) :
  kept clean_time window_seconds entries
  = List.filter (RateLimiterSpec.in_window clean_time window_seconds) entries.
Proof. unfold kept. apply filter_Is_true. Qed.

Lemma kept_after_cutoff (clean_time : Q) (window_seconds : Z)
    (entries : list (Q * Z)) :
  Forall (fun e => (clean_time - inject_Z window_seconds < fst e)%Q)
    (kept clean_time window_seconds entries).
Proof.
  rewrite kept_in_window. apply Forall_forall. intros e He.
  apply list_elem_of_In, filter_In in He. destruct He as [_ He].
  by apply Qlt_bool_iff in He.
Qed.

(** The oldest survivor is younger than the cutoff. *)
Lemma min_timestamp_after_cutoff (cutoff : Q) (e : Q * Z) (rest : list (Q * Z)) :
  Forall (fun x => (cutoff < fst x)%Q) (e :: rest) ->
  (cutoff < min_timestamp (fst e) rest)%Q.
Proof.
  intros H. rewrite Forall_forall in H.
  destruct (min_timestamp_member (fst e) rest) as [-> | M].
  - apply H. left.
  - apply in_map_iff in M. destruct M as (x & <- & Hx).
    apply H. right. by apply list_elem_of_In.
Qed.

(** For a span that is not negative, [int(x) + 1] is the least whole number
    above [x]. *)
Lemma py_int_next_second (x : Q) :
  (0 <= x)%Q ->
  (x < inject_Z (py_int x + 1))%Q /\ (inject_Z (py_int x + 1) <= x + 1)%Q.
Proof.
  intros Hx. rewrite py_int_floor by exact Hx. split.
  - apply Qlt_floor.
  - rewrite inject_Z_plus. apply Qplus_le_l. apply Qfloor_le.
Qed.

End Algorithm.

(** C3.  What one call of [check_rate_limit] does.  The call reads the clock
    twice, [current_time] first and [clean_time] inside
    [_clean_old_requests], and the second reading is taken to be no earlier
    than the first.  It prunes the entries of the identifier with
    [timestamp <= clean_time - window_seconds] and sums the remaining
    counts.  Below [max_requests] it allows and appends [(current_time, 1)].
    Otherwise it denies and records nothing; [retry_after] is
    [window_seconds] when no entry is left, and else the least whole number
    strictly above the time that remains,
    [window_seconds - (current_time - oldest_timestamp)], which is positive:
    one more than its floor, not a ceiling.  For a window that is not
    negative [retry_after] is therefore never negative.  The entries of every
    other identifier stay as they were. *)
Theorem check_rate_limit_algorithm_with_two_readings
    (current_time clean_time : Q) (identifier : string)
    (max_requests window_seconds : Z) (requests : RateLimiter.requests_t) :
  0 <= window_seconds ->
  (current_time <= clean_time)%Q ->
  let entries := RateLimiter.entries_of requests identifier in
  let remaining :=
    List.filter (RateLimiterSpec.in_window clean_time window_seconds) entries in
  let total := RateLimiterSpec.window_count clean_time window_seconds entries in
  let '(result, requests') :=
    RateLimiter.check_rate_limit current_time clean_time identifier
      max_requests window_seconds requests in
  (forall other, other <> identifier -> requests' !! other = requests !! other)
  /\ (total < max_requests ->
      result = (true, None)
      /\ RateLimiter.entries_of requests' identifier
         = remaining ++ [(current_time, 1)])
  /\ (max_requests <= total ->
      RateLimiter.entries_of requests' identifier = remaining
      /\ exists retry_after,
          result = (false, Some retry_after)
          /\ 0 <= retry_after
          /\ match remaining with
             | [] => retry_after = window_seconds
             | first :: rest =>
                 let time_left :=
                   (inject_Z window_seconds
                    - (current_time
                       - RateLimiterSpec.oldest_timestamp first rest))%Q in
                 (0 < time_left)%Q
                 /\ (time_left < inject_Z retry_after)%Q
                 /\ (inject_Z retry_after <= time_left + 1)%Q
             end).
Proof.
  intros Hw Hclock entries remaining total.
  pose proof (check_rate_limit_result current_time clean_time identifier
                max_requests window_seconds requests) as R.
  pose proof (check_rate_limit_entries current_time clean_time identifier
                max_requests window_seconds requests) as E.
  pose proof (check_rate_limit_frame current_time clean_time identifier
                max_requests window_seconds requests) as F.
  destruct (RateLimiter.check_rate_limit current_time clean_time identifier
              max_requests window_seconds requests) as [result requests'].
  simpl in R, E, F.
  pose proof (kept_after_cutoff clean_time window_seconds
                (RateLimiter.entries_of requests identifier)) as K.
  rewrite kept_in_window in R, E, K. rewrite sum_counts_foldr in R, E.
  fold entries in R, E, K. fold remaining in R, E, K.
  change (foldr (fun e acc => snd e + acc) 0 remaining) with total in R, E.
  split; [exact F|].
  destruct (max_requests <=? total) eqn:Hfull.
  - apply Z.leb_le in Hfull. split; [lia|]. intros _.
    split; [exact E|].
    destruct remaining as [|e rest] eqn:Hremaining.
    + exists window_seconds. split; [exact R|]. split; [lia | reflexivity].
    + pose proof (min_timestamp_after_cutoff _ _ _ K) as C.
      pose proof (min_timestamp_oldest e rest) as Hsame.
      assert (Hleft : (0 <= inject_Z window_seconds
                            - (current_time
                               - RateLimiter.min_timestamp (fst e) rest))%Q)
        by lra.
      destruct (py_int_next_second _ Hleft) as [Habove Hnext].
      pose proof (py_int_nonneg _ Hleft) as Hnonneg.
      eexists. split; [exact R|]. split; [lia|].
      cbv zeta. split; [lra|]. split; lra.
  - apply Z.leb_gt in Hfull. split; [|lia]. intros _.
    split; [exact R | exact E].
Qed.

(** C3, as the specification words it, does not hold of the code.  Neither
    way of rounding up gives the [retry_after] of the code: with 39.5
    seconds of the window left the code announces 40, where the ceiling of
    [window_seconds - (now - oldest_timestamp) + 1] is 41; with a whole 40
    seconds left the code announces 41, where the ceiling of the time left
    is 40.  With the two readings 100 and 100.5 and an entry from second
    40.2 the code allows and records second 100, which no single [now]
    explains: at 100 the algorithm of the specification denies, at 100.5 it
    records 100.5.  And when the clock runs backwards between the readings,
    from 100 to 90, the [retry_after] of the code is negative. *)
Lemma check_rate_limit_departs_from_the_specification :
  (fst (RateLimiter.check_rate_limit (61 # 2) (61 # 2) "ip" 1 60
          {[ "ip"%string := [(10%Q, 1)] ]})
   = (false, Some 40)
   /\ RateLimiterSpec.as_tuple
        (fst (RateLimiterSpec.check_and_record (61 # 2) 1 60 [(10%Q, 1)]))
      = (false, Some 41))
  /\ (fst (RateLimiter.check_rate_limit 30 30 "ip" 1 60
             {[ "ip"%string := [(10%Q, 1)] ]})
      = (false, Some 41)
      /\ RateLimiterSpec.rounded_up (inject_Z 60 - (30 - 10)) = 40)
  /\ (fst (RateLimiter.check_rate_limit 100 (201 # 2) "ip" 1 60
             {[ "ip"%string := [((201 # 5)%Q, 1)] ]})
      = (true, None)
      /\ RateLimiter.entries_of
           (snd (RateLimiter.check_rate_limit 100 (201 # 2) "ip" 1 60
                   {[ "ip"%string := [((201 # 5)%Q, 1)] ]})) "ip"
         = [(100%Q, 1)]
      /\ RateLimiterSpec.check_and_record 100 1 60 [((201 # 5)%Q, 1)]
         = (RateLimiterSpec.Denied 2, [((201 # 5)%Q, 1)])
      /\ RateLimiterSpec.check_and_record (201 # 2) 1 60 [((201 # 5)%Q, 1)]
         = (RateLimiterSpec.Allowed, [((201 # 2)%Q, 1)]))
  /\ fst (RateLimiter.check_rate_limit 100 90 "ip" 1 60
            {[ "ip"%string := [(35%Q, 1)] ]})
     = (false, Some (-4))
  /\ fst (RateLimiter.check_rate_limit (61 # 2) (61 # 2) "ip" 1 60
            {[ "ip"%string := [(10%Q, 1)] ]})
     <> RateLimiterSpec.as_tuple
          (fst (RateLimiterSpec.check_and_record (61 # 2) 1 60 [(10%Q, 1)])).
Proof.
  repeat split; try (vm_compute; reflexivity).
  vm_compute. discriminate.
Qed.

(** ** Successive checks of one identifier *)
Section Quota.

Import RateLimiter.

Variables (identifier : string) (max_requests window_seconds : Z).

Lemma sum_counts_ones (entries : list (Q * Z)) :
  Forall (fun e => snd e = 1) entries ->
  sum_counts entries = Z.of_nat (length entries).
Proof.
  induction 1 as [|e l He _ IH]; [done|].
  rewrite sum_counts_cons, IH, He. simpl. lia.
Qed.

Lemma kept_all (clean_time : Q) (entries : list (Q * Z)) :
  Forall (fun e => (clean_time - inject_Z window_seconds < fst e)%Q) entries ->
  kept clean_time window_seconds entries = entries.
Proof.
  unfold kept. induction 1 as [|e l He _ IH]; [done|].
  rewrite filter_cons_True; [by rewrite IH|]. by apply Qlt_bool_Is_true.
Qed.

Lemma kept_sublist (clean_time : Q) (entries : list (Q * Z)) :
  Forall (fun e => snd e = 1) entries ->
  Forall (fun e => snd e = 1) (kept clean_time window_seconds entries)
  /\ (length (kept clean_time window_seconds entries) <= length entries)%nat.
Proof.
  intros H. split; [|apply length_filter].
  apply Forall_forall. intros e He. apply list_elem_of_filter in He.
  rewrite Forall_forall in H. apply H. tauto.
Qed.

Lemma check_rate_limit_quota (current_time clean_time : Q)
    (requests : requests_t) :
  quota_kept max_requests (entries_of requests identifier) ->
  quota_kept max_requests (entries_of (snd (check_rate_limit current_time clean_time
                                 identifier max_requests window_seconds
                                 requests)) identifier).
Proof.
  intros [Hones Hlen]. rewrite check_rate_limit_entries.
  destruct (kept_sublist clean_time _ Hones) as [Kones Klen].
  destruct (max_requests <=? _) eqn:C.
  - split; [done|lia].
  - apply Z.leb_gt in C. rewrite (sum_counts_ones _ Kones) in C. split.
    + apply Forall_app. split; [done|]. by constructor.
    + rewrite length_app. simpl. lia.
Qed.



(** Checks inside one window, while the quota lasts. *)
Lemma check_many_allowed (opened : Q) (clocks : list (Q * Q))
    (requests : requests_t) :
  Forall (fun e => snd e = 1 /\ (opened <= fst e)%Q) (entries_of requests identifier) ->
  Z.of_nat (length (entries_of requests identifier) + length clocks) <= max_requests ->
  Forall (RateLimiterSpec.within_window opened window_seconds) clocks ->
  let '(results, requests') :=
    check_many clocks identifier max_requests window_seconds requests in
  Forall (fun r => r = (true, None)) results
  /\ entries_of requests' identifier
     = entries_of requests identifier ++ map (fun c => (fst c, 1)) clocks.
Proof.
  revert requests.
  induction clocks as [|[t t'] clocks IH]; intros requests Hent Hlen Hwin; simpl.
  - split; [done|by rewrite app_nil_r].
  - apply Forall_cons_1 in Hwin. destruct Hwin as [(W1 & W2 & W3) Hwin].
    simpl in W1, W2, W3.
    pose proof (check_rate_limit_result t t' identifier max_requests
                  window_seconds requests) as R.
    pose proof (check_rate_limit_entries t t' identifier max_requests
                  window_seconds requests) as E.
    destruct (check_rate_limit t t' identifier max_requests window_seconds
                requests) as [result requests1]. simpl in R, E.
    rewrite kept_all in R, E.
    2,3: eapply Forall_impl; [exact Hent|]; simpl; intros e [_ He]; lra.
    rewrite sum_counts_ones in R, E.
    2,3: eapply Forall_impl; [exact Hent|]; simpl; tauto.
    destruct (max_requests <=? _) eqn:C.
    { apply Z.leb_le in C. simpl in Hlen. lia. }
    specialize (IH requests1). rewrite E in IH.
    destruct (check_many clocks identifier max_requests window_seconds
                requests1) as [results requests2].
    destruct IH as [IH1 IH2].
    + apply Forall_app. split; [done|]. constructor; [|done]. simpl. done.
    + rewrite length_app. simpl in *. lia.
    + done.
    + split; [constructor; done|]. rewrite IH2, <- app_assoc. done.
Qed.

End Quota.


(** ** The tiers *)
Section Tiers.

Import RateLimiter.

Lemma check_rate_limit_verdict (current_time clean_time : Q)
    (identifier : string) (max_requests window_seconds : Z)
    (requests : requests_t) :
  fst (check_rate_limit current_time clean_time identifier max_requests
         window_seconds requests) = (true, None)
  \/ exists retry_after,
      fst (check_rate_limit current_time clean_time identifier max_requests
             window_seconds requests) = (false, Some retry_after).
Proof.
  rewrite check_rate_limit_result.
  destruct (max_requests <=? _); [right; eauto | by left].
Qed.

Lemma denied_retry_after_positive (current_time clean_time : Q)
    (identifier : string) (max_requests window_seconds retry_after : Z)
    (requests : requests_t) :
  0 < window_seconds ->
  (current_time <= clean_time)%Q ->
  fst (check_rate_limit current_time clean_time identifier max_requests
         window_seconds requests) = (false, Some retry_after) ->
  0 < retry_after.
Proof.
  intros Hw Hclock R. rewrite check_rate_limit_result in R.
  pose proof (kept_after_cutoff clean_time window_seconds
                (entries_of requests identifier)) as K.
  destruct (max_requests <=? _); [|done].
  destruct (kept clean_time window_seconds _) as [|e rest]; injection R as <-.
  - done.
  - pose proof (min_timestamp_after_cutoff _ _ _ K) as C.
    assert (0 <= py_int (inject_Z window_seconds
                         - (current_time - min_timestamp (fst e) rest))%Q).
    { apply py_int_nonneg. lra. }
    lia.
Qed.

(** [check_rate_limit_or_raise] raises exactly on a denial, with the
    [retry_after] of the denial, and leaves the state of the check. *)
Lemma check_rate_limit_or_raise_spec (current_time clean_time : Q)
    (identifier : string) (max_requests window_seconds : Z)
    (requests : requests_t) :
  let checked := check_rate_limit current_time clean_time identifier
                   max_requests window_seconds requests in
  snd (check_rate_limit_or_raise current_time clean_time identifier
         max_requests window_seconds requests) = snd checked
  /\ ((fst checked = (true, None)
       /\ fst (check_rate_limit_or_raise current_time clean_time identifier
                 max_requests window_seconds requests) = Return tt)
      \/ exists retry_after,
          fst checked = (false, Some retry_after)
          /\ fst (check_rate_limit_or_raise current_time clean_time identifier
                    max_requests window_seconds requests)
             = Raise (make_RateLimitError
                        ("Rate limit exceeded. Try again in "
                         ++ py_str_int retry_after ++ " seconds.")
                        (Some retry_after))).
Proof.
  simpl. unfold check_rate_limit_or_raise.
  destruct (check_rate_limit_verdict current_time clean_time identifier
              max_requests window_seconds requests) as [V | [r V]];
    destruct (check_rate_limit _ _ _ _ _ _) as [[allowed retry] requests'];
    simpl in *; injection V as -> ->; simpl; eauto.
Qed.

Lemma tier_keys_differ (a b c : string) :
  ("minute:" ++ a)%string <> ("hour:" ++ b)%string
  /\ ("minute:" ++ a)%string <> ("day:" ++ c)%string
  /\ ("hour:" ++ b)%string <> ("day:" ++ c)%string.
Proof. repeat split; discriminate. Qed.

End Tiers.


(** ** Threads sharing the limiter *)
Section Threads.

Import RateLimiter Concurrent.

Lemma clean_section_entries (cutoff_time : Q) (identifier other : string)
    (requests : requests_t) :
  entries_of (clean_section cutoff_time identifier requests) other
  = if decide (other = identifier)
    then filter (fun e => Qlt_bool cutoff_time (fst e)) (entries_of requests identifier)
    else entries_of requests other.
Proof.
  unfold clean_section, entries_of.
  destruct (requests !! identifier) as [entries|] eqn:E; simpl.
  - destruct (filter _ entries) as [|e rest] eqn:F; case_decide as D;
      subst; simplify_map_eq; done.
  - case_decide as D; subst; simplify_map_eq; done.
Qed.

Lemma check_section_entries (current_time : Q) (identifier other : string)
    (max_requests window_seconds : Z) (requests : requests_t) :
  entries_of (snd (check_section current_time identifier max_requests
                     window_seconds requests)) other
  = if decide (other = identifier)
    then if max_requests <=? sum_counts (entries_of requests identifier)
         then entries_of requests identifier
         else entries_of requests identifier ++ [(current_time, 1)]
    else entries_of requests other.
Proof.
  unfold check_section, getitem, entries_of.
  destruct (requests !! identifier) as [entries|] eqn:E; simpl.
  - destruct (max_requests <=? sum_counts entries).
    + destruct entries; simpl; case_decide; subst; simplify_map_eq; done.
    + simpl. case_decide; subst; simplify_map_eq; done.
  - destruct (max_requests <=? sum_counts []); simpl;
      case_decide; subst; simplify_map_eq; done.
Qed.

(** A property of the trace so far and the state that every action of the
    scheduler keeps holds after every schedule. *)
Lemma run_keeps (I : list Event -> Limiter -> Prop) :
  (forall a pre s, I pre s -> I (pre ++ fst (act a s)) (snd (act a s))) ->
  forall schedule pre s,
    I pre s -> I (pre ++ fst (run schedule s)) (snd (run schedule s)).
Proof.
  intros Hact. induction schedule as [|a schedule IH]; intros pre s H; simpl.
  - by rewrite app_nil_r.
  - specialize (Hact a pre s H).
    destruct (act a s) as [evs s1]. simpl in Hact.
    specialize (IH (pre ++ evs) s1 Hact).
    destruct (run schedule s1) as [evs' s2]. simpl in *.
    by rewrite app_assoc.
Qed.

(** What a step of a thread does to the list of threads and to the events
    of each thread. *)
Lemma thread_step_threads (tid : nat) (s s' : Limiter) (ev : Event) :
  thread_step tid s = Some (ev, s') ->
  exists th next,
    threads s !! tid = Some th
    /\ threads s' = <[tid := {| call := call th; pc := next |}]> (threads s)
    /\ event_thread ev = tid
    /\ events_until tid next = events_until tid (pc th) ++ [ev]
    /\ (holds_lock next = true -> _lock s = None /\ _lock s' = Some tid)
    /\ (holds_lock next = false ->
        (holds_lock (pc th) = true /\ _lock s' = None)
        \/ (holds_lock (pc th) = false /\ _lock s' = _lock s)).
Proof.
  unfold thread_step. intros H.
  destruct (threads s !! tid) as [th|] eqn:T; [|done].
  exists th.
  destruct (pc th) as [|ct|ct co|ct co|ct|ct|r] eqn:P.
  - injection H as <- <-. eexists. simpl. repeat split; try done. by right.
  - injection H as <- <-. eexists. simpl. repeat split; try done. by right.
  - destruct (_lock s) eqn:L; [done|]. injection H as <- <-. eexists. simpl.
    repeat split; try done.
  - injection H as <- <-. eexists. simpl. repeat split; try done. by left.
  - destruct (_lock s) eqn:L; [done|]. injection H as <- <-. eexists. simpl.
    repeat split; try done.
  - destruct (check_section _ _ _ _ _) as [result requests'].
    injection H as <- <-. eexists. simpl. repeat split; try done. by left.
  - done.
Qed.

Lemma events_of_app (tid : nat) (l k : list Event) :
  events_of tid (l ++ k) = events_of tid l ++ events_of tid k.
Proof. unfold events_of. apply List.filter_app. Qed.

Lemma act_events_follow (a : Action) (pre : list Event) (s : Limiter) :
  events_follow pre s -> events_follow (pre ++ fst (act a s)) (snd (act a s)).
Proof.
  intros I. destruct a as [t|dt]; simpl.
  - destruct (thread_step t s) as [[ev s']|] eqn:S; simpl.
    2:{ by rewrite app_nil_r. }
    destruct (thread_step_threads _ _ _ _ S) as (th & next & T & T' & E & U & _).
    intros tid th' Hth'. rewrite T' in Hth'. rewrite events_of_app.
    destruct (decide (tid = t)) as [->|Hne].
    + rewrite list_lookup_insert_eq in Hth' by (by eapply lookup_lt_Some).
      injection Hth' as <-. simpl. rewrite U, (I t th T).
      f_equal. unfold events_of. simpl. rewrite E, Nat.eqb_refl. done.
    + rewrite list_lookup_insert_ne in Hth' by done.
      rewrite (I tid th' Hth'). unfold events_of. simpl. rewrite E.
      destruct (Nat.eqb_spec t tid); [congruence|]. by rewrite app_nil_r.
  - rewrite app_nil_r. destruct (Qle_bool 0 dt); exact I.
Qed.

Lemma act_lock_held (a : Action) (s : Limiter) :
  lock_held_by_holder s -> lock_held_by_holder (snd (act a s)).
Proof.
  intros I. destruct a as [t|dt]; simpl.
  - destruct (thread_step t s) as [[ev s']|] eqn:S; simpl; [|done].
    destruct (thread_step_threads _ _ _ _ S)
      as (th & next & T & T' & _ & _ & Hin & Hout).
    intros tid th' Hth' Hheld. rewrite T' in Hth'.
    destruct (decide (tid = t)) as [->|Hne].
    + rewrite list_lookup_insert_eq in Hth' by (by eapply lookup_lt_Some).
      injection Hth' as <-. simpl in Hheld. by destruct (Hin Hheld).
    + rewrite list_lookup_insert_ne in Hth' by done.
      pose proof (I tid th' Hth' Hheld) as L.
      destruct (holds_lock next) eqn:N.
      * destruct (Hin eq_refl) as [L0 _]. congruence.
      * destruct (Hout eq_refl) as [[Hheld_t _]|[_ ->]]; [|done].
        pose proof (I t th T Hheld_t). congruence.
  - destruct (Qle_bool 0 dt); exact I.
Qed.

Variable limit : string -> Z.

Lemma act_quota_holds (a : Action) (s : Limiter) :
  quota_holds limit s -> quota_holds limit (snd (act a s)).
Proof.
  intros [Hq C]. destruct a as [t|dt]; simpl.
  2:{ destruct (Qle_bool 0 dt); done. }
  destruct (thread_step t s) as [[ev s']|] eqn:S; simpl; [|done].
  assert (C' : forall tid th,
             threads s' !! tid = Some th ->
             max_requests (call th) = limit (identifier (call th))).
  { destruct (thread_step_threads _ _ _ _ S) as (th & next & T & T' & _).
    intros tid th' Hth'. rewrite T' in Hth'.
    destruct (decide (tid = t)) as [->|Hne].
    - rewrite list_lookup_insert_eq in Hth' by (by eapply lookup_lt_Some).
      injection Hth' as <-. simpl. by apply (C t).
    - rewrite list_lookup_insert_ne in Hth' by done. by apply (C tid). }
  split; [|exact C'].
  unfold thread_step in S.
  destruct (threads s !! t) as [th|] eqn:T; [|done].
  pose proof (C t th T) as Cth.
  destruct (pc th) as [|ct|ct co|ct co|ct|ct|r] eqn:P.
  - by injection S as <- <-.
  - by injection S as <- <-.
  - destruct (_lock s); [done|]. by injection S as <- <-.
  - injection S as <- <-. simpl. intros id.
    rewrite clean_section_entries. case_decide as D; [subst id|apply Hq].
    destruct (Hq (identifier (call th))) as [Q1 Q2]. split.
    + apply Forall_forall. intros e He. apply list_elem_of_filter in He.
      rewrite Forall_forall in Q1. apply Q1. tauto.
    + pose proof (length_filter
                    (fun e : Q * Z => Is_true (Qlt_bool co (fst e)))
                    (entries_of (_requests s) (identifier (call th)))). lia.
  - destruct (_lock s); [done|]. by injection S as <- <-.
  - pose proof (check_section_entries ct (identifier (call th))) as E.
    specialize (fun other => E other (max_requests (call th))
                               (window_seconds (call th)) (_requests s)).
    destruct (check_section _ _ _ _ _) as [result requests'].
    injection S as <- <-. simpl in *. intros id. rewrite E.
    case_decide as D; [subst id|apply Hq].
    destruct (Hq (identifier (call th))) as [Q1 Q2].
    destruct (max_requests (call th) <=? _) eqn:M; [done|].
    apply Z.leb_gt in M. rewrite (sum_counts_ones _ Q1) in M. split.
    + apply Forall_app. split; [done|]. by constructor.
    + rewrite length_app. simpl. lia.
  - done.
Qed.

Lemma acquisitions_events_of (tid : nat) (trace : list Event) :
  acquisitions tid trace = acquisitions tid (events_of tid trace).
Proof.
  unfold acquisitions, events_of.
  induction trace as [|ev trace IH]; [done|]. simpl.
  destruct ev as [t|t|t]; simpl; destruct (Nat.eqb_spec t tid); simpl;
    try done; try (rewrite IH; done).
  - destruct (Nat.eqb_spec t tid); [|done]. simpl. by rewrite IH.
Qed.

Lemma start_lookup (requests : requests_t) (now : Q) (calls : list Call)
    (tid : nat) (th : Thread) :
  threads (start requests now calls) !! tid = Some th ->
  pc th = AtEntry /\ In (call th) calls.
Proof.
  unfold start. simpl. rewrite list_lookup_fmap.
  destruct (calls !! tid) as [c|] eqn:E; [|done]. simpl.
  intros [= <-]. split; [done|]. simpl.
  apply list_elem_of_In. by eapply list_elem_of_lookup_2.
Qed.

(** A thread that runs alone does what [check_rate_limit] does. *)
Lemma alone_is_check_rate_limit (requests : requests_t) (now : Q) (c : Call) :
  let s := snd (run [Run 0; Run 0; Run 0; Run 0; Run 0; Run 0]%nat
                  (start requests now [c])) in
  let checked := check_rate_limit now now (identifier c) (max_requests c)
                   (window_seconds c) requests in
  threads s = [{| call := c; pc := Returned (fst checked) |}]
  /\ _requests s = snd checked
  /\ _lock s = None.
Proof.
  cbn. unfold check_rate_limit, _clean_old_requests.
  destruct (check_section _ _ _ _ _) as [result requests']. cbn. done.
Qed.

End Threads.

(** C7, as the code has it.  A call of [check_rate_limit] takes the lock
    twice: once around the pruning in [_clean_old_requests], once around the
    summing and the conditional append.  Whatever the schedule of the
    threads, every thread's events are those of its two [with] blocks in
    order, a call that has returned has taken the lock exactly twice, no two
    threads are inside a [with] block at once, and, because the sum and the
    append stand in one block, callers that check an identifier against its
    limit never leave more than that limit of entries for it. *)
Theorem lock_protects_the_quota
    (limit : string -> Z) (requests : RateLimiter.requests_t) (now : Q)
    (calls : list Concurrent.Call) (schedule : list Concurrent.Action) :
  (forall id, RateLimiter.quota_kept (limit id) (RateLimiter.entries_of requests id)) ->
  Forall (fun c => Concurrent.max_requests c = limit (Concurrent.identifier c)) calls ->
  let '(trace, s) := Concurrent.run schedule (Concurrent.start requests now calls) in
  (forall tid th,
      Concurrent.threads s !! tid = Some th ->
      Concurrent.events_of tid trace = Concurrent.events_until tid (Concurrent.pc th))
  /\ (forall tid th result,
        Concurrent.threads s !! tid = Some th ->
        Concurrent.pc th = Concurrent.Returned result ->
        Concurrent.acquisitions tid trace = 2%nat)
  /\ (forall tid tid' th th',
        Concurrent.threads s !! tid = Some th ->
        Concurrent.threads s !! tid' = Some th' ->
        Concurrent.holds_lock (Concurrent.pc th) = true ->
        Concurrent.holds_lock (Concurrent.pc th') = true ->
        tid = tid')
  /\ (forall id,
        RateLimiter.quota_kept (limit id)
          (RateLimiter.entries_of (Concurrent._requests s) id)).
Proof.
  intros Hquota Hcalls.
  set (s0 := Concurrent.start requests now calls).
  pose proof (run_keeps
                (fun pre s => Concurrent.events_follow pre s
                              /\ Concurrent.lock_held_by_holder s
                              /\ Concurrent.quota_holds limit s)) as K.
  specialize (K (fun a pre s '(conj A (conj B C)) =>
                   conj (act_events_follow a pre s A)
                     (conj (act_lock_held a s B) (act_quota_holds limit a s C)))).
  specialize (K schedule [] s0). simpl in K.
  destruct (Concurrent.run schedule s0) as [trace s]. simpl in K.
  destruct K as (E & L & [Q _]).
  { split; [|split; [|split]].
    - intros tid th H. apply start_lookup in H as [-> _]. done.
    - intros tid th H Hheld. apply start_lookup in H as [P _].
      rewrite P in Hheld. done.
    - exact Hquota.
    - intros tid th H. apply start_lookup in H as [_ Hin].
      rewrite Forall_forall in Hcalls. apply Hcalls. by apply list_elem_of_In. }
  split; [exact E|]. split; [|split; [|exact Q]].
  - intros tid th result H P. rewrite acquisitions_events_of, (E tid th H), P.
    unfold Concurrent.acquisitions. simpl. rewrite Nat.eqb_refl. done.
  - intros tid tid' th th' H H' Hh Hh'.
    pose proof (L tid th H Hh). pose proof (L tid' th' H' Hh'). congruence.
Qed.

(** C7, as the claim states it: prune, sum and append under a single
    acquisition.  Two callers of one identifier, one request allowed per
    minute, the only recorded entry 100 seconds old: the first caller takes
    the lock twice, the second caller's whole call runs between the two, and
    the first caller is denied because of the entry the second one appended,
    where the same call on its own is allowed. *)
Lemma check_rate_limit_takes_the_lock_twice :
  Concurrent.acquisitions 0
    (fst (Concurrent.run Concurrent.interleaved Concurrent.two_callers)) <> 1%nat
  /\ Concurrent.events_of 0
       (fst (Concurrent.run Concurrent.interleaved Concurrent.two_callers))
     = [Concurrent.ReadClock 0; Concurrent.ReadClock 0;
        Concurrent.Acquire 0; Concurrent.Release 0;
        Concurrent.Acquire 0; Concurrent.Release 0]%nat
  /\ fst (Concurrent.run Concurrent.interleaved Concurrent.two_callers)
     = [Concurrent.ReadClock 0; Concurrent.ReadClock 0;
        Concurrent.Acquire 0; Concurrent.Release 0;
        Concurrent.ReadClock 1; Concurrent.ReadClock 1;
        Concurrent.Acquire 1; Concurrent.Release 1;
        Concurrent.Acquire 1; Concurrent.Release 1;
        Concurrent.Acquire 0; Concurrent.Release 0]%nat
  /\ map Concurrent.pc
       (Concurrent.threads
          (snd (Concurrent.run Concurrent.interleaved Concurrent.two_callers)))
     = [Concurrent.Returned (false, Some 61); Concurrent.Returned (true, None)]
  /\ fst (RateLimiter.check_rate_limit 100 100 "ip" 1 60
            (Concurrent._requests Concurrent.two_callers))
     = (true, None).
Proof. vm_compute. repeat split; try reflexivity. discriminate. Qed.

(** ** Passwords and login *)
Section Login.

Variable hashpw : string -> string -> string.
Variable checkpw : string -> string -> pyresult bool.
Variable jwt_encode : Security.claims_t -> string -> string -> option string.
Variable config : Config.

Lemma verify_password_cases (plain_password hashed_password : string) :
  (checkpw plain_password hashed_password
   = Return (Security.verify_password checkpw plain_password hashed_password))
  \/ (Security.verify_password checkpw plain_password hashed_password = false
      /\ exists e, checkpw plain_password hashed_password = Raise e).
Proof.
  unfold Security.verify_password.
  destruct (checkpw plain_password hashed_password) as [b|e]; eauto.
Qed.

(** What issuing an access token can end in. *)
Lemma create_access_token_cases (data : Security.claims_t)
    (expires_delta : option Z) (w : World) :
  let w' := {| db := db w; clock := fun n => clock w (S (S n));
               entropy := entropy w |} in
  (exists jwt,
      AuthService.create_access_token jwt_encode config data expires_delta w
      = (Return jwt, w'))
  \/ AuthService.create_access_token jwt_encode config data expires_delta w
     = (Raise (LibraryError "jwt.encode"), w').
Proof.
  unfold AuthService.create_access_token, Security.create_access_token,
    bind, datetime_now, lift. simpl.
  destruct (jwt_encode _ _ _); eauto.
Qed.

(** What storing a refresh token can end in. *)
Lemma create_refresh_token_cases (uid : Z) (tok : string) (expires_days : Z)
    (agent address : option string) (w : World) :
  (exists row w',
      AuthRepository.create_refresh_token config uid tok expires_days agent
        address w = (Return row, w'))
  \/ exists w',
      AuthRepository.create_refresh_token config uid tok expires_days agent
        address w = (Raise (IntegrityError "refresh_tokens.token"), w').
Proof.
  unfold AuthRepository.create_refresh_token, bind, datetime_now, get_database,
    put_database, raise, ret. simpl.
  destruct (existsb _ _); eauto.
Qed.

Variable login_data : UserLogin.
Variables user_agent ip_address : option string.
Variable w : World.

Let found :=
  AuthRepository.find_username (login_username login_data) (users (db w)).

Lemma login_user_unknown :
  found = None ->
  AuthService.login_user checkpw jwt_encode config login_data user_agent
    ip_address w
  = (Raise (ValueError "Invalid username or password"), w).
Proof.
  unfold found, AuthService.login_user, AuthRepository.get_user_by_username,
    bind, get_database, ret, raise. simpl. by intros ->.
Qed.

Lemma login_user_wrong_password (user : User.t) :
  found = Some user ->
  Security.verify_password checkpw (login_password login_data)
    (User.hashed_password user) = false ->
  AuthService.login_user checkpw jwt_encode config login_data user_agent
    ip_address w
  = (Raise (ValueError "Invalid username or password"), w).
Proof.
  unfold found, AuthService.login_user, AuthRepository.get_user_by_username,
    bind, get_database, ret, raise. simpl. by intros -> ->.
Qed.

Lemma login_user_inactive (user : User.t) :
  found = Some user ->
  Security.verify_password checkpw (login_password login_data)
    (User.hashed_password user) = true ->
  User.is_active user = false ->
  AuthService.login_user checkpw jwt_encode config login_data user_agent
    ip_address w
  = (Raise (ValueError "Account is inactive"), w).
Proof.
  unfold found, AuthService.login_user, AuthRepository.get_user_by_username,
    bind, get_database, ret, raise. simpl. by intros -> -> ->.
Qed.

(** Past the three checks, a login fails only inside a library or on the
    unique token column. *)
Lemma login_user_active (user : User.t) :
  found = Some user ->
  Security.verify_password checkpw (login_password login_data)
    (User.hashed_password user) = true ->
  User.is_active user = true ->
  forall msg,
    fst (AuthService.login_user checkpw jwt_encode config login_data user_agent
           ip_address w) <> Raise (ValueError msg).
Proof.
  unfold found, AuthService.login_user, AuthRepository.get_user_by_username.
  unfold bind at 1. unfold get_database, ret. simpl. intros -> -> -> msg. simpl.
  unfold bind at 1.
  destruct (create_access_token_cases (AuthService.token_data user) None w)
    as [[jwt ->] | ->]; [|done].
  unfold bind at 1. unfold generate_refresh_token, draw_entropy at 1. simpl.
  unfold bind at 1.
  match goal with
  | |- context [AuthRepository.create_refresh_token ?c ?u ?t ?d ?a ?i ?w] =>
      destruct (create_refresh_token_cases u t d a i w) as [(row & w' & ->) | (w' & ->)]
  end; done.
Qed.

End Login.

(** C6.  A login for a username that does not exist and a login with a wrong
    password end in the same [ValueError("Invalid username or password")],
    which the endpoint answers with the same 401 and detail, and leave the
    world as it was; [ValueError("Account is inactive")] is raised exactly
    when the user exists, the password verifies and [is_active] is false. *)
Theorem login_failures_share_one_error
    (checkpw : string -> string -> pyresult bool)
    (jwt_encode : Security.claims_t -> string -> string -> option string)
    (config : Config) (login_data : UserLogin)
    (user_agent ip_address : option string) (w : World) :
  let found :=
    AuthRepository.find_username (login_username login_data) (users (db w)) in
  let outcome :=
    AuthService.login_user checkpw jwt_encode config login_data user_agent
      ip_address w in
  let reply :=
    Api.login checkpw jwt_encode config login_data user_agent ip_address w in
  (found = None ->
   outcome = (Raise (ValueError "Invalid username or password"), w)
   /\ reply = (Raise (HTTPException 401 "Invalid username or password"), w))
  /\ (forall user,
        found = Some user ->
        Security.verify_password checkpw (login_password login_data)
          (User.hashed_password user) = false ->
        outcome = (Raise (ValueError "Invalid username or password"), w)
        /\ reply = (Raise (HTTPException 401 "Invalid username or password"), w))
  /\ (fst outcome = Raise (ValueError "Account is inactive") <->
      exists user,
        found = Some user
        /\ Security.verify_password checkpw (login_password login_data)
             (User.hashed_password user) = true
        /\ User.is_active user = false).
Proof.
  intros found outcome reply. subst reply. unfold Api.login, Api.http_errors.
  fold outcome. split; [|split].
  - intros H. subst outcome found.
    rewrite (login_user_unknown checkpw jwt_encode config _ _ _ _ H). done.
  - intros user H V. subst outcome found.
    rewrite (login_user_wrong_password checkpw jwt_encode config _ _ _ _ user H V).
    done.
  - subst outcome. split.
    + intros R. destruct found as [user|] eqn:F.
      2:{ subst found.
          rewrite (login_user_unknown checkpw jwt_encode config _ _ _ _ F) in R.
          done. }
      exists user. subst found.
      destruct (Security.verify_password checkpw (login_password login_data)
                  (User.hashed_password user)) eqn:V.
      2:{ rewrite (login_user_wrong_password checkpw jwt_encode config
                     _ _ _ _ user F V) in R. done. }
      destruct (User.is_active user) eqn:A; [|done].
      exfalso.
      exact (login_user_active checkpw jwt_encode config _ _ _ _ user F V A _ R).
    + intros (user & F & V & A). subst found.
      by rewrite (login_user_inactive checkpw jwt_encode config _ _ _ _ user F V A).
Qed.

(** C10.  [verify_password] returns a [bool] whatever [bcrypt.checkpw] does:
    the value [checkpw] returned, or [False] when it raised.  A login against
    a stored hash on which [checkpw] raises therefore ends in the
    [ValueError("Invalid username or password")] of a wrong password, a 401
    at the endpoint and not a 500. *)
Theorem verify_password_is_total
    (checkpw : string -> string -> pyresult bool)
    (jwt_encode : Security.claims_t -> string -> string -> option string)
    (config : Config) (plain_password hashed_password : string)
    (login_data : UserLogin) (user_agent ip_address : option string)
    (w : World) (user : User.t) (e : PyException) :
  AuthRepository.find_username (login_username login_data) (users (db w))
  = Some user ->
  checkpw (login_password login_data) (User.hashed_password user) = Raise e ->
  (checkpw plain_password hashed_password
   = Return (Security.verify_password checkpw plain_password hashed_password)
   \/ (Security.verify_password checkpw plain_password hashed_password = false
       /\ exists e', checkpw plain_password hashed_password = Raise e'))
  /\ AuthService.login_user checkpw jwt_encode config login_data user_agent
       ip_address w
     = (Raise (ValueError "Invalid username or password"), w)
  /\ Api.login checkpw jwt_encode config login_data user_agent ip_address w
     = (Raise (HTTPException 401 "Invalid username or password"), w).
Proof.
  intros F C. split; [apply verify_password_cases|].
  assert (V : Security.verify_password checkpw (login_password login_data)
                (User.hashed_password user) = false).
  { unfold Security.verify_password. by rewrite C. }
  pose proof (login_user_wrong_password checkpw jwt_encode config login_data
                user_agent ip_address w user F V) as L.
  split; [exact L|]. unfold Api.login, Api.http_errors. by rewrite L.
Qed.

(** ** Refresh tokens in the table *)
Section Tokens.

Import AuthRepository.

Lemma find_token_map (f : RefreshToken.t -> RefreshToken.t) (tok : string)
    (rows : list RefreshToken.t) :
  keeps_tokens f ->
  find_token tok (map f rows) = f <$> find_token tok rows.
Proof.
  intros Hf. unfold find_token.
  induction rows as [|r rows IH]; [done|]. simpl.
  destruct (Hf r) as [-> _].
  destruct (String.eqb (RefreshToken.token r) tok); [done|exact IH].
Qed.

Lemma find_token_app (tok : string) (rows more : list RefreshToken.t) :
  find_token tok (rows ++ more)
  = match find_token tok rows with
    | Some r => Some r
    | None => find_token tok more
    end.
Proof.
  unfold find_token. induction rows as [|r rows IH]; [done|]. simpl.
  destruct (String.eqb (RefreshToken.token r) tok); [done|exact IH].
Qed.

Lemma find_token_Some (tok : string) (rows : list RefreshToken.t)
    (r : RefreshToken.t) :
  find_token tok rows = Some r -> RefreshToken.token r = tok /\ In r rows.
Proof.
  unfold find_token. intros H. apply find_some in H as [H1 H2].
  split; [|done]. by apply String.eqb_eq.
Qed.

Lemma find_token_existsb (tok : string) (rows : list RefreshToken.t) :
  existsb (fun r => String.eqb (RefreshToken.token r) tok) rows = false ->
  find_token tok rows = None.
Proof.
  unfold find_token. induction rows as [|r rows IH]; [done|]. simpl.
  destruct (String.eqb (RefreshToken.token r) tok); [done|exact IH].
Qed.

Lemma revoke_if_keeps_tokens (cond : RefreshToken.t -> bool) :
  keeps_tokens (fun r => if cond r then RefreshToken.revoke r else r).
Proof. intros r. destruct (cond r); done. Qed.

Lemma find_token_revoke_token (tok : string) (rows : list RefreshToken.t) :
  find_token tok (revoke_token tok rows)
  = RefreshToken.revoke <$> find_token tok rows.
Proof.
  unfold revoke_token. rewrite find_token_map by apply revoke_if_keeps_tokens.
  destruct (find_token tok rows) as [r|] eqn:F; [|done]. simpl.
  apply find_token_Some in F as [F _]. by rewrite F, String.eqb_refl.
Qed.

End Tokens.

(** C5.  [logout_user] raises [ValueError("Invalid refresh token")] when the
    token is not in the table and when it belongs to another user, and
    returns [True] without touching the table when the token is the caller's
    and already revoked.  For a token of the caller, two calls in a row both
    return [True], the token is revoked after the first, and the second
    changes nothing. *)
Theorem logout_is_idempotent (refresh : string) (user_id : Z) (w : World) :
  let found := AuthRepository.find_token refresh (refresh_tokens (db w)) in
  let first := AuthService.logout_user refresh user_id w in
  let second := AuthService.logout_user refresh user_id (snd first) in
  (found = None ->
   first = (Raise (ValueError "Invalid refresh token"), w))
  /\ (forall r,
        found = Some r -> RefreshToken.user_id r <> user_id ->
        first = (Raise (ValueError "Invalid refresh token"), w))
  /\ (forall r,
        found = Some r -> RefreshToken.user_id r = user_id ->
        RefreshToken.is_revoked r = true ->
        first = (Return true, w))
  /\ (forall r,
        found = Some r -> RefreshToken.user_id r = user_id ->
        fst first = Return true
        /\ AuthRepository.find_token refresh (refresh_tokens (db (snd first)))
           = Some (RefreshToken.revoke r)
        /\ second = (Return true, snd first)).
Proof.
  intros found first second.
  assert (Hrevoked : forall w0 r0,
            AuthRepository.find_token refresh (refresh_tokens (db w0)) = Some r0 ->
            RefreshToken.user_id r0 = user_id ->
            RefreshToken.is_revoked r0 = true ->
            AuthService.logout_user refresh user_id w0 = (Return true, w0)).
  { intros w0 r0 F U R.
    unfold AuthService.logout_user, AuthRepository.get_refresh_token, bind,
      get_database, ret, raise. simpl. rewrite F, U, R, Z.eqb_refl. done. }
  split; [|split; [|split]].
  - subst first found. intros F.
    unfold AuthService.logout_user, AuthRepository.get_refresh_token, bind,
      get_database, ret, raise. simpl. by rewrite F.
  - subst first found. intros r F U.
    unfold AuthService.logout_user, AuthRepository.get_refresh_token, bind,
      get_database, ret, raise. simpl. rewrite F.
    destruct (Z.eqb_spec (RefreshToken.user_id r) user_id); done.
  - subst first found. intros r F U R. by apply (Hrevoked w r).
  - subst found. intros r F U.
    destruct (RefreshToken.is_revoked r) eqn:R.
    + subst second first. rewrite (Hrevoked w r F U R). simpl.
      rewrite (Hrevoked w r F U R). split; [done|]. split; [|done].
      rewrite F. f_equal. destruct r; simpl in *. by subst.
    + assert (E : first
                  = (Return true,
                     {| db := {| users := users (db w);
                                 refresh_tokens :=
                                   AuthRepository.revoke_token refresh
                                     (refresh_tokens (db w)) |};
                        clock := clock w; entropy := entropy w |})).
      { subst first.
        unfold AuthService.logout_user, AuthRepository.get_refresh_token,
          AuthRepository.revoke_refresh_token, bind, get_database, put_database,
          ret, raise. simpl. rewrite F, U, R, Z.eqb_refl. done. }
      subst second. rewrite E. simpl.
      assert (F' : AuthRepository.find_token refresh
                     (AuthRepository.revoke_token refresh (refresh_tokens (db w)))
                   = Some (RefreshToken.revoke r)).
      { by rewrite find_token_revoke_token, F. }
      split; [done|]. split; [done|].
      apply (Hrevoked _ (RefreshToken.revoke r)); done.
Qed.

(** ** What every request keeps *)

Section Relates.

Context (R : World -> World -> Prop) `{!PreOrder R}.

Lemma relates_ret {A : Type} (a : A) : relates R (ret a).
Proof. intros w. simpl. reflexivity. Qed.

Lemma relates_raise {A : Type} (e : PyException) : relates R (@raise A e).
Proof. intros w. simpl. reflexivity. Qed.

Lemma relates_lift {A : Type} (r : pyresult A) : relates R (lift r).
Proof. intros w. simpl. reflexivity. Qed.

Lemma relates_get_database : relates R get_database.
Proof. intros w. simpl. reflexivity. Qed.

Lemma relates_bind {A B : Type} (m : M A) (k : A -> M B) :
  relates R m -> (forall a, relates R (k a)) -> relates R (bind m k).
Proof.
  intros Hm Hk w. unfold bind. specialize (Hm w).
  destruct (m w) as [[a|e] w1]; simpl in *; [|done].
  etransitivity; [exact Hm|apply Hk].
Qed.

Lemma relates_http_errors {A : Type} (status_code : Z) (failure : string)
    (m : M A) :
  relates R m -> relates R (Api.http_errors status_code failure m).
Proof.
  intros Hm w. unfold Api.http_errors. specialize (Hm w).
  destruct (m w) as [[a|[]] w1]; done.
Qed.

End Relates.

Ltac preorder_goal :=
  match goal with
  | |- PreOrder _ => first [assumption | typeclasses eauto]
  end.

Ltac relates_step :=
  match goal with
  | |- relates _ (bind _ _) => apply relates_bind; [preorder_goal| |intros ?]
  | |- relates _ (ret _) => apply relates_ret; preorder_goal
  | |- relates _ (raise _) => apply relates_raise; preorder_goal
  | |- relates _ (lift _) => apply relates_lift; preorder_goal
  | |- relates _ get_database => apply relates_get_database; preorder_goal
  | |- relates _ (Api.http_errors _ _ _) => apply relates_http_errors
  | |- relates _ (match ?x with _ => _ end) => destruct x
  | |- relates _ _ => solve [auto]
  end.

Section Requests.

Context (R : World -> World -> Prop) `{!PreOrder R}.

Variable hashpw : string -> string -> string.
Variable checkpw : string -> string -> pyresult bool.
Variable jwt_encode : Security.claims_t -> string -> string -> option string.
Variable config : Config.

Hypothesis R_clock : relates R datetime_now.
Hypothesis R_entropy : relates R draw_entropy.
Hypothesis R_create_user :
  forall name addr hashed, relates R (AuthRepository.create_user name addr hashed).
Hypothesis R_update_user :
  forall uid name addr, relates R (AuthRepository.update_user uid name addr).
Hypothesis R_deactivate_user :
  forall uid, relates R (AuthRepository.deactivate_user uid).
Hypothesis R_revoke :
  forall tok, relates R (AuthRepository.revoke_refresh_token tok).
Hypothesis R_create_token :
  forall uid tok days agent address,
    relates R (AuthRepository.create_refresh_token config uid tok days agent address).
Hypothesis R_rollback :
  forall w w',
    R w w' -> R w {| db := db w; clock := clock w'; entropy := entropy w' |}.

Lemma relates_create_access_token (data : Security.claims_t)
    (expires_delta : option Z) :
  relates R (AuthService.create_access_token jwt_encode config data expires_delta).
Proof. unfold AuthService.create_access_token. repeat relates_step. Qed.

Lemma relates_register_user (user_data : UserRegister)
    (user_agent ip_address : option string) :
  relates R (AuthService.register_user hashpw jwt_encode config user_data
               user_agent ip_address).
Proof.
  pose proof relates_create_access_token.
  unfold AuthService.register_user, AuthRepository.get_user_by_username,
    AuthRepository.get_user_by_email, generate_refresh_token.
  repeat relates_step.
Qed.

Lemma relates_login_user (login_data : UserLogin)
    (user_agent ip_address : option string) :
  relates R (AuthService.login_user checkpw jwt_encode config login_data
               user_agent ip_address).
Proof.
  pose proof relates_create_access_token.
  unfold AuthService.login_user, AuthRepository.get_user_by_username,
    generate_refresh_token.
  repeat relates_step.
Qed.

Lemma relates_refresh_access_token (refresh : string)
    (user_agent ip_address : option string) (rotate : bool) :
  relates R (AuthService.refresh_access_token jwt_encode config refresh
               user_agent ip_address rotate).
Proof.
  pose proof relates_create_access_token.
  unfold AuthService.refresh_access_token, AuthRepository.get_refresh_token,
    AuthRepository.get_user_by_id, generate_refresh_token.
  repeat relates_step.
Qed.

Lemma relates_logout_user (refresh : string) (user_id : Z) :
  relates R (AuthService.logout_user refresh user_id).
Proof.
  unfold AuthService.logout_user, AuthRepository.get_refresh_token.
  repeat relates_step.
Qed.

Lemma relates_update_user_profile (user_id : Z)
    (update_data : UpdateUserRequest) :
  relates R (UserService.update_user_profile user_id update_data).
Proof.
  unfold UserService.update_user_profile, AuthRepository.get_user_by_username,
    AuthRepository.get_user_by_email.
  repeat relates_step.
Qed.

Lemma relates_delete_user_account (user_id : Z) :
  relates R (UserService.delete_user_account user_id).
Proof. unfold UserService.delete_user_account. repeat relates_step. Qed.

Lemma relates_get_db {A : Type} (m : M A) :
  relates R m -> relates R (Api.get_db m).
Proof.
  intros Hm w. unfold Api.get_db. specialize (Hm w).
  destruct (m w) as [[a|e] w1]; simpl in *; [done|]. by apply R_rollback.
Qed.

Lemma relates_serve (request : Api.Request) :
  relates R (Api.serve hashpw checkpw jwt_encode config request).
Proof.
  pose proof relates_register_user. pose proof relates_login_user.
  pose proof relates_refresh_access_token. pose proof relates_logout_user.
  pose proof relates_update_user_profile.
  pose proof relates_delete_user_account.
  unfold Api.serve. apply relates_get_db.
  destruct request; unfold Api.register, Api.login, Api.refresh_token_endpoint,
    Api.logout, Api.update_current_user_profile,
    Api.delete_current_user_account; repeat relates_step.
Qed.

Lemma relates_serve_all (requests : list Api.Request) (w : World) :
  R w (Api.serve_all hashpw checkpw jwt_encode config requests w).
Proof.
  revert w. induction requests as [|request requests IH]; intros w; simpl.
  - reflexivity.
  - etransitivity; [apply relates_serve|apply IH].
Qed.

End Requests.

(** ** Rotation *)
Section Rotation.

Import AuthRepository.

Variable config : Config.

#[local] Instance stays_revoked_preorder (tok : string) :
  PreOrder (stays_revoked tok).
Proof. split; [intros w H; exact H | intros a b c H1 H2 H; auto]. Qed.

Lemma revoked_in_map (f : RefreshToken.t -> RefreshToken.t) (tok : string)
    (us us' : list User.t) (rows : list RefreshToken.t) :
  keeps_tokens f ->
  revoked_in tok {| users := us; refresh_tokens := rows |} ->
  revoked_in tok {| users := us'; refresh_tokens := map f rows |}.
Proof.
  intros Hf (r & F & V). exists (f r). simpl in *.
  rewrite find_token_map, F by done. split; [done|]. by apply Hf.
Qed.

Lemma revoked_in_app (tok : string) (us us' : list User.t)
    (rows more : list RefreshToken.t) :
  revoked_in tok {| users := us; refresh_tokens := rows |} ->
  revoked_in tok {| users := us'; refresh_tokens := rows ++ more |}.
Proof.
  intros (r & F & V). exists r. simpl in *. by rewrite find_token_app, F.
Qed.

Lemma enforce_session_limit_map (now uid : Z) (rows : list RefreshToken.t) :
  exists f, keeps_tokens f /\ enforce_session_limit config now uid rows = map f rows.
Proof.
  unfold enforce_session_limit.
  destruct (_ <=? _).
  - destruct (oldest _) as [r|].
    + eexists. split; [|reflexivity]. apply revoke_if_keeps_tokens.
    + exists (fun r => r). split; [done|]. by rewrite map_id.
  - exists (fun r => r). split; [done|]. by rewrite map_id.
Qed.

Lemma stays_revoked_datetime_now (tok : string) :
  relates (stays_revoked tok) datetime_now.
Proof. intros w H. exact H. Qed.

Lemma stays_revoked_draw_entropy (tok : string) :
  relates (stays_revoked tok) draw_entropy.
Proof. intros w H. exact H. Qed.

Lemma stays_revoked_create_user (tok name addr hashed : string) :
  relates (stays_revoked tok) (create_user name addr hashed).
Proof.
  intros w H. unfold create_user, bind, datetime_now, get_database,
    put_database, raise, ret. simpl.
  destruct (existsb _ _); simpl; destruct H as (r & F & V); exists r; done.
Qed.

Lemma stays_revoked_update_user (tok : string) (uid : Z)
    (name addr : option string) :
  relates (stays_revoked tok) (update_user uid name addr).
Proof.
  intros w H. unfold update_user, bind, datetime_now, get_database,
    put_database, raise, ret. simpl.
  destruct (find_user uid (users (db w))); simpl; [|exact H].
  destruct (existsb _ _); simpl; destruct H as (r & F & V); exists r; done.
Qed.

Lemma stays_revoked_deactivate_user (tok : string) (uid : Z) :
  relates (stays_revoked tok) (deactivate_user uid).
Proof.
  intros w H. unfold deactivate_user, bind, get_database, put_database, ret.
  simpl. destruct (existsb _ _); simpl; destruct H as (r & F & V); exists r; done.
Qed.

Lemma stays_revoked_revoke (tok tok' : string) :
  relates (stays_revoked tok) (revoke_refresh_token tok').
Proof.
  intros w H. unfold revoke_refresh_token, bind, get_database, put_database.
  simpl. destruct (db w) as [us rows].
  apply (revoked_in_map _ tok us us); [apply revoke_if_keeps_tokens|exact H].
Qed.

Lemma stays_revoked_create_refresh_token (tok : string) (uid : Z)
    (tok' : string) (days : Z) (agent address : option string) :
  relates (stays_revoked tok)
    (create_refresh_token config uid tok' days agent address).
Proof.
  intros w H. unfold create_refresh_token, bind, datetime_now, get_database,
    put_database, raise, ret. simpl.
  destruct (existsb _ _); simpl; [exact H|].
  destruct (db w) as [us rows]. simpl.
  destruct (enforce_session_limit_map (clock w 0%nat) uid rows) as (f & Hf & ->).
  apply (revoked_in_app tok us us). by apply (revoked_in_map f tok us us rows).
Qed.

Lemma stays_revoked_rollback (tok : string) (w w' : World) :
  stays_revoked tok w w' ->
  stays_revoked tok w {| db := db w; clock := clock w'; entropy := entropy w' |}.
Proof. intros _ H. exact H. Qed.

(** A revoked token stays revoked through every sequence of requests. *)
Lemma serve_all_stays_revoked
    (hashpw : string -> string -> string)
    (checkpw : string -> string -> pyresult bool)
    (jwt_encode : Security.claims_t -> string -> string -> option string)
    (tok : string) (requests : list Api.Request) (w : World) :
  revoked_in tok (db w) ->
  revoked_in tok (db (Api.serve_all hashpw checkpw jwt_encode config requests w)).
Proof.
  apply (relates_serve_all (stays_revoked tok) hashpw checkpw jwt_encode config).
  - apply stays_revoked_datetime_now.
  - apply stays_revoked_draw_entropy.
  - intros. apply stays_revoked_create_user.
  - intros. apply stays_revoked_update_user.
  - intros. apply stays_revoked_deactivate_user.
  - intros. apply stays_revoked_revoke.
  - intros. apply stays_revoked_create_refresh_token.
  - apply stays_revoked_rollback.
Qed.

(** Presenting a revoked token. *)
Lemma refresh_revoked
    (jwt_encode : Security.claims_t -> string -> string -> option string)
    (refresh : string) (user_agent ip_address : option string) (rotate : bool)
    (w : World) :
  revoked_in refresh (db w) ->
  AuthService.refresh_access_token jwt_encode config refresh user_agent
    ip_address rotate w
  = (Raise (ValueError "Refresh token has been revoked"), w).
Proof.
  intros (r & F & V).
  unfold AuthService.refresh_access_token, get_refresh_token, bind,
    get_database, ret, raise. simpl. by rewrite F, V.
Qed.

End Rotation.

Lemma find_user_id (uid : Z) (rows : list User.t) (user : User.t) :
  AuthRepository.find_user uid rows = Some user -> User.id user = uid.
Proof.
  unfold AuthRepository.find_user. intros H. apply find_some in H as [_ H].
  by apply Z.eqb_eq.
Qed.

Section RotationSuccess.

Import AuthRepository.

Variable config : Config.
Variable jwt_encode : Security.claims_t -> string -> string -> option string.

(** The table after a refresh that rotated. *)
Lemma refresh_rotated (refresh : string) (user_agent ip_address : option string)
    (w w' : World) (tokens : TokenResponse) :
  AuthService.refresh_access_token jwt_encode config refresh user_agent
    ip_address true w = (Return tokens, w') ->
  exists r now row,
    refresh_tokens (db w')
    = enforce_session_limit config now (RefreshToken.user_id r)
        (revoke_token refresh (refresh_tokens (db w))) ++ [row]
    /\ existsb (fun x => String.eqb (RefreshToken.token x) (entropy w 0%nat))
         (enforce_session_limit config now (RefreshToken.user_id r)
            (revoke_token refresh (refresh_tokens (db w)))) = false
    /\ find_token refresh (refresh_tokens (db w)) = Some r
    /\ RefreshToken.is_revoked r = false
    /\ refresh_token tokens = entropy w 0%nat
    /\ RefreshToken.token row = entropy w 0%nat
    /\ RefreshToken.is_revoked row = false
    /\ RefreshToken.user_id row = RefreshToken.user_id r
    /\ RefreshToken.created_at row = now.
Proof.
  unfold AuthService.refresh_access_token, get_refresh_token.
  unfold bind at 1. unfold bind at 1. unfold get_database, ret. simpl.
  destruct (find_token refresh (refresh_tokens (db w))) as [r|] eqn:F; [|done].
  destruct (RefreshToken.is_revoked r) eqn:V; [done|].
  unfold bind at 1. unfold datetime_now at 1. simpl.
  destruct (RefreshToken.expires_at r <? clock w 0%nat); [done|].
  unfold get_user_by_id. unfold bind at 1. unfold bind at 1.
  unfold get_database, ret. simpl.
  destruct (find_user (RefreshToken.user_id r) (users (db w))) as [user|] eqn:U;
    [|done].
  destruct (User.is_active user); simpl; [|done].
  unfold bind at 1.
  match goal with
  | |- context [AuthService.create_access_token _ _ ?d ?e ?w0] =>
      destruct (create_access_token_cases jwt_encode config d e w0)
        as [[jwt ->] | ->]; [|done]
  end.
  unfold bind at 1. unfold revoke_refresh_token at 1.
  unfold bind at 1. unfold get_database, put_database. simpl.
  unfold bind at 1. unfold generate_refresh_token, draw_entropy at 1. simpl.
  unfold bind at 1. unfold create_refresh_token.
  unfold bind at 1. unfold datetime_now at 1. simpl.
  unfold bind at 1. unfold get_database. simpl.
  destruct (existsb _ _) eqn:X; [done|].
  unfold bind, put_database, ret. simpl.
  intros [= <- <-]. simpl.
  apply find_user_id in U. rewrite U in *.
  eexists r, _, _. split; [reflexivity|]. split; [exact X|]. done.
Qed.

End RotationSuccess.

(** C4.  When [refresh_access_token] with [rotate_refresh_token = True]
    returns, the presented token is in the table and revoked, the token it
    returns is a different string that was not in the table before and is
    now stored, not revoked, for the same user; and after any further
    requests, a refresh that presents the original token again raises
    [ValueError("Refresh token has been revoked")]. *)
Theorem rotation_is_single_use
    (hashpw : string -> string -> string)
    (checkpw : string -> string -> pyresult bool)
    (jwt_encode : Security.claims_t -> string -> string -> option string)
    (config : Config) (refresh : string) (user_agent ip_address : option string)
    (w w' : World) (tokens : TokenResponse)
    (later : list Api.Request) (user_agent' ip_address' : option string)
    (rotate' : bool) :
  AuthService.refresh_access_token jwt_encode config refresh user_agent
    ip_address true w = (Return tokens, w') ->
  AuthRepository.revoked_in refresh (db w')
  /\ refresh_token tokens <> refresh
  /\ AuthRepository.find_token (refresh_token tokens) (refresh_tokens (db w)) = None
  /\ (exists old new,
        AuthRepository.find_token refresh (refresh_tokens (db w)) = Some old
        /\ AuthRepository.find_token (refresh_token tokens) (refresh_tokens (db w'))
           = Some new
        /\ RefreshToken.is_revoked new = false
        /\ RefreshToken.user_id new = RefreshToken.user_id old)
  /\ AuthService.refresh_access_token jwt_encode config refresh user_agent'
       ip_address' rotate'
       (Api.serve_all hashpw checkpw jwt_encode config later w')
     = (Raise (ValueError "Refresh token has been revoked"),
        Api.serve_all hashpw checkpw jwt_encode config later w').
Proof.
  intros H.
  destruct (refresh_rotated config jwt_encode _ _ _ _ _ _ H)
    as (r & now & row & T & X & F & V & N & Tok & Live & Own & Born).
  destruct (enforce_session_limit_map config now (RefreshToken.user_id r)
              (AuthRepository.revoke_token refresh (refresh_tokens (db w))))
    as (f & Hf & E).
  rewrite E in T, X.
  assert (Fold : AuthRepository.find_token refresh
                   (map f (AuthRepository.revoke_token refresh (refresh_tokens (db w))))
                 = Some (f (RefreshToken.revoke r))).
  { rewrite find_token_map by done. by rewrite find_token_revoke_token, F. }
  assert (Fnew : AuthRepository.find_token (entropy w 0%nat)
                   (map f (AuthRepository.revoke_token refresh (refresh_tokens (db w))))
                 = None) by (by apply find_token_existsb).
  assert (R' : AuthRepository.revoked_in refresh (db w')).
  { exists (f (RefreshToken.revoke r)). rewrite T, find_token_app, Fold.
    split; [done|]. by apply Hf. }
  split; [exact R'|]. split; [|split; [|split]].
  - rewrite N. intros Heq. rewrite Heq in Fnew. congruence.
  - rewrite N. rewrite find_token_map in Fnew by done.
    unfold AuthRepository.revoke_token in Fnew.
    rewrite find_token_map in Fnew by apply revoke_if_keeps_tokens.
    destruct (AuthRepository.find_token (entropy w 0%nat) (refresh_tokens (db w)));
      [discriminate Fnew | reflexivity].
  - exists r, row. split; [done|]. rewrite N, T, find_token_app, Fnew.
    split; [|done]. simpl. unfold AuthRepository.find_token. simpl.
    by rewrite Tok, String.eqb_refl.
  - apply refresh_revoked. by apply serve_all_stays_revoked.
Qed.

(** ** The session limit *)
Section SessionLimit.

Import AuthRepository.

Variable config : Config.

Lemma filter_length_le {A : Type} (p q : A -> bool) (l : list A) :
  (forall x, p x = true -> q x = true) ->
  (length (List.filter p l) <= length (List.filter q l))%nat.
Proof.
  intros H. induction l as [|x l IH]; simpl; [lia|].
  destruct (p x) eqn:P.
  - rewrite (H x P). simpl. lia.
  - destruct (q x); simpl; lia.
Qed.

(** A credential that is live later is live now. *)
Lemma session_count_later (now t uid : Z) (rows : list RefreshToken.t) :
  now <= t -> session_count t uid rows <= session_count now uid rows.
Proof.
  intros H. unfold session_count, live_sessions.
  apply Nat2Z.inj_le, filter_length_le. intros x.
  unfold is_live. rewrite !andb_true_iff, !Z.leb_le. intros (? & ? & ?).
  repeat split; try done. lia.
Qed.

Lemma live_revoke (now uid : Z) (r : RefreshToken.t) :
  (RefreshToken.user_id (RefreshToken.revoke r) =? uid)
  && is_live now (RefreshToken.revoke r) = false.
Proof. unfold is_live. simpl. apply andb_false_r. Qed.

(** Revoking never adds a live credential. *)
Lemma session_count_only_revokes (f : RefreshToken.t -> RefreshToken.t)
    (now uid : Z) (rows : list RefreshToken.t) :
  only_revokes f ->
  session_count now uid (map f rows) <= session_count now uid rows.
Proof.
  intros Hf. unfold session_count, live_sessions. apply Nat2Z.inj_le.
  induction rows as [|x rows IH]; simpl; [lia|].
  destruct (Hf x) as [-> | ->].
  - destruct (_ && _); simpl; lia.
  - rewrite live_revoke. destruct (_ && _); simpl; lia.
Qed.

Lemma revoke_if_only_revokes (cond : RefreshToken.t -> bool) :
  only_revokes (fun r => if cond r then RefreshToken.revoke r else r).
Proof. intros r. destruct (cond r); auto. Qed.

(** Revoking the row of a live credential of the user leaves fewer of
    them. *)
Lemma session_count_revoke_row (now uid : Z) (r : RefreshToken.t)
    (rows : list RefreshToken.t) :
  In r (live_sessions now uid rows) ->
  session_count now uid (revoke_row (RefreshToken.id r) rows)
  < session_count now uid rows.
Proof.
  intros Hin. unfold session_count. apply Nat2Z.inj_lt.
  pose proof (session_count_only_revokes
                (fun x => if RefreshToken.id x =? RefreshToken.id r
                          then RefreshToken.revoke x else x) now uid) as Hle.
  unfold session_count in Hle.
  unfold live_sessions, revoke_row in *.
  induction rows as [|x rows IH]; simpl in *; [done|].
  specialize (Hle rows (revoke_if_only_revokes _)). apply Nat2Z.inj_le in Hle.
  destruct ((RefreshToken.user_id x =? uid) && is_live now x) eqn:L.
  - destruct Hin as [-> | Hin].
    + rewrite Z.eqb_refl, live_revoke. simpl. lia.
    + specialize (IH Hin).
      destruct (RefreshToken.id x =? RefreshToken.id r).
      * rewrite live_revoke. simpl. lia.
      * rewrite L. simpl. lia.
  - specialize (IH Hin).
    destruct (RefreshToken.id x =? RefreshToken.id r).
    + rewrite live_revoke. simpl. lia.
    + rewrite L. simpl. lia.
Qed.

(** The oldest of a list is one of its rows, and no row was created
    before it. *)
Lemma oldest_spec (rows : list RefreshToken.t) (r : RefreshToken.t) :
  oldest rows = Some r ->
  In r rows
  /\ forall x, In x rows -> RefreshToken.created_at r <= RefreshToken.created_at x.
Proof.
  destruct rows as [|r0 rest]; [done|]. simpl. intros [= <-].
  set (step := fun m x : RefreshToken.t =>
                 if RefreshToken.created_at x <? RefreshToken.created_at m
                 then x else m).
  assert (G : forall l m,
             (fold_left step l m = m \/ In (fold_left step l m) l)
             /\ RefreshToken.created_at (fold_left step l m)
                <= RefreshToken.created_at m
             /\ forall x, In x l ->
                  RefreshToken.created_at (fold_left step l m)
                  <= RefreshToken.created_at x).
  { induction l as [|y l IH]; intros m; simpl.
    - repeat split; [by left|lia|tauto].
    - destruct (IH (step m y)) as (M & B & A).
      assert (S1 : RefreshToken.created_at (step m y) <= RefreshToken.created_at m
                   /\ RefreshToken.created_at (step m y)
                      <= RefreshToken.created_at y).
      { unfold step. destruct (Z.ltb_spec (RefreshToken.created_at y)
                                 (RefreshToken.created_at m)); lia. }
      split; [|split].
      + destruct M as [M|M]; [|tauto]. rewrite M. unfold step.
        destruct (_ <? _); tauto.
      + lia.
      + intros x [<- | Hx]; [lia|]. by apply A. }
  destruct (G rest r0) as (M & B & A). split.
  - destruct M as [-> | M]; [by left|by right].
  - intros x [<- | Hx]; [exact B|by apply A].
Qed.

(** What the enforcement does: at or above the limit it revokes the row
    of the oldest live credential of the user, below it nothing. *)
Lemma enforce_session_limit_spec (now uid : Z) (rows : list RefreshToken.t) :
  1 <= MAX_SESSIONS_PER_USER config ->
  (MAX_SESSIONS_PER_USER config <= session_count now uid rows ->
   exists r,
     oldest (live_sessions now uid rows) = Some r
     /\ In r (live_sessions now uid rows)
     /\ (forall x, In x (live_sessions now uid rows) ->
                   RefreshToken.created_at r <= RefreshToken.created_at x)
     /\ enforce_session_limit config now uid rows
        = revoke_row (RefreshToken.id r) rows)
  /\ (session_count now uid rows < MAX_SESSIONS_PER_USER config ->
      enforce_session_limit config now uid rows = rows).
Proof.
  intros Hmax. unfold enforce_session_limit, session_count. split; intros H.
  - destruct (Z.leb_spec (MAX_SESSIONS_PER_USER config)
                (Z.of_nat (length (live_sessions now uid rows)))); [|lia].
    destruct (oldest (live_sessions now uid rows)) as [r|] eqn:O.
    + destruct (oldest_spec _ _ O) as [I A]. exists r. done.
    + destruct (live_sessions now uid rows); [simpl in H; lia|done].
  - destruct (Z.leb_spec (MAX_SESSIONS_PER_USER config)
                (Z.of_nat (length (live_sessions now uid rows)))); [lia|done].
Qed.

Lemma enforce_session_limit_only_revokes (now uid : Z)
    (rows : list RefreshToken.t) :
  exists f, only_revokes f /\ enforce_session_limit config now uid rows = map f rows.
Proof.
  unfold enforce_session_limit.
  destruct (_ <=? _).
  - destruct (oldest _) as [r|].
    + eexists. split; [|reflexivity]. apply revoke_if_only_revokes.
    + exists (fun r => r). split; [by left|]. by rewrite map_id.
  - exists (fun r => r). split; [by left|]. by rewrite map_id.
Qed.

(** After the enforcement the user has room for one more credential. *)
Lemma enforce_session_limit_room (now uid : Z) (rows : list RefreshToken.t) :
  1 <= MAX_SESSIONS_PER_USER config ->
  session_count now uid rows <= MAX_SESSIONS_PER_USER config ->
  session_count now uid (enforce_session_limit config now uid rows)
  < MAX_SESSIONS_PER_USER config.
Proof.
  intros Hmax Hle.
  destruct (enforce_session_limit_spec now uid rows Hmax) as [Hat Hbelow].
  destruct (Z.le_gt_cases (MAX_SESSIONS_PER_USER config)
              (session_count now uid rows)) as [C|C].
  - destruct (Hat C) as (r & _ & I & _ & ->).
    pose proof (session_count_revoke_row now uid r rows I). lia.
  - rewrite (Hbelow C). exact C.
Qed.

End SessionLimit.

Section SessionsBounded.

Import AuthRepository.

Variable config : Config.
Hypothesis limit_positive : 1 <= MAX_SESSIONS_PER_USER config.

#[local] Instance keeps_sessions_bounded_preorder :
  PreOrder (keeps_sessions_bounded config).
Proof.
  split.
  - intros w. split; [|done]. exists 0%nat. intros n. by rewrite Nat.add_0_r.
  - intros a b c [[k1 A1] B1] [[k2 A2] B2]. split; [|auto].
    exists (k2 + k1)%nat. intros n. rewrite A2, A1. f_equal. lia.
Qed.

(** A world that differs in the clock only, read from a later point. *)
Lemma sessions_bounded_advance (w w' : World) :
  advances w w' ->
  refresh_tokens (db w') = refresh_tokens (db w) ->
  sessions_bounded config w -> sessions_bounded config w'.
Proof.
  intros [k A] T [Mono B].
  assert (Later : forall n, clock w 0%nat <= clock w n).
  { induction n as [|n IH]; [lia|]. specialize (Mono n). lia. }
  split.
  - intros n. rewrite !A. apply (Mono (n + k)%nat).
  - intros uid t Ht. rewrite T. apply B. rewrite A in Ht.
    specialize (Later (0 + k)%nat). lia.
Qed.

Lemma advances_tick (w w' : World) :
  clock w' = (fun n => clock w (S n)) -> advances w w'.
Proof. intros E. exists 1%nat. intros n. rewrite E. f_equal. lia. Qed.

Lemma advances_same (w w' : World) : clock w' = clock w -> advances w w'.
Proof. intros E. exists 0%nat. intros n. rewrite E. f_equal. lia. Qed.

Lemma bounded_datetime_now :
  relates (keeps_sessions_bounded config) datetime_now.
Proof.
  intros w. simpl.
  assert (A : advances w (snd (datetime_now w))) by by apply advances_tick.
  split; [exact A|]. by apply sessions_bounded_advance.
Qed.

Lemma bounded_draw_entropy :
  relates (keeps_sessions_bounded config) draw_entropy.
Proof.
  intros w. simpl.
  assert (A : advances w (snd (draw_entropy w))) by by apply advances_same.
  split; [exact A|]. by apply sessions_bounded_advance.
Qed.

Lemma bounded_create_user (name addr hashed : string) :
  relates (keeps_sessions_bounded config) (create_user name addr hashed).
Proof.
  intros w.
  assert (A : advances w (snd (create_user name addr hashed w))
              /\ refresh_tokens (db (snd (create_user name addr hashed w)))
                 = refresh_tokens (db w)).
  { unfold create_user, bind, datetime_now, get_database, put_database,
      raise, ret. simpl.
    destruct (existsb _ _); simpl; split; try done; by apply advances_tick. }
  destruct A as [A T]. split; [exact A|]. by apply sessions_bounded_advance.
Qed.

Lemma bounded_update_user (uid : Z) (name addr : option string) :
  relates (keeps_sessions_bounded config) (update_user uid name addr).
Proof.
  intros w.
  assert (A : advances w (snd (update_user uid name addr w))
              /\ refresh_tokens (db (snd (update_user uid name addr w)))
                 = refresh_tokens (db w)).
  { unfold update_user, bind, datetime_now, get_database, put_database,
      raise, ret. simpl.
    destruct (find_user uid (users (db w))); simpl;
      [|split; [by apply advances_same|done]].
    destruct (existsb _ _); simpl; split; try done; by apply advances_tick. }
  destruct A as [A T]. split; [exact A|]. by apply sessions_bounded_advance.
Qed.

Lemma bounded_deactivate_user (uid : Z) :
  relates (keeps_sessions_bounded config) (deactivate_user uid).
Proof.
  intros w.
  assert (A : advances w (snd (deactivate_user uid w))
              /\ refresh_tokens (db (snd (deactivate_user uid w)))
                 = refresh_tokens (db w)).
  { unfold deactivate_user, bind, get_database, put_database, ret. simpl.
    destruct (existsb _ _); simpl; split; try done; by apply advances_same. }
  destruct A as [A T]. split; [exact A|]. by apply sessions_bounded_advance.
Qed.

Lemma bounded_revoke (tok : string) :
  relates (keeps_sessions_bounded config) (revoke_refresh_token tok).
Proof.
  intros w. unfold revoke_refresh_token, bind, get_database, put_database.
  simpl. split; [by apply advances_same|].
  intros [Mono B]. split; [exact Mono|]. simpl. intros uid t Ht.
  etransitivity; [|apply (B uid t Ht)].
  apply session_count_only_revokes, revoke_if_only_revokes.
Qed.

Lemma session_count_snoc (t uid : Z) (rows : list RefreshToken.t)
    (row : RefreshToken.t) :
  session_count t uid (rows ++ [row])
  <= session_count t uid rows
     + (if RefreshToken.user_id row =? uid then 1 else 0).
Proof.
  unfold session_count, live_sessions. rewrite List.filter_app, length_app.
  simpl. destruct (RefreshToken.user_id row =? uid); simpl.
  - destruct (is_live t row); simpl; lia.
  - lia.
Qed.

Lemma bounded_create_refresh_token (uid : Z) (tok : string) (days : Z)
    (agent address : option string) :
  relates (keeps_sessions_bounded config)
    (create_refresh_token config uid tok days agent address).
Proof.
  intros w. unfold create_refresh_token, bind, datetime_now, get_database,
    put_database, raise, ret. simpl.
  destruct (existsb _ _); simpl.
  - assert (A : advances w {| db := db w; clock := fun n => clock w (S n);
                              entropy := entropy w |}) by by apply advances_tick.
    split; [exact A|]. by apply sessions_bounded_advance.
  - split; [by apply advances_tick|].
    intros [Mono B]. split; [intros n; apply (Mono (S n))|]. simpl.
    intros u t Ht. pose proof (Mono 0%nat) as M0.
    set (now := clock w 0%nat) in *.
    set (rows := refresh_tokens (db w)) in *.
    etransitivity; [apply session_count_snoc|]. simpl.
    destruct (Z.eqb_spec uid u) as [<- | Hne].
    + pose proof (session_count_later now t uid
                    (enforce_session_limit config now uid rows)).
      pose proof (enforce_session_limit_room config now uid rows
                    limit_positive (B uid now ltac:(lia))).
      lia.
    + destruct (enforce_session_limit_only_revokes config now uid rows)
        as (f & Hf & ->).
      pose proof (session_count_only_revokes f t u rows Hf).
      pose proof (B u t). lia.
Qed.

Lemma bounded_rollback (w w' : World) :
  keeps_sessions_bounded config w w' ->
  keeps_sessions_bounded config w
    {| db := db w; clock := clock w'; entropy := entropy w' |}.
Proof.
  intros [A _].
  assert (A' : advances w {| db := db w; clock := clock w';
                             entropy := entropy w' |}).
  { destruct A as [k A]. exists k. exact A. }
  split; [exact A'|]. by apply sessions_bounded_advance.
Qed.

(** The bound holds after every sequence of requests. *)
Lemma serve_all_sessions_bounded
    (hashpw : string -> string -> string)
    (checkpw : string -> string -> pyresult bool)
    (jwt_encode : Security.claims_t -> string -> string -> option string)
    (requests : list Api.Request) (w : World) :
  sessions_bounded config w ->
  sessions_bounded config
    (Api.serve_all hashpw checkpw jwt_encode config requests w).
Proof.
  apply (relates_serve_all (keeps_sessions_bounded config) hashpw checkpw
           jwt_encode config).
  - apply bounded_datetime_now.
  - apply bounded_draw_entropy.
  - intros. apply bounded_create_user.
  - intros. apply bounded_update_user.
  - intros. apply bounded_deactivate_user.
  - intros. apply bounded_revoke.
  - intros. apply bounded_create_refresh_token.
  - apply bounded_rollback.
Qed.

End SessionsBounded.

Lemma find_app_None {A : Type} (p : A -> bool) (l k : list A) :
  List.find p l = None -> List.find p (l ++ k) = List.find p k.
Proof.
  induction l as [|x l IH]; [done|]. simpl. destruct (p x); [done|exact IH].
Qed.

Section Issuing.

Import AuthRepository.

Variable hashpw : string -> string -> string.
Variable checkpw : string -> string -> pyresult bool.
Variable jwt_encode : Security.claims_t -> string -> string -> option string.
Variable config : Config.

(** The last part of [register_user], [login_user] and the rotating
    [refresh_access_token]: an access token, a fresh refresh token, and the
    refresh token stored. *)
Lemma issue_tokens_stored (data : Security.claims_t) (uid : Z)
    (user_agent ip_address : option string) (w w' : World)
    (tokens : TokenResponse) :
  (let* access := AuthService.create_access_token jwt_encode config data None in
   let* refresh := generate_refresh_token in
   let* _ := create_refresh_token config uid refresh
               (REFRESH_TOKEN_EXPIRE_DAYS config) user_agent ip_address in
   ret (AuthService.token_response access refresh)) w = (Return tokens, w') ->
  users (db w') = users (db w)
  /\ stored_with_limit config uid (refresh_tokens (db w))
       (refresh_tokens (db w')) (refresh_token tokens).
Proof.
  unfold bind at 1.
  destruct (create_access_token_cases jwt_encode config data None w)
    as [[jwt ->] | ->]; [|done].
  unfold generate_refresh_token, draw_entropy, create_refresh_token, bind,
    datetime_now, get_database, put_database, raise, ret. simpl.
  destruct (existsb _ _) eqn:X; [done|].
  intros [= <- <-]. simpl. split; [done|].
  eexists _, _. split; [reflexivity|]. done.
Qed.

Lemma login_user_stored (login_data : UserLogin)
    (user_agent ip_address : option string) (w w' : World)
    (tokens : TokenResponse) :
  AuthService.login_user checkpw jwt_encode config login_data user_agent
    ip_address w = (Return tokens, w') ->
  exists user,
    find_username (login_username login_data) (users (db w)) = Some user
    /\ stored_with_limit config (User.id user) (refresh_tokens (db w))
         (refresh_tokens (db w')) (refresh_token tokens).
Proof.
  unfold AuthService.login_user, get_user_by_username.
  unfold bind at 1. unfold bind at 1. unfold get_database, ret. simpl.
  destruct (find_username _ _) as [user|]; [|done].
  destruct (Security.verify_password _ _ _); simpl; [|done].
  destruct (User.is_active user); simpl; [|done].
  intros H. apply issue_tokens_stored in H as [_ H]. eauto.
Qed.

Lemma register_user_stored (user_data : UserRegister)
    (user_agent ip_address : option string) (w w' : World)
    (tokens : TokenResponse) :
  AuthService.register_user hashpw jwt_encode config user_data user_agent
    ip_address w = (Return tokens, w') ->
  exists user,
    find_username (register_username user_data) (users (db w')) = Some user
    /\ find_username (register_username user_data) (users (db w)) = None
    /\ stored_with_limit config (User.id user) (refresh_tokens (db w))
         (refresh_tokens (db w')) (refresh_token tokens).
Proof.
  unfold AuthService.register_user, get_user_by_username, get_user_by_email.
  unfold bind at 1. unfold bind at 1. unfold get_database, ret. simpl.
  destruct (find_username _ _) as [?|] eqn:Fu; [done|].
  unfold bind at 1. unfold bind at 1. simpl.
  destruct (find_email _ _) as [?|] eqn:Fe; [done|].
  unfold bind at 1. unfold draw_entropy at 1. simpl.
  unfold bind at 1. unfold create_user at 1.
  unfold bind at 1. unfold datetime_now at 1. simpl.
  unfold bind at 1. unfold get_database at 1. simpl.
  destruct (existsb _ _); [done|].
  unfold bind at 1. unfold put_database. simpl.
  intros H. apply issue_tokens_stored in H as [U H]. simpl in *.
  eexists. split.
  - rewrite U. unfold find_username in *. rewrite find_app_None by exact Fu.
    simpl. rewrite String.eqb_refl. reflexivity.
  - split; [done|exact H].
Qed.

Lemma refresh_access_token_stored (refresh : string)
    (user_agent ip_address : option string) (w w' : World)
    (tokens : TokenResponse) :
  AuthService.refresh_access_token jwt_encode config refresh user_agent
    ip_address true w = (Return tokens, w') ->
  exists r,
    find_token refresh (refresh_tokens (db w)) = Some r
    /\ stored_with_limit config (RefreshToken.user_id r)
         (revoke_token refresh (refresh_tokens (db w)))
         (refresh_tokens (db w')) (refresh_token tokens).
Proof.
  intros H.
  destruct (refresh_rotated config jwt_encode _ _ _ _ _ _ H)
    as (r & now & row & T & X & F & V & N & Tok & Live & Own & Born).
  exists r. split; [done|]. exists now, row. rewrite N. done.
Qed.

End Issuing.

(** C1.  With a configured maximum of at least one session, a clock that
    does not run backwards and no credential stored at the start: after
    every sequence of requests no user holds more than
    [MAX_SESSIONS_PER_USER] credentials that are neither revoked nor expired;
    every login, registration and rotating refresh that succeeds stores its
    new credential through [create_refresh_token], which first counts the
    live credentials of the user and, at or above the maximum, revokes the
    one created first. *)
Theorem session_limit_is_enforced
    (hashpw : string -> string -> string)
    (checkpw : string -> string -> pyresult bool)
    (jwt_encode : Security.claims_t -> string -> string -> option string)
    (config : Config) (requests : list Api.Request) (w0 : World) (uid t : Z) :
  1 <= MAX_SESSIONS_PER_USER config ->
  (forall n, clock w0 n <= clock w0 (S n)) ->
  refresh_tokens (db w0) = [] ->
  let w := Api.serve_all hashpw checkpw jwt_encode config requests w0 in
  (clock w 0%nat <= t ->
   AuthRepository.session_count t uid (refresh_tokens (db w))
   <= MAX_SESSIONS_PER_USER config)
  /\ (forall login_data user_agent ip_address tokens w',
        AuthService.login_user checkpw jwt_encode config login_data user_agent
          ip_address w = (Return tokens, w') ->
        exists user,
          AuthRepository.find_username (login_username login_data) (users (db w))
          = Some user
          /\ AuthRepository.stored_with_limit config (User.id user)
               (refresh_tokens (db w)) (refresh_tokens (db w'))
               (refresh_token tokens))
  /\ (forall user_data user_agent ip_address tokens w',
        AuthService.register_user hashpw jwt_encode config user_data user_agent
          ip_address w = (Return tokens, w') ->
        exists user,
          AuthRepository.find_username (register_username user_data)
            (users (db w')) = Some user
          /\ AuthRepository.find_username (register_username user_data)
               (users (db w)) = None
          /\ AuthRepository.stored_with_limit config (User.id user)
               (refresh_tokens (db w)) (refresh_tokens (db w'))
               (refresh_token tokens))
  /\ (forall refresh user_agent ip_address tokens w',
        AuthService.refresh_access_token jwt_encode config refresh user_agent
          ip_address true w = (Return tokens, w') ->
        exists r,
          AuthRepository.find_token refresh (refresh_tokens (db w)) = Some r
          /\ AuthRepository.stored_with_limit config (RefreshToken.user_id r)
               (AuthRepository.revoke_token refresh (refresh_tokens (db w)))
               (refresh_tokens (db w')) (refresh_token tokens))
  /\ (forall now user rows,
        (MAX_SESSIONS_PER_USER config
         <= AuthRepository.session_count now user rows ->
         exists r,
           AuthRepository.oldest (AuthRepository.live_sessions now user rows)
           = Some r
           /\ In r (AuthRepository.live_sessions now user rows)
           /\ (forall x,
                 In x (AuthRepository.live_sessions now user rows) ->
                 RefreshToken.created_at r <= RefreshToken.created_at x)
           /\ AuthRepository.enforce_session_limit config now user rows
              = AuthRepository.revoke_row (RefreshToken.id r) rows)
        /\ (AuthRepository.session_count now user rows
            < MAX_SESSIONS_PER_USER config ->
            AuthRepository.enforce_session_limit config now user rows = rows)).
Proof.
  intros Hmax Hclock Hempty w.
  assert (B0 : AuthRepository.sessions_bounded config w0).
  { split; [exact Hclock|]. intros u t' _. rewrite Hempty.
    unfold AuthRepository.session_count. simpl. lia. }
  pose proof (serve_all_sessions_bounded config Hmax hashpw checkpw jwt_encode
                requests w0 B0) as [_ B].
  fold w in B.
  split; [apply B|]. split; [|split; [|split]].
  - intros. by eapply login_user_stored.
  - intros. by eapply register_user_stored.
  - intros. by eapply refresh_access_token_stored.
  - intros. by apply enforce_session_limit_spec.
Qed.

(** ** Access tokens *)
Section AccessTokens.

Variable jwt_encode : Security.claims_t -> string -> string -> option string.
Variable jws_verify :
  string -> string -> string -> Security.JwsFailure + Security.claims_t.
Variable validate_before_exp : Security.claims_t -> Z -> option string.
Variable validate_after_exp : Security.claims_t -> Z -> option string.
Variable config : Config.

(** The three claims [create_access_token] writes, whatever [data] held
    under their names. *)
Lemma access_token_claims_written (now_exp now_iat : Z)
    (data : Security.claims_t) (expires_delta : option Z) :
  let claims := Security.access_token_claims config now_exp now_iat data
                  expires_delta in
  claims !! "type"%string = Some (Security.VStr "access")
  /\ claims !! "iat"%string = Some (Security.VDatetime now_iat)
  /\ (exists expire, claims !! "exp"%string = Some (Security.VDatetime expire))
  /\ forall name,
      name <> "type"%string -> name <> "iat"%string -> name <> "exp"%string ->
      claims !! name = data !! name.
Proof.
  unfold Security.access_token_claims. simpl. repeat split.
  - by rewrite lookup_insert_eq.
  - rewrite lookup_insert_ne by done. by rewrite lookup_insert_eq.
  - eexists. rewrite !lookup_insert_ne by done. by rewrite lookup_insert_eq.
  - intros name H1 H2 H3. by rewrite !lookup_insert_ne.
Qed.

(** A lifetime that is given and not zero is the lifetime of the token;
    without one it is the configured number of minutes. *)
Lemma access_token_expiry (now_exp now_iat : Z) (data : Security.claims_t) :
  (forall ttl,
      ttl <> 0 ->
      Security.access_token_claims config now_exp now_iat data (Some ttl)
        !! "exp"%string
      = Some (Security.VDatetime (now_exp + ttl)))
  /\ Security.access_token_claims config now_exp now_iat data None
       !! "exp"%string
     = Some (Security.VDatetime
               (now_exp
                + Security.timedelta_minutes (ACCESS_TOKEN_EXPIRE_MINUTES config))).
Proof.
  unfold Security.access_token_claims. split.
  - intros ttl Hne. destruct (Z.eqb_spec ttl 0); [done|].
    rewrite !lookup_insert_ne by done. by rewrite lookup_insert_eq.
  - rewrite !lookup_insert_ne by done. by rewrite lookup_insert_eq.
Qed.

(** The token is the encoding of exactly these claims under the configured
    key and algorithm. *)
Lemma create_access_token_signs (now_exp now_iat : Z)
    (data : Security.claims_t) (expires_delta : option Z) (token : string) :
  Security.create_access_token jwt_encode config now_exp now_iat data
    expires_delta = Return token ->
  jwt_encode (Security.access_token_claims config now_exp now_iat data
                expires_delta) (SECRET_KEY config) (ALGORITHM config)
  = Some token.
Proof.
  unfold Security.create_access_token.
  by destruct (jwt_encode _ _ _) as [t|]; intros [= ->].
Qed.

(** [decode_access_token], case by case. *)
Lemma decode_access_token_cases (now : Z) (token : string) :
  let decode := Security.decode_access_token jws_verify validate_before_exp
                  validate_after_exp config now token in
  let verified := jws_verify token (SECRET_KEY config) (ALGORITHM config) in
  (verified = inl Security.Malformed ->
   decode = Raise (InvalidTokenError "Not enough segments"))
  /\ (verified = inl Security.BadSignature ->
      decode = Raise (InvalidTokenError "Signature verification failed"))
  /\ (forall payload exp,
        verified = inr payload ->
        validate_before_exp payload now = None ->
        payload !! "exp"%string = Some (Security.VInt exp) ->
        exp * 1000000 < now ->
        decode = Raise ExpiredSignatureError)
  /\ (forall payload,
        Security.jwt_decode jws_verify validate_before_exp validate_after_exp
          now token (SECRET_KEY config) (ALGORITHM config) = Return payload ->
        payload !! "type"%string <> Some (Security.VStr "access") ->
        decode = Raise (InvalidTokenError "Invalid token type"))
  /\ (forall payload,
        Security.jwt_decode jws_verify validate_before_exp validate_after_exp
          now token (SECRET_KEY config) (ALGORITHM config) = Return payload ->
        payload !! "type"%string = Some (Security.VStr "access") ->
        decode = Return payload).
Proof.
  simpl. unfold Security.decode_access_token, Security.jwt_decode.
  repeat split.
  - by intros ->.
  - by intros ->.
  - intros payload exp -> -> -> Hexp.
    destruct (Z.leb_spec (exp * 1000000) now); [done|lia].
  - intros payload -> Htype.
    destruct (payload !! "type"%string) as [[s| |]|] eqn:T; try done.
    destruct (String.eqb_spec s "access") as [->|Hne]; [done|].
    destruct s as [|a s]; [done|].
    repeat (match goal with
            | |- match ?c with _ => _ end = _ => destruct c; try done
            | s : string |- _ => destruct s; try done
            end).
  - by intros payload -> ->.
Qed.

End AccessTokens.

(** C8, at the input where the code leaves the claim: a lifetime of zero.
    [if expires_delta:] is false for [timedelta(0)], so the token does not
    expire at [now + 0] but after the configured default. *)
Lemma zero_lifetime_gets_the_default (config : Config) (now_exp now_iat : Z)
    (data : Security.claims_t) :
  Security.access_token_claims config now_exp now_iat data (Some 0)
    !! "exp"%string
  = Some (Security.VDatetime
            (now_exp + Security.timedelta_minutes (ACCESS_TOKEN_EXPIRE_MINUTES config))).
Proof.
  unfold Security.access_token_claims. simpl.
  rewrite !lookup_insert_ne by done. by rewrite lookup_insert_eq.
Qed.

(** ** The theorems at concrete inputs *)

Lemma pair_of_fst {A B : Type} (p : A * B) (a : A) :
  fst p = a -> p = (a, snd p).
Proof. destruct p. simpl. by intros ->. Qed.

(** C3 at a limit of one request per minute and an entry recorded at second
    10: with the readings 12.5 and 13 the check is denied for 58 seconds,
    where 57.5 seconds of the window remain. *)
Lemma check_rate_limit_algorithm_with_two_readings_witness :
  0 <= 60
  /\ ((25 # 2) <= 13)%Q
  /\ fst (RateLimiter.check_rate_limit (25 # 2) 13 "ip" 1 60
            {[ "ip"%string := [(10%Q, 1)] ]})
     = (false, Some 58)
  /\ (let entries :=
        RateLimiter.entries_of {[ "ip"%string := [(10%Q, 1)] ]} "ip" in
      let remaining :=
        List.filter (RateLimiterSpec.in_window 13 60) entries in
      let total := RateLimiterSpec.window_count 13 60 entries in
      let '(result, requests') :=
        RateLimiter.check_rate_limit (25 # 2) 13 "ip" 1 60
          {[ "ip"%string := [(10%Q, 1)] ]} in
      (forall other,
          other <> "ip"%string ->
          requests' !! other
          = ({[ "ip"%string := [(10%Q, 1)] ]} : RateLimiter.requests_t) !! other)
      /\ (total < 1 ->
          result = (true, None)
          /\ RateLimiter.entries_of requests' "ip"
             = remaining ++ [((25 # 2)%Q, 1)])
      /\ (1 <= total ->
          RateLimiter.entries_of requests' "ip" = remaining
          /\ exists retry_after,
              result = (false, Some retry_after)
              /\ 0 <= retry_after
              /\ match remaining with
                 | [] => retry_after = 60
                 | first :: rest =>
                     let time_left :=
                       (inject_Z 60
                        - ((25 # 2)
                           - RateLimiterSpec.oldest_timestamp first rest))%Q in
                     (0 < time_left)%Q
                     /\ (time_left < inject_Z retry_after)%Q
                     /\ (inject_Z retry_after <= time_left + 1)%Q
                 end)).
Proof.
  assert (Hclock : ((25 # 2) <= 13)%Q) by (vm_compute; discriminate).
  split; [lia|]. split; [exact Hclock|]. split; [vm_compute; reflexivity|].
  apply (check_rate_limit_algorithm_with_two_readings (25 # 2) 13 "ip" 1 60
           {[ "ip"%string := [(10%Q, 1)] ]}); [lia | exact Hclock].
Defined.



(** C7 at the two callers of [Concurrent.two_callers] under the interleaved
    schedule. *)
Lemma lock_protects_the_quota_witness :
  (forall id,
      RateLimiter.quota_kept 1
        (RateLimiter.entries_of {[ "ip"%string := [(0%Q, 1)] ]} id))
  /\ Forall (fun c => Concurrent.max_requests c = 1)
       [Concurrent.one_per_minute; Concurrent.one_per_minute]
  /\ (let '(trace, s) :=
        Concurrent.run Concurrent.interleaved
          (Concurrent.start {[ "ip"%string := [(0%Q, 1)] ]} 100
             [Concurrent.one_per_minute; Concurrent.one_per_minute]) in
      (forall tid th,
          Concurrent.threads s !! tid = Some th ->
          Concurrent.events_of tid trace
          = Concurrent.events_until tid (Concurrent.pc th))
      /\ (forall tid th result,
            Concurrent.threads s !! tid = Some th ->
            Concurrent.pc th = Concurrent.Returned result ->
            Concurrent.acquisitions tid trace = 2%nat)
      /\ (forall tid tid' th th',
            Concurrent.threads s !! tid = Some th ->
            Concurrent.threads s !! tid' = Some th' ->
            Concurrent.holds_lock (Concurrent.pc th) = true ->
            Concurrent.holds_lock (Concurrent.pc th') = true ->
            tid = tid')
      /\ (forall id,
            RateLimiter.quota_kept 1
              (RateLimiter.entries_of (Concurrent._requests s) id))).
Proof.
  assert (Q0 : forall id,
             RateLimiter.quota_kept 1
               (RateLimiter.entries_of {[ "ip"%string := [(0%Q, 1)] ]} id)).
  { intros id. unfold RateLimiter.entries_of.
    destruct (decide (id = "ip"%string)) as [->|Hne].
    - rewrite lookup_singleton_eq. simpl. split; [by repeat constructor|simpl; lia].
    - rewrite lookup_singleton_ne by done. simpl. split; [constructor|simpl; lia]. }
  assert (C0 : Forall (fun c => Concurrent.max_requests c = 1)
                 [Concurrent.one_per_minute; Concurrent.one_per_minute]).
  { by repeat constructor. }
  split; [exact Q0|]. split; [exact C0|].
  apply (lock_protects_the_quota (fun _ => 1) {[ "ip"%string := [(0%Q, 1)] ]} 100
           [Concurrent.one_per_minute; Concurrent.one_per_minute]
           Concurrent.interleaved Q0 C0).
Defined.

(** C10 at a user whose stored hash is not a bcrypt hash. *)
Lemma verify_password_is_total_witness :
  AuthRepository.find_username (login_username Scenario.mallory_login)
    (users (db Scenario.corrupt_world)) = Some Scenario.mallory
  /\ Scenario.checkpw (login_password Scenario.mallory_login)
       (User.hashed_password Scenario.mallory)
     = Raise (ValueError "Invalid salt")
  /\ (Scenario.checkpw "Passw0rd1" "$Passw0rd1"
      = Return (Security.verify_password Scenario.checkpw "Passw0rd1" "$Passw0rd1")
      \/ (Security.verify_password Scenario.checkpw "Passw0rd1" "$Passw0rd1" = false
          /\ exists e', Scenario.checkpw "Passw0rd1" "$Passw0rd1" = Raise e'))
  /\ AuthService.login_user Scenario.checkpw Scenario.jwt_encode Scenario.config
       Scenario.mallory_login None None Scenario.corrupt_world
     = (Raise (ValueError "Invalid username or password"), Scenario.corrupt_world)
  /\ Api.login Scenario.checkpw Scenario.jwt_encode Scenario.config
       Scenario.mallory_login None None Scenario.corrupt_world
     = (Raise (HTTPException 401 "Invalid username or password"),
        Scenario.corrupt_world).
Proof.
  split; [reflexivity|]. split; [reflexivity|].
  apply (verify_password_is_total Scenario.checkpw Scenario.jwt_encode
           Scenario.config "Passw0rd1" "$Passw0rd1" Scenario.mallory_login None
           None Scenario.corrupt_world Scenario.mallory
           (ValueError "Invalid salt")); reflexivity.
Defined.

(** C4 at Alice's first refresh: she registers, which stores the token ["1"],
    and presents it; the rotation returns ["2"]; a later login does not
    bring ["1"] back. *)
Lemma rotation_is_single_use_witness :
  AuthService.refresh_access_token Scenario.jwt_encode Scenario.config "1" None
    None true (Scenario.serve_all [Api.PostRegister Scenario.alice None None]
                 Scenario.world)
  = (Return {| access_token := "jwt:k"; refresh_token := "2";
               token_type := "bearer" |},
     snd (AuthService.refresh_access_token Scenario.jwt_encode Scenario.config
            "1" None None true
            (Scenario.serve_all [Api.PostRegister Scenario.alice None None]
               Scenario.world)))
  /\ (let w := Scenario.serve_all [Api.PostRegister Scenario.alice None None]
                 Scenario.world in
      let w' := snd (AuthService.refresh_access_token Scenario.jwt_encode
                       Scenario.config "1" None None true w) in
      let later := Scenario.serve_all [Api.PostLogin Scenario.alice_login None None]
                     w' in
      AuthRepository.revoked_in "1" (db w')
      /\ "2"%string <> "1"%string
      /\ AuthRepository.find_token "2" (refresh_tokens (db w)) = None
      /\ (exists old new,
            AuthRepository.find_token "1" (refresh_tokens (db w)) = Some old
            /\ AuthRepository.find_token "2" (refresh_tokens (db w')) = Some new
            /\ RefreshToken.is_revoked new = false
            /\ RefreshToken.user_id new = RefreshToken.user_id old)
      /\ AuthService.refresh_access_token Scenario.jwt_encode Scenario.config
           "1" None None true later
         = (Raise (ValueError "Refresh token has been revoked"), later)).
Proof.
  assert (H : AuthService.refresh_access_token Scenario.jwt_encode
                Scenario.config "1" None None true
                (Scenario.serve_all [Api.PostRegister Scenario.alice None None]
                   Scenario.world)
              = (Return {| access_token := "jwt:k"; refresh_token := "2";
                           token_type := "bearer" |},
                 snd (AuthService.refresh_access_token Scenario.jwt_encode
                        Scenario.config "1" None None true
                        (Scenario.serve_all
                           [Api.PostRegister Scenario.alice None None]
                           Scenario.world)))).
  { apply pair_of_fst. vm_compute. reflexivity. }
  split; [exact H|].
  apply (rotation_is_single_use Scenario.hashpw Scenario.checkpw
           Scenario.jwt_encode Scenario.config "1" None None _ _ _
           [Api.PostLogin Scenario.alice_login None None] None None true H).
Defined.

(** C1 at a maximum of two sessions: Alice registers and logs in twice. *)
Lemma session_limit_is_enforced_witness :
  1 <= MAX_SESSIONS_PER_USER Scenario.config
  /\ (forall n, clock Scenario.world n <= clock Scenario.world (S n))
  /\ refresh_tokens (db Scenario.world) = []
  /\ clock (Scenario.serve_all Scenario.three_sessions Scenario.world) 0%nat <= 2000
  /\ AuthRepository.session_count 2000 1
       (refresh_tokens (db (Scenario.serve_all Scenario.three_sessions
                              Scenario.world)))
     <= MAX_SESSIONS_PER_USER Scenario.config
  /\ map RefreshToken.is_revoked
       (refresh_tokens (db (Scenario.serve_all Scenario.three_sessions
                              Scenario.world)))
     = [true; false; false].
Proof.
  assert (H1 : 1 <= MAX_SESSIONS_PER_USER Scenario.config) by (simpl; lia).
  assert (H2 : forall n, clock Scenario.world n <= clock Scenario.world (S n))
    by (intros n; simpl; lia).
  assert (H3 : clock (Scenario.serve_all Scenario.three_sessions Scenario.world)
                 0%nat <= 2000) by (vm_compute; discriminate).
  split; [exact H1|]. split; [exact H2|]. split; [reflexivity|].
  split; [exact H3|]. split; [|vm_compute; reflexivity].
  exact (proj1 (session_limit_is_enforced Scenario.hashpw Scenario.checkpw
                  Scenario.jwt_encode Scenario.config Scenario.three_sessions
                  Scenario.world 1 2000 H1 H2 eq_refl) H3).
Defined.

(** * Further properties of the code *)

(** ** The rate limiter: waiting, retrying and resetting *)
Section Waiting.

Import RateLimiter.


Lemma py_int_neg (x : Q) : (x <= 0)%Q -> py_int x = Qceiling x.
Proof.
  intros Hx. destruct x as [n d]. unfold Qceiling, Qfloor, Qopp, py_int, Qle in *.
  simpl in *.
  rewrite <- (Z.opp_involutive n) at 1.
  rewrite Z.quot_opp_l by lia.
  rewrite Z.quot_div_nonneg by lia. reflexivity.
Qed.

(** [int] truncates toward zero, so it never grows when its argument
    shrinks. *)
Lemma py_int_mono (x y : Q) : (x <= y)%Q -> py_int x <= py_int y.
Proof.
  intros Hxy.
  destruct (Qlt_le_dec x 0) as [Hx|Hx]; destruct (Qlt_le_dec y 0) as [Hy|Hy].
  - rewrite !py_int_neg by (apply Qlt_le_weak; assumption).
    apply Qceiling_resp_le, Hxy.
  - apply Z.le_trans with 0.
    + destruct x as [n d]. unfold py_int, Qlt in *. simpl in *.
      apply Z.quot_le_upper_bound; lia.
    + apply py_int_nonneg, Hy.
  - exfalso. apply (Qlt_irrefl 0).
    apply Qle_lt_trans with x; [exact Hx|].
    apply Qle_lt_trans with y; assumption.
  - rewrite !py_int_floor by assumption. apply Qfloor_resp_le, Hxy.
Qed.

Lemma filter_length_all {A : Type} (P : A -> Prop) `{!forall x, Decision (P x)}
    (l : list A) :
  length (filter P l) = length l -> filter P l = l.
Proof.
  induction l as [|a l IH]; [reflexivity|].
  rewrite filter_cons. destruct (decide (P a)); simpl; intros Hlen.
  - f_equal. apply IH. lia.
  - pose proof (length_filter P l). lia.
Qed.


Variable identifier : string.
Variables max_requests window_seconds : Z.

(** The oldest timestamp of a non-empty list belongs to one of its
    entries. *)
Lemma min_timestamp_entry (e : Q * Z) (rest : list (Q * Z)) :
  exists x, In x (e :: rest) /\ fst x = min_timestamp (fst e) rest.
Proof.
  destruct (min_timestamp_member (fst e) rest) as [Heq|Hin].
  - exists e. split; [left; reflexivity | symmetry; exact Heq].
  - apply in_map_iff in Hin as (x & Hx & Hin).
    exists x. split; [right; exact Hin | exact Hx].
Qed.

(** A denial against a history of single requests means the window is
    exactly full. *)
Lemma denied_window_is_full (current_time clean_time : Q) (retry_after : Z)
    (requests : requests_t) :
  quota_kept max_requests (entries_of requests identifier) ->
  fst (check_rate_limit current_time clean_time identifier max_requests
         window_seconds requests) = (false, Some retry_after) ->
  let survivors := kept clean_time window_seconds (entries_of requests identifier) in
  Forall (fun e => snd e = 1) survivors
  /\ Z.of_nat (length survivors) = max_requests
  /\ entries_of (snd (check_rate_limit current_time clean_time identifier
                        max_requests window_seconds requests)) identifier
     = survivors
  /\ retry_after
     = match survivors with
       | e :: rest =>
           py_int (inject_Z window_seconds
                   - (current_time - min_timestamp (fst e) rest))%Q + 1
       | [] => window_seconds
       end.
Proof.
  intros [Hones Hlen] Hdenied survivors.
  destruct (kept_sublist window_seconds clean_time _ Hones) as [Hones' Hlen'].
  fold survivors in Hones', Hlen'.
  rewrite check_rate_limit_result in Hdenied. fold survivors in Hdenied.
  rewrite check_rate_limit_entries. fold survivors.
  rewrite (sum_counts_ones _ Hones') in *.
  destruct (max_requests <=? Z.of_nat (length survivors)) eqn:Hfull;
    [|discriminate Hdenied].
  apply Z.leb_le in Hfull.
  repeat split; [exact Hones' | lia | congruence].
Qed.

End Waiting.



Section Retrying.

Import RateLimiter.

Variable identifier : string.
Variables max_requests window_seconds : Z.

Lemma kept_stale (clean_time : Q) (entries : list (Q * Z)) :
  Forall (fun e => (fst e <= clean_time - inject_Z window_seconds)%Q) entries ->
  kept clean_time window_seconds entries = [].
Proof.
  unfold kept. induction 1 as [|e entries He _ IH]; [reflexivity|].
  rewrite filter_cons, IH.
  destruct (decide _) as [Hin|]; [|reflexivity].
  apply Qlt_bool_Is_true in Hin. exfalso. apply (Qlt_irrefl (fst e)).
  apply Qle_lt_trans with (clean_time - inject_Z window_seconds)%Q; assumption.
Qed.

Lemma kept_member (clean_time : Q) (entries : list (Q * Z)) (x : Q * Z) :
  In x (kept clean_time window_seconds entries) -> In x entries.
Proof.
  unfold kept. rewrite <- !list_elem_of_In, list_elem_of_filter. tauto.
Qed.

(** An allowed check appends its own timestamp to what the pruning left. *)
Lemma allowed_appends (current_time clean_time : Q) (requests : requests_t) :
  fst (check_rate_limit current_time clean_time identifier max_requests
         window_seconds requests) = (true, None) ->
  entries_of (snd (check_rate_limit current_time clean_time identifier
                     max_requests window_seconds requests)) identifier
  = kept clean_time window_seconds (entries_of requests identifier)
    ++ [(current_time, 1)].
Proof.
  rewrite check_rate_limit_result, check_rate_limit_entries.
  destruct (max_requests <=? _); [discriminate | reflexivity].
Qed.

Lemma py_int_inject_Z (z : Z) : py_int (inject_Z z) = z.
Proof. unfold py_int. simpl. apply Z.quot_1_r. Qed.

End Retrying.

(** X2. Hammering a blocked identifier does not extend the block.  For an
    identifier that was only ever checked against this limit (its counts
    are one and there are at most [max_requests] of them), a denied check
    records nothing, so a second denial that follows a first one, at a
    reading of the clock that is no earlier, is computed from the same
    entries and announces a wait that is no longer. *)
Theorem repeated_denials_do_not_extend_the_wait
    (first_time first_clean second_time second_clean : Q) (identifier : string)
    (max_requests window_seconds first_retry second_retry : Z)
    (requests : RateLimiter.requests_t) :
  RateLimiter.quota_kept max_requests (RateLimiter.entries_of requests identifier) ->
  (first_time <= second_time)%Q ->
  fst (RateLimiter.check_rate_limit first_time first_clean identifier
         max_requests window_seconds requests) = (false, Some first_retry) ->
  fst (RateLimiter.check_rate_limit second_time second_clean identifier
         max_requests window_seconds
         (snd (RateLimiter.check_rate_limit first_time first_clean identifier
                 max_requests window_seconds requests)))
  = (false, Some second_retry) ->
  second_retry <= first_retry
  /\ RateLimiter.entries_of
       (snd (RateLimiter.check_rate_limit second_time second_clean identifier
               max_requests window_seconds
               (snd (RateLimiter.check_rate_limit first_time first_clean
                       identifier max_requests window_seconds requests))))
       identifier
     = RateLimiter.kept first_clean window_seconds
         (RateLimiter.entries_of requests identifier).
Proof.
  intros Hquota Hclock Hfirst Hsecond.
  destruct (denied_window_is_full _ _ _ _ _ _ _ Hquota Hfirst)
    as (Hones & Hlen & Hentries & Hretry).
  pose proof (check_rate_limit_quota identifier max_requests window_seconds
                first_time first_clean requests Hquota) as Hquota'.
  destruct (denied_window_is_full _ _ _ _ _ _ _ Hquota' Hsecond)
    as (_ & Hlen' & Hentries' & Hretry').
  rewrite Hentries in Hlen', Hentries', Hretry'.
  set (survivors := RateLimiter.kept first_clean window_seconds
                      (RateLimiter.entries_of requests identifier)) in *.
  assert (Hsame : RateLimiter.kept second_clean window_seconds survivors = survivors).
  { unfold RateLimiter.kept. apply filter_length_all.
    unfold RateLimiter.kept in Hlen'. lia. }
  rewrite Hsame in Hentries', Hretry'.
  split; [|exact Hentries'].
  rewrite Hretry, Hretry'.
  destruct survivors as [|e rest]; [lia|].
  apply Z.add_le_mono_r, py_int_mono. lra.
Qed.

Lemma repeated_denials_do_not_extend_the_wait_witness :
  RateLimiter.quota_kept 1
    (RateLimiter.entries_of {[ "ip"%string := [(10%Q, 1)] ]} "ip")
  /\ (30 <= 45)%Q
  /\ fst (RateLimiter.check_rate_limit 30 30 "ip" 1 60
            {[ "ip"%string := [(10%Q, 1)] ]}) = (false, Some 41)
  /\ fst (RateLimiter.check_rate_limit 45 45 "ip" 1 60
            (snd (RateLimiter.check_rate_limit 30 30 "ip" 1 60
                    {[ "ip"%string := [(10%Q, 1)] ]}))) = (false, Some 26)
  /\ 26 <= 41
  /\ RateLimiter.entries_of
       (snd (RateLimiter.check_rate_limit 45 45 "ip" 1 60
               (snd (RateLimiter.check_rate_limit 30 30 "ip" 1 60
                       {[ "ip"%string := [(10%Q, 1)] ]}))))
       "ip"
     = RateLimiter.kept 30 60
         (RateLimiter.entries_of {[ "ip"%string := [(10%Q, 1)] ]} "ip").
Proof.
  assert (Hquota : RateLimiter.quota_kept 1
            (RateLimiter.entries_of {[ "ip"%string := [(10%Q, 1)] ]} "ip")).
  { split; [repeat constructor | vm_compute; discriminate]. }
  assert (Hclock : (30 <= 45)%Q) by (vm_compute; discriminate).
  assert (Hfirst : fst (RateLimiter.check_rate_limit 30 30 "ip" 1 60
            {[ "ip"%string := [(10%Q, 1)] ]}) = (false, Some 41))
    by (vm_compute; reflexivity).
  assert (Hsecond : fst (RateLimiter.check_rate_limit 45 45 "ip" 1 60
            (snd (RateLimiter.check_rate_limit 30 30 "ip" 1 60
                    {[ "ip"%string := [(10%Q, 1)] ]}))) = (false, Some 26))
    by (vm_compute; reflexivity).
  split; [exact Hquota|]. split; [exact Hclock|]. split; [exact Hfirst|].
  split; [exact Hsecond|].
  apply (repeated_denials_do_not_extend_the_wait 30 30 45 45 "ip" 1 60 41 26
           {[ "ip"%string := [(10%Q, 1)] ]} Hquota Hclock Hfirst Hsecond).
Defined.

(** X3. Silence restores the quota.  When every recorded request of an
    identifier is at least one window old, its next [max_requests] checks
    inside one window are all allowed. *)
Theorem silence_restores_the_quota
    (identifier : string) (max_requests window_seconds : Z) (opened : Q)
    (first : Q * Q) (clocks : list (Q * Q)) (requests : RateLimiter.requests_t) :
  Forall (fun e => (fst e <= snd first - inject_Z window_seconds)%Q)
    (RateLimiter.entries_of requests identifier) ->
  Forall (RateLimiterSpec.within_window opened window_seconds) (first :: clocks) ->
  Z.of_nat (length (first :: clocks)) <= max_requests ->
  let '(results, requests') :=
    RateLimiter.check_many (first :: clocks) identifier max_requests
      window_seconds requests in
  Forall (fun r => r = (true, None)) results
  /\ RateLimiter.entries_of requests' identifier
     = map (fun c => (fst c, 1)) (first :: clocks).
Proof.
  intros Hstale Hwindow Hlen.
  destruct first as [current_time clean_time]. simpl in Hstale.
  cbn [RateLimiter.check_many].
  pose proof (check_rate_limit_result current_time clean_time identifier
                max_requests window_seconds requests) as Hres.
  pose proof (check_rate_limit_entries current_time clean_time identifier
                max_requests window_seconds requests) as Hent.
  rewrite (kept_stale _ _ _ Hstale) in Hres, Hent.
  change (RateLimiter.sum_counts []) with 0 in Hres, Hent.
  simpl length in Hlen.
  destruct (max_requests <=? 0) eqn:Hmax; [apply Z.leb_le in Hmax; lia|].
  destruct (RateLimiter.check_rate_limit current_time clean_time identifier
              max_requests window_seconds requests) as [result requests1].
  simpl in Hres, Hent. subst result.
  apply Forall_cons in Hwindow as [Hfirst Hrest].
  pose proof (check_many_allowed identifier max_requests window_seconds opened
                clocks requests1) as Hmany.
  rewrite Hent in Hmany.
  destruct (RateLimiter.check_many clocks identifier max_requests
              window_seconds requests1) as [results requests2].
  destruct Hmany as [Hall Hentries].
  - constructor; [|constructor]. split; [reflexivity|].
    destruct Hfirst as [Ho _]. exact Ho.
  - simpl length. lia.
  - exact Hrest.
  - split; [constructor; [reflexivity | exact Hall]|].
    rewrite Hentries. reflexivity.
Qed.

Lemma silence_restores_the_quota_witness :
  Forall (fun e => (fst e <= snd (100%Q, 100%Q) - inject_Z 60)%Q)
    (RateLimiter.entries_of
       {[ "ip"%string := [(10%Q, 1); (20%Q, 1)] ]} "ip")
  /\ Forall (RateLimiterSpec.within_window 100 60) [(100%Q, 100%Q); (130%Q, 130%Q)]
  /\ Z.of_nat (length [(100%Q, 100%Q); (130%Q, 130%Q)]) <= 2
  /\ (let '(results, requests') :=
        RateLimiter.check_many [(100%Q, 100%Q); (130%Q, 130%Q)] "ip" 2 60
          {[ "ip"%string := [(10%Q, 1); (20%Q, 1)] ]} in
      Forall (fun r => r = (true, None)) results
      /\ RateLimiter.entries_of requests' "ip"
         = map (fun c => (fst c, 1)) [(100%Q, 100%Q); (130%Q, 130%Q)]).
Proof.
  assert (Hstale : Forall (fun e => (fst e <= snd (100%Q, 100%Q) - inject_Z 60)%Q)
            (RateLimiter.entries_of
               {[ "ip"%string := [(10%Q, 1); (20%Q, 1)] ]} "ip")).
  { repeat constructor; vm_compute; discriminate. }
  assert (Hwindow : Forall (RateLimiterSpec.within_window 100 60)
            [(100%Q, 100%Q); (130%Q, 130%Q)]).
  { repeat constructor; vm_compute; first [discriminate | reflexivity]. }
  assert (Hlen : Z.of_nat (length [(100%Q, 100%Q); (130%Q, 130%Q)]) <= 2)
    by (simpl; lia).
  split; [exact Hstale|]. split; [exact Hwindow|]. split; [exact Hlen|].
  apply (silence_restores_the_quota "ip" 2 60 100 (100%Q, 100%Q) [(130%Q, 130%Q)]
           {[ "ip"%string := [(10%Q, 1); (20%Q, 1)] ]} Hstale Hwindow Hlen).
Defined.

(** X4. [reset] gives an identifier a fresh quota, whatever its history:
    the next check against a positive limit is allowed and leaves this one
    request on record, and no other identifier is touched. *)
Theorem reset_gives_a_fresh_quota
    (current_time clean_time : Q) (identifier : string)
    (max_requests window_seconds : Z) (requests : RateLimiter.requests_t) :
  1 <= max_requests ->
  let checked :=
    RateLimiter.check_rate_limit current_time clean_time identifier
      max_requests window_seconds (RateLimiter.reset identifier requests) in
  fst checked = (true, None)
  /\ RateLimiter.entries_of (snd checked) identifier = [(current_time, 1)]
  /\ forall other, other <> identifier -> snd checked !! other = requests !! other.
Proof.
  intros Hmax checked.
  assert (Hgone : RateLimiter.entries_of (RateLimiter.reset identifier requests)
                    identifier = []).
  { unfold RateLimiter.entries_of, RateLimiter.reset.
    destruct (requests !! identifier) eqn:Hfound.
    - rewrite lookup_delete_eq. reflexivity.
    - rewrite Hfound. reflexivity. }
  assert (Hmax' : (max_requests <=? 0) = false) by (apply Z.leb_gt; lia).
  split; [|split].
  - unfold checked. rewrite check_rate_limit_result, Hgone. cbn.
    rewrite Hmax'. reflexivity.
  - unfold checked. rewrite check_rate_limit_entries, Hgone. cbn.
    rewrite Hmax'. reflexivity.
  - intros other Hother. unfold checked.
    rewrite check_rate_limit_frame by exact Hother.
    unfold RateLimiter.reset.
    destruct (requests !! identifier); [|reflexivity].
    apply lookup_delete_ne. congruence.
Qed.

Lemma reset_gives_a_fresh_quota_witness :
  1 <= 1
  /\ (let checked :=
        RateLimiter.check_rate_limit 30 30 "ip" 1 60
          (RateLimiter.reset "ip" {[ "ip"%string := [(10%Q, 1)] ]}) in
      fst checked = (true, None)
      /\ RateLimiter.entries_of (snd checked) "ip" = [(30%Q, 1)]
      /\ forall other,
          other <> "ip"%string ->
          snd checked !! other
          = ({[ "ip"%string := [(10%Q, 1)] ]} : RateLimiter.requests_t) !! other).
Proof.
  split; [lia|].
  apply (reset_gives_a_fresh_quota 30 30 "ip" 1 60
           {[ "ip"%string := [(10%Q, 1)] ]}); lia.
Defined.

(** X5. The announced wait is never longer than the window.  With a clock
    that does not run backwards and no request recorded in the future, a
    denial announces between one second and [window_seconds + 1]
    seconds. *)
Theorem retry_after_is_within_the_window
    (current_time clean_time : Q) (identifier : string)
    (max_requests window_seconds retry_after : Z)
    (requests : RateLimiter.requests_t) :
  0 < window_seconds ->
  (current_time <= clean_time)%Q ->
  Forall (fun e => (fst e <= current_time)%Q)
    (RateLimiter.entries_of requests identifier) ->
  fst (RateLimiter.check_rate_limit current_time clean_time identifier
         max_requests window_seconds requests) = (false, Some retry_after) ->
  1 <= retry_after <= window_seconds + 1.
Proof.
  intros Hwindow Hclock Hpast Hdenied.
  split.
  { pose proof (denied_retry_after_positive _ _ _ _ _ _ _ Hwindow Hclock Hdenied).
    lia. }
  rewrite check_rate_limit_result in Hdenied.
  destruct (max_requests <=? _); [|discriminate Hdenied].
  injection Hdenied as <-.
  destruct (RateLimiter.kept clean_time window_seconds
              (RateLimiter.entries_of requests identifier)) as [|e rest] eqn:Hkept;
    [lia|].
  destruct (min_timestamp_entry e rest) as (x & Hin & Hx).
  rewrite <- Hkept in Hin. apply kept_member in Hin.
  rewrite List.Forall_forall in Hpast. specialize (Hpast x Hin).
  apply Z.add_le_mono_r.
  rewrite <- (py_int_inject_Z window_seconds) at 2.
  apply py_int_mono. rewrite <- Hx. lra.
Qed.

Lemma retry_after_is_within_the_window_witness :
  0 < 60
  /\ (30 <= 30)%Q
  /\ Forall (fun e => (fst e <= 30)%Q)
       (RateLimiter.entries_of {[ "ip"%string := [(10%Q, 1)] ]} "ip")
  /\ fst (RateLimiter.check_rate_limit 30 30 "ip" 1 60
            {[ "ip"%string := [(10%Q, 1)] ]}) = (false, Some 41)
  /\ 1 <= 41 <= 60 + 1.
Proof.
  assert (Hclock : (30 <= 30)%Q) by (vm_compute; discriminate).
  assert (Hpast : Forall (fun e => (fst e <= 30)%Q)
            (RateLimiter.entries_of {[ "ip"%string := [(10%Q, 1)] ]} "ip")).
  { repeat constructor; vm_compute; discriminate. }
  assert (Hdenied : fst (RateLimiter.check_rate_limit 30 30 "ip" 1 60
            {[ "ip"%string := [(10%Q, 1)] ]}) = (false, Some 41))
    by (vm_compute; reflexivity).
  split; [lia|]. split; [exact Hclock|]. split; [exact Hpast|].
  split; [exact Hdenied|].
  apply (retry_after_is_within_the_window 30 30 "ip" 1 60 41
           {[ "ip"%string := [(10%Q, 1)] ]}); [lia | exact Hclock | exact Hpast
           | exact Hdenied].
Defined.

(** ** The tiers: what a request leaves on record *)
Section TierRecords.

Import RateLimiter.

Variable config : Config.
Variables clock_minute clock_hour clock_day : Q * Q.
Variable identifier : string.
Variable requests : requests_t.

Let minute := ("minute:" ++ identifier)%string.
Let hour := ("hour:" ++ identifier)%string.
Let day := ("day:" ++ identifier)%string.
Let check_minute :=
  check_rate_limit (fst clock_minute) (snd clock_minute) minute
    (RATE_LIMIT_PER_MINUTE config) 60 requests.
Let check_hour :=
  check_rate_limit (fst clock_hour) (snd clock_hour) hour
    (RATE_LIMIT_PER_HOUR config) 3600 (snd check_minute).
Let check_day :=
  check_rate_limit (fst clock_day) (snd clock_day) day
    (RATE_LIMIT_PER_DAY config) 86400 (snd check_hour).

(** [check_all_rate_limits] stops at the first tier that denies. *)
Lemma check_all_rate_limits_cases :
  RATE_LIMIT_ENABLED config = true ->
  let all := check_all_rate_limits config clock_minute clock_hour clock_day
               identifier requests in
  (exists e, fst check_minute <> (true, None) /\ all = (Raise e, snd check_minute))
  \/ (exists e, fst check_minute = (true, None) /\ fst check_hour <> (true, None)
                /\ all = (Raise e, snd check_hour))
  \/ (exists e, fst check_minute = (true, None) /\ fst check_hour = (true, None)
                /\ fst check_day <> (true, None)
                /\ all = (Raise e, snd check_day))
  \/ (fst check_minute = (true, None) /\ fst check_hour = (true, None)
      /\ fst check_day = (true, None) /\ all = (Return tt, snd check_day)).
Proof.
  intros Henabled all. unfold all.
  unfold check_all_rate_limits, check_rate_limit_per_minute,
    check_rate_limit_per_hour, check_rate_limit_per_day.
  rewrite Henabled.
  destruct (check_rate_limit_or_raise_spec (fst clock_minute) (snd clock_minute)
              minute (RATE_LIMIT_PER_MINUTE config) 60 requests) as [Sm Rm].
  fold minute. fold check_minute in Sm, Rm.
  destruct (check_rate_limit_or_raise _ _ minute _ _ _) as [res_m req_m].
  simpl in Sm, Rm. subst req_m.
  destruct Rm as [[Vm ->] | (r & Vm & ->)].
  2:{ left. eexists. split; [|reflexivity]. rewrite Vm. discriminate. }
  destruct (check_rate_limit_or_raise_spec (fst clock_hour) (snd clock_hour)
              hour (RATE_LIMIT_PER_HOUR config) 3600 (snd check_minute)) as [Sh Rh].
  fold hour. fold check_hour in Sh, Rh.
  destruct (check_rate_limit_or_raise _ _ hour _ _ _) as [res_h req_h].
  simpl in Sh, Rh. subst req_h.
  destruct Rh as [[Vh ->] | (r & Vh & ->)].
  2:{ right. left. eexists. split; [exact Vm|]. split; [|reflexivity].
      rewrite Vh. discriminate. }
  destruct (check_rate_limit_or_raise_spec (fst clock_day) (snd clock_day)
              day (RATE_LIMIT_PER_DAY config) 86400 (snd check_hour)) as [Sd Rd].
  fold day. fold check_day in Sd, Rd.
  destruct (check_rate_limit_or_raise _ _ day _ _ _) as [res_d req_d].
  simpl in Sd, Rd. subst req_d.
  destruct Rd as [[Vd ->] | (r & Vd & ->)].
  - right. right. right. repeat split; assumption.
  - right. right. left. eexists. split; [exact Vm|]. split; [exact Vh|].
    split; [|reflexivity]. rewrite Vd. discriminate.
Qed.

(** What the minute tier recorded survives the checks of the later tiers. *)
Lemma minute_entries_survive :
  entries_of (snd check_hour) minute = entries_of (snd check_minute) minute
  /\ entries_of (snd check_day) minute = entries_of (snd check_minute) minute.
Proof.
  destruct (tier_keys_differ identifier identifier identifier) as (Kmh & Kmd & _).
  unfold entries_of, check_day, check_hour.
  rewrite !check_rate_limit_frame by assumption. split; reflexivity.
Qed.

End TierRecords.

(** X6. With [RATE_LIMIT_ENABLED] set, a request that passes
    [check_all_rate_limits] is counted once by each tier: every tier's list
    is pruned to its own window and gets one entry for this request, and
    the lists of all other keys stay as they were. *)
Theorem check_all_rate_limits_counts_every_tier
    (config : Config) (clock_minute clock_hour clock_day : Q * Q)
    (identifier : string) (requests requests' : RateLimiter.requests_t) :
  RATE_LIMIT_ENABLED config = true ->
  RateLimiter.check_all_rate_limits config clock_minute clock_hour clock_day
    identifier requests = (Return tt, requests') ->
  let minute := ("minute:" ++ identifier)%string in
  let hour := ("hour:" ++ identifier)%string in
  let day := ("day:" ++ identifier)%string in
  RateLimiter.entries_of requests' minute
  = RateLimiter.kept (snd clock_minute) 60 (RateLimiter.entries_of requests minute)
    ++ [(fst clock_minute, 1)]
  /\ RateLimiter.entries_of requests' hour
     = RateLimiter.kept (snd clock_hour) 3600 (RateLimiter.entries_of requests hour)
       ++ [(fst clock_hour, 1)]
  /\ RateLimiter.entries_of requests' day
     = RateLimiter.kept (snd clock_day) 86400 (RateLimiter.entries_of requests day)
       ++ [(fst clock_day, 1)]
  /\ forall other,
      other <> minute -> other <> hour -> other <> day ->
      requests' !! other = requests !! other.
Proof.
  intros Henabled Hall minute hour day.
  destruct (tier_keys_differ identifier identifier identifier) as (Kmh & Kmd & Khd).
  fold minute hour day in Kmh, Kmd, Khd.
  destruct (check_all_rate_limits_cases config clock_minute clock_hour clock_day
              identifier requests Henabled)
    as [(e & _ & Hcase) | [(e & _ & _ & Hcase) | [(e & _ & _ & _ & Hcase)
       | (Vm & Vh & Vd & Hcase)]]];
    rewrite Hall in Hcase; try discriminate Hcase.
  injection Hcase as ->.
  fold minute hour day in Vm, Vh, Vd |- *.
  apply allowed_appends in Vm, Vh, Vd.
  split; [|split; [|split]].
  - unfold RateLimiter.entries_of at 1.
    rewrite !check_rate_limit_frame by assumption. exact Vm.
  - unfold RateLimiter.entries_of at 1.
    rewrite check_rate_limit_frame by assumption.
    fold (RateLimiter.entries_of
            (snd (RateLimiter.check_rate_limit (fst clock_hour) (snd clock_hour)
                    hour (RATE_LIMIT_PER_HOUR config) 3600
                    (snd (RateLimiter.check_rate_limit (fst clock_minute)
                            (snd clock_minute) minute
                            (RATE_LIMIT_PER_MINUTE config) 60 requests)))) hour).
    rewrite Vh. unfold RateLimiter.entries_of at 1.
    rewrite check_rate_limit_frame by (apply not_eq_sym; assumption).
    reflexivity.
  - rewrite Vd. unfold RateLimiter.entries_of at 1.
    rewrite !check_rate_limit_frame by (apply not_eq_sym; assumption).
    reflexivity.
  - intros other Hm Hh Hd.
    rewrite !check_rate_limit_frame by assumption. reflexivity.
Qed.

Lemma check_all_rate_limits_counts_every_tier_witness :
  RATE_LIMIT_ENABLED Scenario.config = true
  /\ RateLimiter.check_all_rate_limits Scenario.config (2%Q, 2%Q) (2%Q, 2%Q)
       (2%Q, 2%Q) "ip" ∅
     = (Return tt,
        snd (RateLimiter.check_all_rate_limits Scenario.config (2%Q, 2%Q)
               (2%Q, 2%Q) (2%Q, 2%Q) "ip" ∅))
  /\ RateLimiter.entries_of
       (snd (RateLimiter.check_all_rate_limits Scenario.config (2%Q, 2%Q)
               (2%Q, 2%Q) (2%Q, 2%Q) "ip" ∅)) "minute:ip"
     = RateLimiter.kept 2 60 (RateLimiter.entries_of ∅ "minute:ip") ++ [(2%Q, 1)].
Proof.
  assert (Henabled : RATE_LIMIT_ENABLED Scenario.config = true) by reflexivity.
  assert (Hall : RateLimiter.check_all_rate_limits Scenario.config (2%Q, 2%Q)
                   (2%Q, 2%Q) (2%Q, 2%Q) "ip" ∅
                 = (Return tt,
                    snd (RateLimiter.check_all_rate_limits Scenario.config
                           (2%Q, 2%Q) (2%Q, 2%Q) (2%Q, 2%Q) "ip" ∅))).
  { apply pair_of_fst. vm_compute. reflexivity. }
  split; [exact Henabled|]. split; [exact Hall|].
  apply (check_all_rate_limits_counts_every_tier Scenario.config (2%Q, 2%Q)
           (2%Q, 2%Q) (2%Q, 2%Q) "ip" ∅ _ Henabled Hall).
Defined.

(** X7. A request that a later tier rejects has still used a slot of the
    minute tier: when the minute check allows the request and
    [check_all_rate_limits] raises all the same, the request stays
    recorded under the minute key. *)
Theorem rejected_by_a_later_tier_still_counts
    (config : Config) (clock_minute clock_hour clock_day : Q * Q)
    (identifier : string) (requests requests' : RateLimiter.requests_t)
    (e : PyException) :
  RateLimiter.check_all_rate_limits config clock_minute clock_hour clock_day
    identifier requests = (Raise e, requests') ->
  fst (RateLimiter.check_rate_limit (fst clock_minute) (snd clock_minute)
         ("minute:" ++ identifier) (RATE_LIMIT_PER_MINUTE config) 60 requests)
  = (true, None) ->
  RateLimiter.entries_of requests' ("minute:" ++ identifier)
  = RateLimiter.kept (snd clock_minute) 60
      (RateLimiter.entries_of requests ("minute:" ++ identifier))
    ++ [(fst clock_minute, 1)].
Proof.
  intros Hall Vm.
  assert (Henabled : RATE_LIMIT_ENABLED config = true).
  { unfold RateLimiter.check_all_rate_limits, RateLimiter.check_rate_limit_per_minute,
      RateLimiter.check_rate_limit_per_hour, RateLimiter.check_rate_limit_per_day
      in Hall.
    destruct (RATE_LIMIT_ENABLED config); [reflexivity | discriminate Hall]. }
  destruct (minute_entries_survive config clock_minute clock_hour clock_day
              identifier requests) as [Hhour Hday].
  pose proof (allowed_appends _ _ _ _ _ _ Vm) as Hminute.
  destruct (check_all_rate_limits_cases config clock_minute clock_hour clock_day
              identifier requests Henabled)
    as [(e' & Vm' & _) | [(e' & _ & _ & Hcase) | [(e' & _ & _ & _ & Hcase)
       | (_ & _ & _ & Hcase)]]].
  - contradiction.
  - rewrite Hall in Hcase. injection Hcase as _ ->.
    rewrite Hhour. exact Hminute.
  - rewrite Hall in Hcase. injection Hcase as _ ->.
    rewrite Hday. exact Hminute.
  - rewrite Hall in Hcase. discriminate Hcase.
Qed.

Lemma rejected_by_a_later_tier_still_counts_witness :
  RateLimiter.check_all_rate_limits Samples.hourly (2%Q, 2%Q) (2%Q, 2%Q)
    (2%Q, 2%Q) "ip" Samples.used_hour
  = (Raise (RateLimitError "Rate limit exceeded. Try again in 3600 seconds."
              {[ "retry_after"%string := 3600 ]}),
     snd (RateLimiter.check_all_rate_limits Samples.hourly (2%Q, 2%Q) (2%Q, 2%Q)
            (2%Q, 2%Q) "ip" Samples.used_hour))
  /\ fst (RateLimiter.check_rate_limit (fst (2%Q, 2%Q)) (snd (2%Q, 2%Q))
            ("minute:" ++ "ip") (RATE_LIMIT_PER_MINUTE Samples.hourly) 60
            Samples.used_hour)
     = (true, None)
  /\ RateLimiter.entries_of
       (snd (RateLimiter.check_all_rate_limits Samples.hourly (2%Q, 2%Q)
               (2%Q, 2%Q) (2%Q, 2%Q) "ip" Samples.used_hour))
       ("minute:" ++ "ip")
     = RateLimiter.kept (snd (2%Q, 2%Q)) 60
         (RateLimiter.entries_of Samples.used_hour ("minute:" ++ "ip"))
       ++ [(fst (2%Q, 2%Q), 1)].
Proof.
  assert (Hall :
    RateLimiter.check_all_rate_limits Samples.hourly (2%Q, 2%Q) (2%Q, 2%Q)
      (2%Q, 2%Q) "ip" Samples.used_hour
    = (Raise (RateLimitError "Rate limit exceeded. Try again in 3600 seconds."
                {[ "retry_after"%string := 3600 ]}),
       snd (RateLimiter.check_all_rate_limits Samples.hourly (2%Q, 2%Q)
              (2%Q, 2%Q) (2%Q, 2%Q) "ip" Samples.used_hour))).
  { apply pair_of_fst. vm_compute. reflexivity. }
  assert (Hminute :
    fst (RateLimiter.check_rate_limit (fst (2%Q, 2%Q)) (snd (2%Q, 2%Q))
           ("minute:" ++ "ip") (RATE_LIMIT_PER_MINUTE Samples.hourly) 60
           Samples.used_hour)
    = (true, None)) by (vm_compute; reflexivity).
  split; [exact Hall|]. split; [exact Hminute|].
  apply (rejected_by_a_later_tier_still_counts Samples.hourly (2%Q, 2%Q)
           (2%Q, 2%Q) (2%Q, 2%Q) "ip" Samples.used_hour _ _ Hall Hminute).
Defined.

(** ** Registration, refreshing and logging out: what a failure leaves behind *)
Ltac run_service :=
  unfold AuthService.create_access_token, AuthRepository.get_refresh_token,
    AuthRepository.get_user_by_id, AuthRepository.get_user_by_username,
    AuthRepository.get_user_by_email, AuthRepository.revoke_refresh_token,
    AuthRepository.create_refresh_token, AuthRepository.create_user,
    generate_refresh_token, bind, ret, raise, lift, get_database, put_database,
    datetime_now, draw_entropy in *;
  cbn [db clock entropy fst snd users refresh_tokens] in *.

(** X8. Registration refuses a taken username or email and writes nothing.
    The username is looked up first, so a request that clashes on both is
    told about the username; and a registration that succeeds found
    neither. *)
Theorem duplicate_registration_changes_nothing
    (hashpw : string -> string -> string)
    (jwt_encode : Security.claims_t -> string -> string -> option string)
    (config : Config) (user_data : UserRegister)
    (user_agent ip_address : option string) (w : World) :
  let by_username :=
    AuthRepository.find_username (register_username user_data) (users (db w)) in
  let by_email :=
    AuthRepository.find_email (register_email user_data) (users (db w)) in
  let outcome :=
    AuthService.register_user hashpw jwt_encode config user_data user_agent
      ip_address w in
  (by_username <> None ->
   outcome = (Raise (ValueError "Username already exists"), w)
   /\ Api.register hashpw jwt_encode config user_data user_agent ip_address w
      = (Raise (HTTPException 400 "Username already exists"), w))
  /\ (by_username = None -> by_email <> None ->
      outcome = (Raise (ValueError "Email already exists"), w)
      /\ Api.register hashpw jwt_encode config user_data user_agent ip_address w
         = (Raise (HTTPException 400 "Email already exists"), w))
  /\ (forall tokens, fst outcome = Return tokens ->
        by_username = None /\ by_email = None).
Proof.
  intros by_username by_email outcome. subst by_username by_email outcome.
  unfold Api.register, Api.http_errors, AuthService.register_user.
  unfold AuthRepository.get_user_by_username, AuthRepository.get_user_by_email,
    bind, ret, raise, get_database.
  cbn [fst snd].
  destruct (AuthRepository.find_username _ _) as [u|];
    [|destruct (AuthRepository.find_email _ _) as [u'|]].
  - split; [intros _; split; reflexivity|].
    split; [intros [=]|]. cbn. intros tokens [=].
  - split; [intros []; reflexivity|].
    split; [intros _ _; split; reflexivity|]. cbn. intros tokens [=].
  - split; [intros []; reflexivity|].
    split; [intros _ []; reflexivity|]. intros _ _. split; reflexivity.
Qed.

(** A refresh that ends in a [ValueError] has written nothing, and the
    message names the test that failed. *)
Lemma refresh_value_error
    (jwt_encode : Security.claims_t -> string -> string -> option string)
    (config : Config) (refresh : string) (user_agent ip_address : option string)
    (rotate : bool) (w : World) (msg : string) :
  fst (AuthService.refresh_access_token jwt_encode config refresh user_agent
         ip_address rotate w) = Raise (ValueError msg) ->
  db (snd (AuthService.refresh_access_token jwt_encode config refresh user_agent
             ip_address rotate w)) = db w
  /\ match AuthRepository.find_token refresh (refresh_tokens (db w)) with
     | None => msg = "Invalid refresh token"%string
     | Some r =>
         if RefreshToken.is_revoked r
         then msg = "Refresh token has been revoked"%string
         else if RefreshToken.expires_at r <? clock w 0%nat
         then msg = "Refresh token has expired"%string
         else match AuthRepository.find_user (RefreshToken.user_id r)
                      (users (db w)) with
              | None => msg = "User not found"%string
              | Some user =>
                  User.is_active user = false
                  /\ msg = "Account is inactive"%string
              end
     end.
Proof.
  unfold AuthService.refresh_access_token. run_service.
  destruct (AuthRepository.find_token refresh (refresh_tokens (db w))) as [r|];
    [|cbn; intros [= <-]; split; reflexivity].
  destruct (RefreshToken.is_revoked r);
    [cbn; intros [= <-]; split; reflexivity|].
  cbn [fst snd db clock entropy users refresh_tokens].
  destruct (RefreshToken.expires_at r <? clock w 0%nat);
    [cbn; intros [= <-]; split; reflexivity|].
  cbn [fst snd db clock entropy users refresh_tokens].
  destruct (AuthRepository.find_user (RefreshToken.user_id r) (users (db w)))
    as [user|]; [|cbn; intros [= <-]; split; reflexivity].
  destruct (User.is_active user);
    [|cbn; intros [= <-]; split; [reflexivity | split; reflexivity]].
  cbn [negb fst snd db clock entropy users refresh_tokens].
  destruct (Security.create_access_token jwt_encode config _ _ _ _) as [access|e] eqn:Hjwt.
  2:{ unfold Security.create_access_token in Hjwt.
      destruct (jwt_encode _ _ _); [discriminate Hjwt|].
      injection Hjwt as <-. cbn. discriminate. }
  destruct rotate; [|cbn; discriminate].
  cbn [fst snd db clock entropy users refresh_tokens].
  destruct (existsb _ _); cbn; discriminate.
Qed.


(** X9. A refresh that is refused has changed nothing in the database, and
    the refusal names the first test that failed, in the order unknown
    token, revoked, expired, owner missing, owner inactive: a token that is
    both revoked and expired is reported as revoked.  These five messages
    are the only ones. *)
Theorem rejected_refresh_changes_nothing
    (jwt_encode : Security.claims_t -> string -> string -> option string)
    (config : Config) (refresh : string) (user_agent ip_address : option string)
    (rotate : bool) (w : World) (msg : string) :
  fst (AuthService.refresh_access_token jwt_encode config refresh user_agent
         ip_address rotate w) = Raise (ValueError msg) ->
  db (snd (AuthService.refresh_access_token jwt_encode config refresh user_agent
             ip_address rotate w)) = db w
  /\ In msg ["Invalid refresh token"; "Refresh token has been revoked";
             "Refresh token has expired"; "User not found";
             "Account is inactive"]%string
  /\ match AuthRepository.find_token refresh (refresh_tokens (db w)) with
     | None => msg = "Invalid refresh token"%string
     | Some r =>
         if RefreshToken.is_revoked r
         then msg = "Refresh token has been revoked"%string
         else if RefreshToken.expires_at r <? clock w 0%nat
         then msg = "Refresh token has expired"%string
         else match AuthRepository.find_user (RefreshToken.user_id r)
                      (users (db w)) with
              | None => msg = "User not found"%string
              | Some user =>
                  User.is_active user = false
                  /\ msg = "Account is inactive"%string
              end
     end.
Proof.
  intros Hrefused.
  destruct (refresh_value_error jwt_encode config refresh user_agent ip_address
              rotate w msg Hrefused) as [Hdb Hfirst].
  split; [exact Hdb|]. split; [|exact Hfirst].
  destruct (AuthRepository.find_token refresh (refresh_tokens (db w))) as [r|];
    [|subst msg; simpl; tauto].
  destruct (RefreshToken.is_revoked r); [subst msg; simpl; tauto|].
  destruct (RefreshToken.expires_at r <? clock w 0%nat);
    [subst msg; simpl; tauto|].
  destruct (AuthRepository.find_user _ _) as [user|];
    [destruct Hfirst as [_ ->] | subst msg]; simpl; tauto.
Qed.

Lemma rejected_refresh_changes_nothing_witness :
  fst (AuthService.refresh_access_token Scenario.jwt_encode Scenario.config
         "spent" None None true Samples.spent_world)
  = Raise (ValueError "Refresh token has been revoked")
  /\ RefreshToken.expires_at Samples.spent < clock Samples.spent_world 0%nat
  /\ db (snd (AuthService.refresh_access_token Scenario.jwt_encode
                Scenario.config "spent" None None true Samples.spent_world))
     = db Samples.spent_world.
Proof.
  assert (Hraised :
    fst (AuthService.refresh_access_token Scenario.jwt_encode Scenario.config
           "spent" None None true Samples.spent_world)
    = Raise (ValueError "Refresh token has been revoked"))
    by (vm_compute; reflexivity).
  split; [exact Hraised|]. split; [vm_compute; reflexivity|].
  apply (rejected_refresh_changes_nothing Scenario.jwt_encode Scenario.config
           "spent" None None true Samples.spent_world
           "Refresh token has been revoked" Hraised).
Defined.

(** X10. Without rotation a refresh consumes nothing: the caller gets the
    presented refresh token back, the database is left as it was, and the
    token is still unrevoked afterwards. *)
Theorem refresh_without_rotation_keeps_the_token
    (jwt_encode : Security.claims_t -> string -> string -> option string)
    (config : Config) (refresh : string) (user_agent ip_address : option string)
    (w w' : World) (tokens : TokenResponse) :
  AuthService.refresh_access_token jwt_encode config refresh user_agent
    ip_address false w = (Return tokens, w') ->
  refresh_token tokens = refresh
  /\ db w' = db w
  /\ (forall n, clock w' n = clock w (3 + n)%nat)
  /\ exists r,
      AuthRepository.find_token refresh (refresh_tokens (db w')) = Some r
      /\ RefreshToken.is_revoked r = false
      /\ clock w 0%nat <= RefreshToken.expires_at r.
Proof.
  unfold AuthService.refresh_access_token. run_service.
  destruct (AuthRepository.find_token refresh (refresh_tokens (db w)))
    as [r|] eqn:Hfound; [|discriminate].
  destruct (RefreshToken.is_revoked r) eqn:Hrevoked; [discriminate|].
  cbn [fst snd db clock entropy users refresh_tokens].
  destruct (RefreshToken.expires_at r <? clock w 0%nat) eqn:Hexpired;
    [discriminate|].
  cbn [fst snd db clock entropy users refresh_tokens].
  destruct (AuthRepository.find_user (RefreshToken.user_id r) (users (db w)))
    as [user|]; [|discriminate].
  destruct (User.is_active user); [|discriminate].
  cbn [negb fst snd db clock entropy users refresh_tokens].
  destruct (Security.create_access_token jwt_encode config _ _ _ _) as [access|e];
    [|discriminate].
  intros [= <- <-]. cbn.
  split; [reflexivity|]. split; [reflexivity|]. split; [reflexivity|].
  exists r. rewrite Hfound. split; [reflexivity|]. split; [exact Hrevoked|].
  apply Z.ltb_ge in Hexpired. exact Hexpired.
Qed.

Lemma refresh_without_rotation_keeps_the_token_witness :
  AuthService.refresh_access_token Scenario.jwt_encode Scenario.config "1" None
    None false Samples.registered
  = (Return {| access_token := "jwt:k"; refresh_token := "1";
               token_type := "bearer" |},
     snd (AuthService.refresh_access_token Scenario.jwt_encode Scenario.config
            "1" None None false Samples.registered))
  /\ (let w' := snd (AuthService.refresh_access_token Scenario.jwt_encode
                       Scenario.config "1" None None false Samples.registered) in
      "1"%string = "1"%string
      /\ db w' = db Samples.registered
      /\ (forall n, clock w' n = clock Samples.registered (3 + n)%nat)
      /\ exists r,
          AuthRepository.find_token "1" (refresh_tokens (db w')) = Some r
          /\ RefreshToken.is_revoked r = false
          /\ clock Samples.registered 0%nat <= RefreshToken.expires_at r).
Proof.
  assert (Hrefreshed :
    AuthService.refresh_access_token Scenario.jwt_encode Scenario.config "1" None
      None false Samples.registered
    = (Return {| access_token := "jwt:k"; refresh_token := "1";
                 token_type := "bearer" |},
       snd (AuthService.refresh_access_token Scenario.jwt_encode Scenario.config
              "1" None None false Samples.registered))).
  { apply pair_of_fst. vm_compute. reflexivity. }
  split; [exact Hrefreshed|].
  apply (refresh_without_rotation_keeps_the_token Scenario.jwt_encode
           Scenario.config "1" None None Samples.registered _ _ Hrefreshed).
Defined.

(** X11. Logging out ends the session for good: once [logout_user] has
    returned for a refresh token, no sequence of later requests brings the
    token back, and every refresh that presents it is refused as
    revoked. *)
Theorem logout_ends_the_session
    (hashpw : string -> string -> string)
    (checkpw : string -> string -> pyresult bool)
    (jwt_encode : Security.claims_t -> string -> string -> option string)
    (config : Config) (refresh : string) (user_id : Z) (w w' : World)
    (later : list Api.Request) (user_agent ip_address : option string)
    (rotate : bool) :
  AuthService.logout_user refresh user_id w = (Return true, w') ->
  AuthRepository.revoked_in refresh (db w')
  /\ AuthService.refresh_access_token jwt_encode config refresh user_agent
       ip_address rotate (Api.serve_all hashpw checkpw jwt_encode config later w')
     = (Raise (ValueError "Refresh token has been revoked"),
        Api.serve_all hashpw checkpw jwt_encode config later w').
Proof.
  intros Hlogout.
  assert (Hrevoked : AuthRepository.revoked_in refresh (db w')).
  { unfold AuthService.logout_user in Hlogout. run_service.
    destruct (AuthRepository.find_token refresh (refresh_tokens (db w)))
      as [r|] eqn:Hfound; [|discriminate].
    destruct (RefreshToken.user_id r =? user_id); [|discriminate].
    cbn [negb] in Hlogout.
    destruct (RefreshToken.is_revoked r) eqn:Hwas.
    - injection Hlogout as <-. exists r. split; assumption.
    - injection Hlogout as <-.
      exists (RefreshToken.revoke r). cbn [db refresh_tokens].
      rewrite find_token_revoke_token, Hfound. split; reflexivity. }
  split; [exact Hrevoked|].
  apply refresh_revoked.
  apply serve_all_stays_revoked. exact Hrevoked.
Qed.

Lemma logout_ends_the_session_witness :
  AuthService.logout_user "1" 1 Samples.registered
  = (Return true, snd (AuthService.logout_user "1" 1 Samples.registered))
  /\ (let w' := snd (AuthService.logout_user "1" 1 Samples.registered) in
      let later :=
        Api.serve_all Scenario.hashpw Scenario.checkpw Scenario.jwt_encode
          Scenario.config [Api.PostLogin Scenario.alice_login None None] w' in
      AuthRepository.revoked_in "1" (db w')
      /\ AuthService.refresh_access_token Scenario.jwt_encode Scenario.config
           "1" None None true later
         = (Raise (ValueError "Refresh token has been revoked"), later)).
Proof.
  assert (Hlogout :
    AuthService.logout_user "1" 1 Samples.registered
    = (Return true, snd (AuthService.logout_user "1" 1 Samples.registered))).
  { apply pair_of_fst. vm_compute. reflexivity. }
  split; [exact Hlogout|].
  apply (logout_ends_the_session Scenario.hashpw Scenario.checkpw
           Scenario.jwt_encode Scenario.config "1" 1 Samples.registered _
           [Api.PostLogin Scenario.alice_login None None] None None true Hlogout).
Defined.

(** ** Who a bearer token authenticates *)
Section Bearer.

Variable jws_verify :
  string -> string -> string -> Security.JwsFailure + Security.claims_t.
Variable validate_before_exp : Security.claims_t -> Z -> option string.
Variable validate_after_exp : Security.claims_t -> Z -> option string.
Variable int_of_claim : Security.ClaimValue -> pyresult Z.
Variable config : Config.

(** A payload [jwt.decode] returns is the one the signature covers. *)
Lemma jwt_decode_verified (now : Z) (token key algorithm : string)
    (payload : Security.claims_t) :
  Security.jwt_decode jws_verify validate_before_exp validate_after_exp now
    token key algorithm = Return payload ->
  jws_verify token key algorithm = inr payload.
Proof.
  unfold Security.jwt_decode.
  destruct (jws_verify token key algorithm) as [[]|verified]; try discriminate.
  destruct (validate_before_exp verified now); [discriminate|].
  destruct (verified !! "exp"%string) as [[]|]; try discriminate.
  - destruct (_ <=? _); [discriminate|].
    destruct (validate_after_exp verified now); [discriminate|].
    intros [= ->]. reflexivity.
  - destruct (validate_after_exp verified now); [discriminate|].
    intros [= ->]. reflexivity.
Qed.

(** What [decode_access_token] raises is a PyJWT error. *)
Lemma decode_access_token_raises (now : Z) (token : string) (e : PyException) :
  Security.decode_access_token jws_verify validate_before_exp validate_after_exp
    config now token = Raise e ->
  e = ExpiredSignatureError \/ exists msg, e = InvalidTokenError msg.
Proof.
  unfold Security.decode_access_token, Security.jwt_decode.
  destruct (jws_verify token _ _) as [[]|verified].
  - intros [= <-]. right. eauto.
  - intros [= <-]. right. eauto.
  - destruct (validate_before_exp verified now); [intros [= <-]; right; eauto|].
    assert (Htype : forall payload : Security.claims_t,
              match payload !! "type"%string with
              | Some (Security.VStr "access") => Return payload
              | _ => Raise (InvalidTokenError "Invalid token type")
              end = Raise e ->
              e = ExpiredSignatureError \/ exists msg, e = InvalidTokenError msg).
    { intros payload Hp.
      destruct (payload !! "type"%string) as [[s| |]|];
        try (injection Hp as <-; right; eauto).
      destruct (decide (s = "access"%string)) as [->|Hs]; [discriminate Hp|].
      assert (Hraise : match s with
                       | "access"%string => Return payload
                       | _ => Raise (InvalidTokenError "Invalid token type")
                       end = Raise (InvalidTokenError "Invalid token type")).
      { repeat (match goal with
                | |- context [match ?x with _ => _ end] =>
                    is_var x; destruct x; try reflexivity
                end); contradiction Hs; reflexivity. }
      rewrite Hraise in Hp. injection Hp as <-. right. eauto. }
    destruct (verified !! "exp"%string) as [[]|].
    + intros [= <-]. right. eauto.
    + intros [= <-]. right. eauto.
    + destruct (_ <=? _); [intros [= <-]; left; reflexivity|].
      destruct (validate_after_exp verified now);
        [intros [= <-]; right; eauto | apply Htype].
    + destruct (validate_after_exp verified now);
        [intros [= <-]; right; eauto | apply Htype].
Qed.

Lemma decode_access_token_returns (now : Z) (token : string)
    (payload : Security.claims_t) :
  Security.decode_access_token jws_verify validate_before_exp validate_after_exp
    config now token = Return payload ->
  jws_verify token (SECRET_KEY config) (ALGORITHM config) = inr payload
  /\ payload !! "type"%string = Some (Security.VStr "access").
Proof.
  unfold Security.decode_access_token.
  destruct (Security.jwt_decode _ _ _ _ _ _ _) as [decoded|] eqn:Hdecode;
    [|discriminate].
  apply jwt_decode_verified in Hdecode.
  destruct (decoded !! "type"%string) as [[s| |]|] eqn:Htype; try discriminate.
  destruct (decide (s = "access"%string)) as [->|Hs].
  - intros [= <-]. split; assumption.
  - intros Hp. exfalso.
    repeat (match type of Hp with
            | context [match ?x with _ => _ end] =>
                is_var x; destruct x; try discriminate Hp
            end).
    contradiction Hs; reflexivity.
Qed.

(** The [try] block of [get_current_user] yields the [sub] claim of a
    verified access token or a 401, and leaves the database alone. *)
Lemma token_subject_outcomes (token : string) (w : World) :
  let outcome :=
    Dependencies.token_subject jws_verify validate_before_exp validate_after_exp
      config token w in
  db (snd outcome) = db w
  /\ match fst outcome with
     | Return user_id =>
         exists payload,
           jws_verify token (SECRET_KEY config) (ALGORITHM config) = inr payload
           /\ payload !! "type"%string = Some (Security.VStr "access")
           /\ payload !! "sub"%string = Some user_id
     | Raise e =>
         e = HTTPException 401 "Token has expired"
         \/ e = HTTPException 401 "Invalid authentication credentials"
     end.
Proof.
  assert (Hdecoded : forall now (w1 : World),
    db w1 = db w ->
    let outcome :=
      match
        Security.decode_access_token jws_verify validate_before_exp
          validate_after_exp config now token
      with
      | Return payload =>
          match payload !! "sub"%string with
          | Some user_id => (Return user_id, w1)
          | None =>
              (Raise (HTTPException 401 "Invalid authentication credentials"), w1)
          end
      | Raise ExpiredSignatureError =>
          (Raise (HTTPException 401 "Token has expired"), w1)
      | Raise (InvalidTokenError _) =>
          (Raise (HTTPException 401 "Invalid authentication credentials"), w1)
      | Raise e => (Raise e, w1)
      end in
    db (snd outcome) = db w
    /\ match fst outcome with
       | Return user_id =>
           exists payload,
             jws_verify token (SECRET_KEY config) (ALGORITHM config) = inr payload
             /\ payload !! "type"%string = Some (Security.VStr "access")
             /\ payload !! "sub"%string = Some user_id
       | Raise e =>
           e = HTTPException 401 "Token has expired"
           \/ e = HTTPException 401 "Invalid authentication credentials"
       end).
  { intros now w1 Hdb.
    destruct (Security.decode_access_token _ _ _ _ _ _) as [payload|e] eqn:Hdecode.
    - apply decode_access_token_returns in Hdecode as [Hverified Htype].
      destruct (payload !! "sub"%string) as [user_id|] eqn:Hsub; cbn;
        (split; [exact Hdb|]); [|auto].
      exists payload. auto.
    - apply decode_access_token_raises in Hdecode as [->|[msg ->]];
        cbn; (split; [exact Hdb | auto]). }
  unfold Dependencies.token_subject, Dependencies.decode_access_token,
    bind, lift, datetime_now.
  destruct (jws_verify token (SECRET_KEY config) (ALGORITHM config)) eqn:Hverify;
    cbn [fst snd]; apply Hdecoded; reflexivity.
Qed.

(** A user [get_current_user] returns is active and stored under its
    id. *)
Lemma get_current_user_returned (token : string) (w : World) :
  match fst (Dependencies.get_current_user jws_verify validate_before_exp
               validate_after_exp int_of_claim config token w) with
  | Return user =>
      User.is_active user = true
      /\ AuthRepository.find_user (User.id user) (users (db w)) = Some user
  | Raise _ => True
  end.
Proof.
  destruct (token_subject_outcomes token w) as [Hdb _].
  unfold Dependencies.get_current_user, AuthRepository.get_user_by_id,
    bind, ret, raise, lift, get_database.
  destruct (Dependencies.token_subject _ _ _ _ _ _) as [[user_id|e] w1];
    [|exact I].
  destruct (int_of_claim user_id) as [uid|e]; [|exact I].
  cbn [fst snd] in *. rewrite Hdb.
  destruct (AuthRepository.find_user uid (users (db w))) as [user|] eqn:Hfound;
    [|exact I].
  destruct (User.is_active user) eqn:Hactive; cbn; [|exact I].
  split; [exact Hactive|]. rewrite (find_user_id _ _ _ Hfound). exact Hfound.
Qed.

End Bearer.

(** X13. What [get_current_user] can do.  It never writes to the database.
    A user it returns is active, is stored under the id the [sub] claim of
    a verified access token spells, and every failure is a 401 or the 403
    of an inactive account, with one exception: [int(user_id)] stands
    after the [try] block, so what [int] raises on the [sub] claim leaves
    the dependency as it is. *)
Theorem get_current_user_outcomes
    (jws_verify : string -> string -> string
                  -> Security.JwsFailure + Security.claims_t)
    (validate_before_exp validate_after_exp : Security.claims_t -> Z -> option string)
    (int_of_claim : Security.ClaimValue -> pyresult Z)
    (config : Config) (token : string) (w : World) :
  let outcome :=
    Dependencies.get_current_user jws_verify validate_before_exp
      validate_after_exp int_of_claim config token w in
  db (snd outcome) = db w
  /\ match fst outcome with
     | Return user =>
         User.is_active user = true
         /\ AuthRepository.find_user (User.id user) (users (db w)) = Some user
         /\ exists payload user_id,
             jws_verify token (SECRET_KEY config) (ALGORITHM config) = inr payload
             /\ payload !! "type"%string = Some (Security.VStr "access")
             /\ payload !! "sub"%string = Some user_id
             /\ int_of_claim user_id = Return (User.id user)
     | Raise e =>
         e = HTTPException 401 "Token has expired"
         \/ e = HTTPException 401 "Invalid authentication credentials"
         \/ e = HTTPException 401 "User not found"
         \/ e = HTTPException 403 "Inactive user account"
         \/ exists payload user_id,
             jws_verify token (SECRET_KEY config) (ALGORITHM config) = inr payload
             /\ payload !! "sub"%string = Some user_id
             /\ int_of_claim user_id = Raise e
     end.
Proof.
  intros outcome. subst outcome.
  destruct (token_subject_outcomes jws_verify validate_before_exp
              validate_after_exp config token w) as [Hdb Hsubject].
  unfold Dependencies.get_current_user, AuthRepository.get_user_by_id,
    bind, ret, raise, lift, get_database.
  destruct (Dependencies.token_subject _ _ _ _ _ _) as [[user_id|e] w1];
    cbn [fst snd] in *; [|split; [exact Hdb | tauto]].
  destruct Hsubject as (payload & Hverified & Htype & Hsub).
  destruct (int_of_claim user_id) as [uid|e] eqn:Hint.
  - cbn [fst snd]. rewrite Hdb.
    destruct (AuthRepository.find_user uid (users (db w))) as [user|] eqn:Hfound;
      [|cbn; split; [exact Hdb | auto]].
    pose proof (find_user_id _ _ _ Hfound) as Hid.
    destruct (User.is_active user) eqn:Hactive; cbn;
      (split; [exact Hdb|]); [|auto 6].
    split; [exact Hactive|]. rewrite Hid. split; [exact Hfound|].
    exists payload, user_id. auto.
  - cbn. split; [exact Hdb|]. do 4 right. exists payload, user_id. auto.
Qed.

(** X14. The [CurrentAdmin] dependency lets only active administrators
    through: the user it returns is active and an administrator, and an
    authenticated user who is not an administrator gets the 403 "Admin
    privileges required". *)
Theorem current_admin_is_an_active_admin
    (jws_verify : string -> string -> string
                  -> Security.JwsFailure + Security.claims_t)
    (validate_before_exp validate_after_exp : Security.claims_t -> Z -> option string)
    (int_of_claim : Security.ClaimValue -> pyresult Z)
    (config : Config) (token : string) (w : World) :
  let authenticated :=
    Dependencies.get_current_user jws_verify validate_before_exp
      validate_after_exp int_of_claim config token w in
  let outcome :=
    Dependencies.current_admin jws_verify validate_before_exp
      validate_after_exp int_of_claim config token w in
  (forall user,
      fst outcome = Return user ->
      User.is_active user = true /\ User.is_admin user = true
      /\ fst authenticated = Return user)
  /\ (forall user,
        fst authenticated = Return user -> User.is_admin user = false ->
        fst outcome = Raise (HTTPException 403 "Admin privileges required"))
  /\ (forall e, fst authenticated = Raise e -> fst outcome = Raise e).
Proof.
  intros authenticated outcome.
  pose proof (get_current_user_returned jws_verify validate_before_exp
                validate_after_exp int_of_claim config token w) as Hactive.
  subst outcome. fold authenticated in Hactive.
  unfold Dependencies.current_admin, Dependencies.require_admin, bind, raise, ret.
  fold authenticated.
  destruct authenticated as [[user|e] w1]; cbn [fst snd] in *.
  - split; [|split].
    + intros admin. destruct (User.is_admin user) eqn:Hadmin; cbn; [|discriminate].
      intros [= <-]. destruct Hactive as [Hactive _]. auto.
    + intros ? [= <-] ->. reflexivity.
    + discriminate.
  - split; [discriminate|]. split; [discriminate|]. intros ? [= <-]. reflexivity.
Qed.

Section Issued.

Variable config : Config.

(** The claims of an access token as PyJWT returns them after a round
    trip. *)
Lemma numeric_dates_access_token (now_exp now_iat : Z) (user : User.t) :
  let payload :=
    Dependencies.numeric_dates
      (Security.access_token_claims config now_exp now_iat
         (AuthService.token_data user) None) in
  payload !! "type"%string = Some (Security.VStr "access")
  /\ payload !! "sub"%string = Some (Security.VStr (py_str_int (User.id user)))
  /\ payload !! "exp"%string
     = Some (Security.VInt
               ((now_exp + Security.timedelta_minutes
                             (ACCESS_TOKEN_EXPIRE_MINUTES config)) / 1000000)).
Proof.
  unfold Dependencies.numeric_dates, Security.access_token_claims,
    AuthService.token_data.
  split; [|split].
  - rewrite !lookup_alter_ne by discriminate.
    rewrite lookup_insert_eq. reflexivity.
  - rewrite !lookup_alter_ne by discriminate.
    rewrite !lookup_insert_ne by discriminate.
    rewrite lookup_insert_eq. reflexivity.
  - rewrite lookup_alter_eq.
    rewrite !lookup_alter_ne by discriminate.
    rewrite !lookup_insert_ne by discriminate.
    rewrite lookup_insert_eq. reflexivity.
Qed.

End Issued.

(** X15. An access token authenticates the user it was issued for until it
    expires.  When the token verifies to the claims [create_access_token]
    signed for a stored user, [get_current_user] returns that user as long
    as the clock is before the whole second of [exp], refuses with 403 if
    the account has been deactivated since, and answers 401 "Token has
    expired" from that second on. *)
Theorem issued_token_authenticates_its_user
    (jws_verify : string -> string -> string
                  -> Security.JwsFailure + Security.claims_t)
    (validate_before_exp validate_after_exp : Security.claims_t -> Z -> option string)
    (int_of_claim : Security.ClaimValue -> pyresult Z)
    (config : Config) (user : User.t) (now_exp now_iat : Z) (token : string)
    (w : World) :
  let payload :=
    Dependencies.numeric_dates
      (Security.access_token_claims config now_exp now_iat
         (AuthService.token_data user) None) in
  let expiry :=
    (now_exp + Security.timedelta_minutes (ACCESS_TOKEN_EXPIRE_MINUTES config))
    / 1000000 in
  let outcome :=
    Dependencies.get_current_user jws_verify validate_before_exp
      validate_after_exp int_of_claim config token w in
  jws_verify token (SECRET_KEY config) (ALGORITHM config) = inr payload ->
  validate_before_exp payload (clock w 0%nat) = None ->
  validate_after_exp payload (clock w 0%nat) = None ->
  int_of_claim (Security.VStr (py_str_int (User.id user))) = Return (User.id user) ->
  AuthRepository.find_user (User.id user) (users (db w)) = Some user ->
  (clock w 0%nat < expiry * 1000000 ->
   fst outcome
   = if User.is_active user then Return user
     else Raise (HTTPException 403 "Inactive user account"))
  /\ (expiry * 1000000 <= clock w 0%nat ->
      fst outcome = Raise (HTTPException 401 "Token has expired")).
Proof.
  intros payload expiry outcome Hverify Hbefore Hafter Hint Hfound.
  destruct (numeric_dates_access_token config now_exp now_iat user)
    as (Htype & Hsub & Hexp).
  fold payload in Htype, Hsub, Hexp. fold expiry in Hexp.
  subst outcome.
  unfold Dependencies.get_current_user, Dependencies.token_subject,
    Dependencies.decode_access_token, AuthRepository.get_user_by_id,
    bind, ret, raise, lift, get_database, datetime_now.
  rewrite Hverify. cbn [fst snd].
  unfold Security.decode_access_token, Security.jwt_decode.
  rewrite Hverify, Hbefore, Hexp.
  split; intros Hclock.
  - destruct (expiry * 1000000 <=? clock w 0%nat) eqn:Hexpired;
      [apply Z.leb_le in Hexpired; lia|].
    rewrite Hafter, Htype, Hsub. cbn [fst snd].
    rewrite Hint. cbn [fst snd db]. rewrite Hfound.
    destruct (User.is_active user); reflexivity.
  - destruct (expiry * 1000000 <=? clock w 0%nat) eqn:Hexpired;
      [reflexivity | apply Z.leb_gt in Hexpired; lia].
Qed.

Lemma issued_token_authenticates_its_user_witness :
  Samples.jws_verify "jwt:k" (SECRET_KEY Scenario.config)
    (ALGORITHM Scenario.config)
  = inr (Dependencies.numeric_dates
           (Security.access_token_claims Scenario.config 1000 1001
              (AuthService.token_data Scenario.mallory) None))
  /\ Samples.int_of_claim (Security.VStr (py_str_int (User.id Scenario.mallory)))
     = Return (User.id Scenario.mallory)
  /\ AuthRepository.find_user (User.id Scenario.mallory)
       (users (db Scenario.corrupt_world)) = Some Scenario.mallory
  /\ clock Scenario.corrupt_world 0%nat
     < (1000 + Security.timedelta_minutes
                 (ACCESS_TOKEN_EXPIRE_MINUTES Scenario.config)) / 1000000
       * 1000000
  /\ fst (Dependencies.get_current_user Samples.jws_verify Samples.no_complaint
            Samples.no_complaint Samples.int_of_claim Scenario.config "jwt:k"
            Scenario.corrupt_world)
     = (if User.is_active Scenario.mallory then Return Scenario.mallory
        else Raise (HTTPException 403 "Inactive user account")).
Proof.
  assert (Hverify :
    Samples.jws_verify "jwt:k" (SECRET_KEY Scenario.config)
      (ALGORITHM Scenario.config)
    = inr (Dependencies.numeric_dates
             (Security.access_token_claims Scenario.config 1000 1001
                (AuthService.token_data Scenario.mallory) None)))
    by reflexivity.
  assert (Hint :
    Samples.int_of_claim (Security.VStr (py_str_int (User.id Scenario.mallory)))
    = Return (User.id Scenario.mallory)) by (vm_compute; reflexivity).
  assert (Hfound :
    AuthRepository.find_user (User.id Scenario.mallory)
      (users (db Scenario.corrupt_world)) = Some Scenario.mallory)
    by reflexivity.
  assert (Hclock :
    clock Scenario.corrupt_world 0%nat
    < (1000 + Security.timedelta_minutes
                (ACCESS_TOKEN_EXPIRE_MINUTES Scenario.config)) / 1000000
      * 1000000) by (vm_compute; reflexivity).
  split; [exact Hverify|]. split; [exact Hint|]. split; [exact Hfound|].
  split; [exact Hclock|].
  apply (issued_token_authenticates_its_user Samples.jws_verify
           Samples.no_complaint Samples.no_complaint Samples.int_of_claim
           Scenario.config Scenario.mallory 1000 1001 "jwt:k"
           Scenario.corrupt_world Hverify eq_refl eq_refl Hint Hfound).
  exact Hclock.
Defined.

(** ** Pagination *)
Section Pages.

Context {T : Type}.

(** The first [m] slices of [k] items make up the first [m * k] items. *)
Lemma concat_slices (k m : nat) (rows : list T) :
  concat (map (fun i => take k (drop (i * k) rows)) (seq 0 m))
  = take (m * k) rows.
Proof.
  induction m as [|m IH]; [reflexivity|].
  rewrite seq_S, map_app, concat_app, IH. cbn [map concat].
  rewrite app_nil_r, take_take_drop. f_equal. lia.
Qed.

End Pages.

(** The ceiling division of [PaginatedResponse.create]. *)
Lemma total_pages_is_ceiling_of (total page_size : Z) :
  1 <= page_size -> 0 <= total ->
  ((total + page_size - 1) / page_size - 1) * page_size < total
  /\ total <= (total + page_size - 1) / page_size * page_size
  /\ 0 <= (total + page_size - 1) / page_size.
Proof.
  intros Hsize Htotal.
  pose proof (Z.div_mod (total + page_size - 1) page_size ltac:(lia)) as Hdiv.
  pose proof (Z.mod_pos_bound (total + page_size - 1) page_size ltac:(lia)) as Hmod.
  repeat split; nia.
Qed.

(** X16. [total_pages] is the ceiling of [total / page_size]: for a
    positive page size it is the one number of pages that holds all the
    items with a last page that is not empty, and it is zero exactly when
    there is nothing to show. *)
Theorem total_pages_is_the_ceiling {T : Type}
    (items : list T) (total page page_size : Z) :
  1 <= page_size ->
  exists response,
    Pagination.create items total page page_size = Some response
    /\ (Pagination.total_pages response - 1) * page_size < total
    /\ total <= Pagination.total_pages response * page_size
    /\ (0 <= total -> (Pagination.total_pages response = 0 <-> total = 0)).
Proof.
  intros Hsize. unfold Pagination.create.
  destruct (page_size =? 0) eqn:Hzero; [apply Z.eqb_eq in Hzero; lia|].
  eexists. split; [reflexivity|]. cbn.
  pose proof (Z.div_mod (total + page_size - 1) page_size ltac:(lia)) as Hdiv.
  pose proof (Z.mod_pos_bound (total + page_size - 1) page_size ltac:(lia)) as Hmod.
  split; [nia|]. split; [nia|]. intros Htotal. split; intros Hpages; nia.
Qed.

Lemma total_pages_is_the_ceiling_witness :
  1 <= 20
  /\ exists response,
      Pagination.create [1; 2; 3] 41 1 20 = Some response
      /\ (Pagination.total_pages response - 1) * 20 < 41
      /\ 41 <= Pagination.total_pages response * 20
      /\ (0 <= 41 -> (Pagination.total_pages response = 0 <-> 41 = 0)).
Proof.
  split; [lia|].
  apply (total_pages_is_the_ceiling [1; 2; 3] 41 1 20). lia.
Defined.

(** X17. The pages partition the rows.  For a page size the [Field]
    admits, reading the pages 1 to [total_pages] with [paginate] and
    putting their items end to end gives back the rows of the query, every
    page holds at most [page_size] items, and every later page is
    empty. *)
Theorem pages_partition_the_rows {T : Type}
    (rows : list T) (page_size : Z) (sort_by sort_order : option string) :
  1 <= page_size <= 100 ->
  let pagination (page : Z) : Pagination.PaginationParams :=
    {| Pagination.page := page; Pagination.page_size := page_size;
       Pagination.sort_by := sort_by; Pagination.sort_order := sort_order |} in
  let total := snd (Pagination.paginate rows (pagination 1)) in
  exists response,
    Pagination.create (fst (Pagination.paginate rows (pagination 1))) total 1
      page_size = Some response
    /\ concat (map (fun page => fst (Pagination.paginate rows (pagination page)))
                 (seqZ 1 (Pagination.total_pages response)))
       = rows
    /\ (forall page,
          1 <= page ->
          Z.of_nat (length (fst (Pagination.paginate rows (pagination page))))
          <= page_size)
    /\ (forall page,
          Pagination.total_pages response < page ->
          fst (Pagination.paginate rows (pagination page)) = []).
Proof.
  intros Hsize pagination total.
  destruct (total_pages_is_ceiling_of (Z.of_nat (length rows)) page_size)
    as (Hlow & Hhigh & Hnonneg); [lia | lia |].
  unfold Pagination.create.
  destruct (page_size =? 0) eqn:Hzero; [apply Z.eqb_eq in Hzero; lia|].
  eexists. split; [reflexivity|]. cbn [Pagination.total_pages].
  subst total. cbn [snd Pagination.paginate].
  set (pages := (Z.of_nat (length rows) + page_size - 1) / page_size) in *.
  set (k := Z.to_nat page_size).
  assert (Hslice : forall page,
            1 <= page ->
            fst (Pagination.paginate rows (pagination page))
            = take k (drop (Z.to_nat (page - 1) * k) rows)).
  { intros page Hpage. unfold Pagination.paginate, Pagination.limit,
      Pagination.offset. cbn. fold k. f_equal. f_equal. unfold k. nia. }
  split; [|split].
  - transitivity (take (Z.to_nat pages * k) rows);
      [|apply take_ge; unfold k; nia].
    rewrite <- concat_slices.
    unfold seqZ. rewrite <- list_fmap_compose.
    f_equal. apply map_ext_in. intros i Hi. apply in_seq in Hi.
    unfold compose. rewrite Hslice by lia. do 3 f_equal. lia.
  - intros page Hpage. rewrite Hslice by exact Hpage.
    rewrite length_take. unfold k. lia.
  - intros page Hpage. rewrite Hslice by lia.
    rewrite drop_ge; [apply take_nil|]. unfold k. nia.
Qed.

Lemma pages_partition_the_rows_witness :
  1 <= 2 <= 100
  /\ (let pagination (page : Z) : Pagination.PaginationParams :=
        {| Pagination.page := page; Pagination.page_size := 2;
           Pagination.sort_by := None; Pagination.sort_order := Some "asc"%string |} in
      let total := snd (Pagination.paginate [10; 20; 30; 40; 50] (pagination 1)) in
      exists response,
        Pagination.create (fst (Pagination.paginate [10; 20; 30; 40; 50]
                                  (pagination 1))) total 1 2 = Some response
        /\ concat (map (fun page =>
                          fst (Pagination.paginate [10; 20; 30; 40; 50]
                                 (pagination page)))
                     (seqZ 1 (Pagination.total_pages response)))
           = [10; 20; 30; 40; 50]
        /\ (forall page,
              1 <= page ->
              Z.of_nat (length (fst (Pagination.paginate [10; 20; 30; 40; 50]
                                       (pagination page))))
              <= 2)
        /\ (forall page,
              Pagination.total_pages response < page ->
              fst (Pagination.paginate [10; 20; 30; 40; 50] (pagination page))
              = [])).
Proof.
  split; [lia|].
  apply (pages_partition_the_rows [10; 20; 30; 40; 50] 2 None (Some "asc"%string)).
  lia.
Defined.

(** ** Masking, password strength and the field validators *)
Section Strings.

Import SecurityText.

Lemma length_substring_prefix (n : nat) (s : string) :
  String.length (String.substring 0 n s) = Nat.min n (String.length s).
Proof.
  revert n. induction s as [|c s IH]; intros [|n]; cbn; try reflexivity.
  rewrite IH. reflexivity.
Qed.

Lemma length_string_app (s1 s2 : string) :
  String.length (s1 ++ s2) = (String.length s1 + String.length s2)%nat.
Proof.
  induction s1 as [|c s1 IH]; simpl; [reflexivity | f_equal; exact IH].
Qed.

Lemma length_py_repeat (c : Ascii.ascii) (n : Z) :
  String.length (py_repeat c n) = Z.to_nat n.
Proof.
  unfold py_repeat. induction (Z.to_nat n) as [|k IH]; cbn;
    [reflexivity | rewrite IH; reflexivity].
Qed.

Lemma get_py_repeat (c : Ascii.ascii) (n : Z) (i : nat) :
  (i < Z.to_nat n)%nat -> String.get i (py_repeat c n) = Some c.
Proof.
  unfold py_repeat. revert i. induction (Z.to_nat n) as [|k IH]; intros i Hi;
    [lia|].
  destruct i as [|i]; cbn; [reflexivity | apply IH; lia].
Qed.

Lemma eqb_empty (s : string) : String.eqb s "" = true <-> String.length s = 0%nat.
Proof. destruct s; cbn; split; congruence. Qed.

End Strings.

(** X18. What [mask_sensitive_data] shows.  For a [visible_chars] that is
    not negative the masked string is as long as the data, and the
    character at a position is the one of the data only if the position is
    below [visible_chars] and the data is longer than [visible_chars]; at
    every other position it is an asterisk.  So data of [visible_chars]
    characters or fewer is hidden completely. *)
Theorem mask_sensitive_data_hides_the_tail (data : string) (visible_chars : Z) :
  0 <= visible_chars ->
  String.length (SecurityText.mask_sensitive_data data visible_chars)
  = String.length data
  /\ forall i,
      (i < String.length data)%nat ->
      String.get i (SecurityText.mask_sensitive_data data visible_chars)
      = if (Z.of_nat i <? visible_chars)
           && (visible_chars <? Z.of_nat (String.length data))
        then String.get i data
        else Some SecurityText.star.
Proof.
  intros Hvisible. unfold SecurityText.mask_sensitive_data.
  destruct (String.eqb data "") eqn:Hempty.
  { apply eqb_empty in Hempty. rewrite Hempty. cbn.
    split; [reflexivity | intros i Hi; lia]. }
  cbn [orb negb].
  destruct (Z.of_nat (String.length data) <=? visible_chars) eqn:Hshort.
  - apply Z.leb_le in Hshort. split.
    + rewrite length_py_repeat. lia.
    + intros i Hi. rewrite get_py_repeat by lia.
      destruct (visible_chars <? Z.of_nat (String.length data)) eqn:Hlong;
        [apply Z.ltb_lt in Hlong; lia|].
      rewrite andb_false_r. reflexivity.
  - apply Z.leb_gt in Hshort.
    unfold SecurityText.py_slice_to.
    destruct (0 <=? visible_chars) eqn:Hsign; [|apply Z.leb_gt in Hsign; lia].
    split.
    + rewrite length_string_app, length_substring_prefix, length_py_repeat. lia.
    + intros i Hi.
      destruct (visible_chars <? Z.of_nat (String.length data)) eqn:Hlong;
        [|apply Z.ltb_ge in Hlong; lia].
      rewrite andb_true_r.
      destruct (Z.of_nat i <? visible_chars) eqn:Hshown.
      * apply Z.ltb_lt in Hshown.
        rewrite <- append_correct1
          by (rewrite length_substring_prefix; lia).
        rewrite substring_correct1 by lia. f_equal. lia.
      * apply Z.ltb_ge in Hshown.
        replace i with ((i - Z.to_nat visible_chars)
                        + String.length
                            (String.substring 0 (Z.to_nat visible_chars) data))%nat
          at 1 by (rewrite length_substring_prefix; lia).
        rewrite <- append_correct2. apply get_py_repeat. lia.
Qed.

Lemma mask_sensitive_data_hides_the_tail_witness :
  0 <= 4
  /\ SecurityText.mask_sensitive_data "tok-1234" 4 = "tok-****"%string
  /\ String.length (SecurityText.mask_sensitive_data "tok-1234" 4)
     = String.length "tok-1234"
  /\ forall i,
      (i < String.length "tok-1234")%nat ->
      String.get i (SecurityText.mask_sensitive_data "tok-1234" 4)
      = if (Z.of_nat i <? 4) && (4 <? Z.of_nat (String.length "tok-1234"))
        then String.get i "tok-1234"
        else Some SecurityText.star.
Proof.
  split; [lia|]. split; [vm_compute; reflexivity|].
  apply (mask_sensitive_data_hides_the_tail "tok-1234" 4). lia.
Defined.

(** X19. The two password checks agree.  Under the default settings the
    validator of the schemas raises exactly when
    [validate_password_strength] has a complaint about length, letters or
    digits, and what it raises is the first complaint of the list; a
    password the validator accepts can fail the strength check only for
    being too common. *)
Theorem strength_check_extends_the_schema_check (password : string) :
  let checked :=
    SecurityText.validate_password_strength SecurityText.default_policy password in
  let common :=
    existsb (String.eqb (SecurityText.lower password))
      SecurityText.common_passwords in
  match Schemas.validate_password password with
  | Raise e =>
      fst checked = false
      /\ exists msg rest, e = ValueError msg /\ snd checked = msg :: rest
  | Return v =>
      v = password
      /\ fst checked = negb common
      /\ snd checked = if common then ["Password is too common"%string] else []
  end.
Proof.
  intros checked common. subst checked.
  unfold Schemas.validate_password, SecurityText.validate_password_strength.
  fold common. cbn [SecurityText.default_policy SecurityText.PASSWORD_MIN_LENGTH
    SecurityText.PASSWORD_REQUIRE_UPPERCASE SecurityText.PASSWORD_REQUIRE_LOWERCASE
    SecurityText.PASSWORD_REQUIRE_DIGITS SecurityText.PASSWORD_REQUIRE_SPECIAL
    andb app].
  assert (Hlen : (Z.of_nat (String.length password) <? 8)
                 = (String.length password <? 8)%nat).
  { destruct (String.length password <? 8)%nat eqn:Hn.
    - apply Nat.ltb_lt in Hn. apply Z.ltb_lt. lia.
    - apply Nat.ltb_ge in Hn. apply Z.ltb_ge. lia. }
  rewrite Hlen.
  change (py_str_int 8) with "8"%string.
  destruct (String.length password <? 8)%nat,
    (SecurityText.re_search SecurityText.is_upper password),
    (SecurityText.re_search SecurityText.is_lower password),
    (SecurityText.re_search SecurityText.is_digit password),
    common; cbn;
    first [ split; [reflexivity | split; reflexivity]
          | split; [reflexivity | eexists _, _; split; reflexivity] ].
Qed.

Section Usernames.

Import SecurityText Schemas.

(** What [rstrip] leaves does not end in white space. *)
Lemma rstrip_ends_clean (s before : string) (c : Ascii.ascii) :
  rstrip s = (before ++ String c EmptyString)%string -> is_space c = false.
Proof.
  revert before. induction s as [|a rest IH]; intros before; simpl.
  - destruct before; discriminate.
  - destruct (rstrip rest) as [|k kept] eqn:Hrest.
    + destruct (is_space a) eqn:Hspace; [destruct before; discriminate|].
      destruct before as [|b before]; simpl; intros [= <-]; [exact Hspace|].
      destruct before; discriminate.
    + destruct before as [|b before]; simpl; [discriminate|].
      intros [= <- Hkept]. apply (IH before). exact Hkept.
Qed.

(** A string the pattern matches is made of the class, up to one newline
    at its end. *)
Lemma re_match_username_chars (s : string) :
  re_match_username s = true ->
  s <> EmptyString
  /\ (every_char is_username_char s = true
      \/ exists before, s = (before ++ String newline EmptyString)%string).
Proof.
  induction s as [|c rest IH]; [discriminate|].
  cbn [re_match_username]. intros Hmatch.
  apply andb_true_iff in Hmatch as [Hc Hrest].
  split; [discriminate|].
  destruct rest as [|d [|e rest]].
  - left. simpl. rewrite Hc. reflexivity.
  - apply orb_true_iff in Hrest as [Hd|Hd].
    + left. simpl. rewrite Hc, Hd. reflexivity.
    + right. apply Ascii.eqb_eq in Hd as ->.
      exists (String c EmptyString). reflexivity.
  - destruct (IH Hrest) as [_ [Hevery|[before ->]]].
    + left. cbn [every_char]. rewrite Hc. exact Hevery.
    + right. exists (String c before). reflexivity.
Qed.

Lemma username_char_not_space (c : Ascii.ascii) :
  is_username_char c = true -> is_space c = false.
Proof.
  unfold is_username_char, is_space, is_lower, is_upper, is_digit, between.
  destruct (code c) as [|n] eqn:Hcode; [discriminate|].
  intros Hc.
  repeat (apply orb_true_iff in Hc as [Hc|Hc]);
    repeat (match goal with
            | H : (_ && _) = true |- _ => apply andb_true_iff in H as [? ?]
            | H : (_ <=? _)%nat = true |- _ => apply Nat.leb_le in H
            | H : (_ =? _)%nat = true |- _ => apply Nat.eqb_eq in H
            end);
    repeat (apply orb_false_iff; split);
    first [ apply andb_false_iff; first [left; apply Nat.leb_gt; lia
                                        | right; apply Nat.leb_gt; lia]
          | apply Nat.eqb_neq; lia ].
Qed.

(** A string made of the class is left alone by [strip] and matched by the
    pattern. *)
Lemma clean_username_fixed (s : string) :
  every_char is_username_char s = true ->
  lstrip s = s /\ rstrip s = s
  /\ (s <> EmptyString -> re_match_username s = true).
Proof.
  induction s as [|c rest IH]; [intros _; repeat split; congruence|].
  cbn [every_char]. intros Hevery.
  apply andb_true_iff in Hevery as [Hc Hrest].
  destruct (IH Hrest) as (_ & Hr & Hmatch).
  pose proof (username_char_not_space c Hc) as Hspace.
  split; [|split].
  - simpl. rewrite Hspace. reflexivity.
  - simpl. rewrite Hr, Hspace. destruct rest; reflexivity.
  - intros _. cbn [re_match_username]. rewrite Hc. cbn [andb].
    destruct rest as [|d [|e rest]]; [reflexivity| |apply Hmatch; discriminate].
    cbn [every_char] in Hrest. apply andb_true_iff in Hrest as [Hd _].
    rewrite Hd. reflexivity.
Qed.

End Usernames.

(** X20. What the username validator lets through.  A username it returns
    is the input without the white space around it, is not empty, consists
    of letters, digits, underscores and hyphens only, and passes the
    validator unchanged; the newline that [$] would tolerate at the end
    never gets that far, because [strip] has removed it. *)
Theorem validated_usernames_are_clean (v username : string) :
  Schemas.validate_username v = Return username ->
  username = Schemas.strip v
  /\ username <> EmptyString
  /\ Schemas.every_char Schemas.is_username_char username = true
  /\ Schemas.validate_username username = Return username.
Proof.
  unfold Schemas.validate_username at 1.
  destruct (Schemas.re_match_username (Schemas.strip v)) eqn:Hmatch;
    [|discriminate].
  cbn [negb]. intros [= <-].
  destruct (re_match_username_chars _ Hmatch) as [Hnonempty [Hevery|[before Hends]]].
  - split; [reflexivity|]. split; [exact Hnonempty|]. split; [exact Hevery|].
    destruct (clean_username_fixed _ Hevery) as (Hl & Hr & Hagain).
    remember (Schemas.strip v) as u eqn:Hu.
    unfold Schemas.validate_username, Schemas.strip.
    rewrite Hl, Hr, (Hagain Hnonempty). reflexivity.
  - exfalso. unfold Schemas.strip in Hends.
    apply rstrip_ends_clean in Hends. discriminate Hends.
Qed.

Lemma validated_usernames_are_clean_witness :
  Schemas.validate_username "  alice_01 " = Return "alice_01"%string
  /\ "alice_01"%string = Schemas.strip "  alice_01 "
  /\ "alice_01"%string <> EmptyString
  /\ Schemas.every_char Schemas.is_username_char "alice_01" = true
  /\ Schemas.validate_username "alice_01" = Return "alice_01"%string.
Proof.
  assert (Hvalid : Schemas.validate_username "  alice_01 "
                   = Return "alice_01"%string) by (vm_compute; reflexivity).
  split; [exact Hvalid|].
  apply (validated_usernames_are_clean "  alice_01 " "alice_01" Hvalid).
Defined.

(** ** The rate-limit middleware *)
Section Through.

Import RateLimiter RateLimitMiddleware.

Variable config : Config.
Context {App Response : Type}.
Variable call_next : Request -> App -> pyresult Response * App.
Variable host : string.
Variable opened : Q.

Let minute := ("minute:" ++ host)%string.

(** The entries recorded since the window opened. *)
Let fresh (entries : list (Q * Z)) : list (Q * Z) :=
  List.filter (fun e => Qle_bool opened (fst e)) entries.

Let limited (entry : Clocks * Request) : Prop :=
  client_ip (snd entry) = host
  /\ existsb (String.eqb (url_path (snd entry))) exempt_paths = false
  /\ RateLimiterSpec.within_window opened 60 (at_minute (fst entry)).

(** What the window has not closed on, the pruning keeps. *)
Lemma fresh_kept (clean_time : Q) (entries : list (Q * Z)) :
  (clean_time < opened + inject_Z 60)%Q ->
  fresh (kept clean_time 60 entries) = fresh entries.
Proof.
  intros Hopen. unfold fresh, kept. rewrite filter_Is_true.
  induction entries as [|e entries IH]; [reflexivity|].
  simpl. destruct (Qle_bool opened (fst e)) eqn:Hfresh.
  - assert (Hkept : Qlt_bool (clean_time - inject_Z 60) (fst e) = true).
    { apply Qlt_bool_iff. apply Qle_bool_iff in Hfresh. lra. }
    rewrite Hkept. simpl. rewrite Hfresh, IH. reflexivity.
  - destruct (Qlt_bool _ _); simpl; [rewrite Hfresh|]; exact IH.
Qed.

Lemma fresh_length (entries : list (Q * Z)) :
  (length (fresh entries) <= length entries)%nat.
Proof. unfold fresh. apply List.filter_length_le. Qed.

Lemma fresh_snoc (entries : list (Q * Z)) (current_time : Q) :
  (opened <= current_time)%Q ->
  fresh (entries ++ [(current_time, 1)]) = fresh entries ++ [(current_time, 1)].
Proof.
  intros Hopen. unfold fresh. rewrite List.filter_app. simpl.
  apply Qle_bool_iff in Hopen. rewrite Hopen. reflexivity.
Qed.

(** The state of the minute tier while the window is open: single
    requests, of which at least [passed] are fresh. *)
Let counted_in (passed : nat) (requests : requests_t) : Prop :=
  Forall (fun e => snd e = 1) (entries_of requests minute)
  /\ (passed <= length (fresh (entries_of requests minute)))%nat
  /\ Z.of_nat passed <= RATE_LIMIT_PER_MINUTE config.

Lemma dispatch_counted (entry : Clocks * Request) (requests : requests_t)
    (passed : nat) (app : App) :
  RATE_LIMIT_ENABLED config = true ->
  limited entry ->
  counted_in passed requests ->
  let '(_, (requests', (passed', _))) :=
    dispatch config (counting call_next) (fst entry) (snd entry)
      (requests, (passed, app)) in
  counted_in passed' requests'.
Proof.
  intros Henabled (Hhost & Hpath & Hopened & Hclock & Hclosed)
    (Hones & Hpassed & Hquota).
  destruct entry as [clocks request]. cbn [fst snd] in *.
  unfold dispatch. rewrite Henabled, Hpath, Hhost. cbn [negb].
  destruct (kept_sublist 60 (snd (at_minute clocks)) _ Hones) as [Hones' _].
  pose proof (fresh_kept (snd (at_minute clocks)) (entries_of requests minute)
                Hclosed) as Hfresh.
  pose proof (check_rate_limit_result (fst (at_minute clocks))
                (snd (at_minute clocks)) minute (RATE_LIMIT_PER_MINUTE config) 60
                requests) as Hresult.
  pose proof (check_rate_limit_entries (fst (at_minute clocks))
                (snd (at_minute clocks)) minute (RATE_LIMIT_PER_MINUTE config) 60
                requests) as Hentries.
  rewrite (sum_counts_ones _ Hones') in Hresult, Hentries.
  destruct (minute_entries_survive config (at_minute clocks) (at_hour clocks)
              (at_day clocks) host requests) as [Hhour Hday].
  fold minute in Hhour, Hday.
  assert (Hstays : forall requests',
            entries_of requests' minute
            = kept (snd (at_minute clocks)) 60 (entries_of requests minute)
              ++ [(fst (at_minute clocks), 1)] ->
            Forall (fun e => snd e = 1) (entries_of requests' minute)
            /\ (passed <= length (fresh (entries_of requests' minute)))%nat).
  { intros requests' ->. split.
    - apply Forall_app. split; [exact Hones' | repeat constructor].
    - rewrite fresh_snoc by exact Hopened. rewrite Hfresh, length_app. lia. }
  destruct (check_all_rate_limits_cases config (at_minute clocks) (at_hour clocks)
              (at_day clocks) host requests Henabled)
    as [(e & Vm & ->) | [(e & Vm & _ & ->) | [(e & Vm & _ & _ & ->)
       | (Vm & _ & _ & ->)]]]; fold minute in Vm; cbv beta iota zeta;
    unfold counted_in; fold minute.
  - rewrite Hresult in Vm.
    destruct (RATE_LIMIT_PER_MINUTE config <=? _); [|contradiction].
    split; [rewrite Hentries; exact Hones'|].
    split; [rewrite Hentries, Hfresh; exact Hpassed | exact Hquota].
  - destruct (Hstays _ (eq_trans Hhour (allowed_appends _ _ _ _ _ _ Vm)))
      as [Hones2 Hpassed2].
    split; [exact Hones2|]. split; [exact Hpassed2 | exact Hquota].
  - destruct (Hstays _ (eq_trans Hday (allowed_appends _ _ _ _ _ _ Vm)))
      as [Hones2 Hpassed2].
    split; [exact Hones2|]. split; [exact Hpassed2 | exact Hquota].
  - unfold counting. cbn [fst snd].
    destruct (call_next request app) as [response app'].
    pose proof (allowed_appends _ _ _ _ _ _ Vm) as Hminute.
    split; [|split].
    + rewrite Hday, Hminute.
      apply Forall_app. split; [exact Hones' | repeat constructor].
    + rewrite Hday, Hminute, fresh_snoc by exact Hopened.
      rewrite Hfresh, length_app. simpl. lia.
    + rewrite Hresult in Vm.
      destruct (RATE_LIMIT_PER_MINUTE config <=? _) eqn:Hfull; [discriminate Vm|].
      apply Z.leb_gt in Hfull.
      pose proof (fresh_length (kept (snd (at_minute clocks)) 60
                                  (entries_of requests minute))) as Hlen.
      rewrite Hfresh in Hlen. lia.
Qed.

Lemma dispatch_all_counted (log : list (Clocks * Request)) (requests : requests_t)
    (passed : nat) (app : App) :
  RATE_LIMIT_ENABLED config = true ->
  Forall limited log ->
  counted_in passed requests ->
  let '(_, (requests', (passed', _))) :=
    dispatch_all config (counting call_next) log (requests, (passed, app)) in
  counted_in passed' requests'.
Proof.
  intros Henabled Hlog. revert requests passed app.
  induction Hlog as [|entry log Hentry _ IH]; intros requests passed app Hcounted;
    [exact Hcounted|].
  destruct entry as [clocks request]. cbn [dispatch_all].
  pose proof (dispatch_counted (clocks, request) requests passed app Henabled
                Hentry Hcounted) as Hstep.
  cbn [fst snd] in Hstep.
  destruct (dispatch config (counting call_next) clocks request
              (requests, (passed, app))) as [response [requests1 [passed1 app1]]].
  specialize (IH requests1 passed1 app1 Hstep).
  destruct (dispatch_all config (counting call_next) log
              (requests1, (passed1, app1))) as [responses [requests2 [passed2 app2]]].
  exact IH.
Qed.

End Through.

(** X21. Behind the middleware, with [RATE_LIMIT_ENABLED] set and a
    [RATE_LIMIT_PER_MINUTE] that is not negative, one client gets at most
    [RATE_LIMIT_PER_MINUTE] requests through to the application in any
    sixty seconds.  Whatever the limiter has recorded before (with counts
    of one) and whatever the later tiers decide, of the requests of one
    client address that are not health checks and are checked inside one
    window of a minute, no more than the limit reach [call_next]. *)
Theorem middleware_passes_at_most_the_quota
    {App Response : Type} (config : Config)
    (call_next : RateLimitMiddleware.Request -> App -> pyresult Response * App)
    (host : string) (opened : Q)
    (log : list (RateLimitMiddleware.Clocks * RateLimitMiddleware.Request))
    (requests : RateLimiter.requests_t) (app : App) :
  RATE_LIMIT_ENABLED config = true ->
  0 <= RATE_LIMIT_PER_MINUTE config ->
  Forall (fun e => snd e = 1)
    (RateLimiter.entries_of requests ("minute:" ++ host)) ->
  Forall (fun entry =>
            RateLimitMiddleware.client_ip (snd entry) = host
            /\ existsb (String.eqb (RateLimitMiddleware.url_path (snd entry)))
                 RateLimitMiddleware.exempt_paths = false
            /\ RateLimiterSpec.within_window opened 60
                 (RateLimitMiddleware.at_minute (fst entry)))
    log ->
  let reached :=
    fst (snd (snd (RateLimitMiddleware.dispatch_all config
                     (RateLimitMiddleware.counting call_next) log
                     (requests, (0%nat, app))))) in
  Z.of_nat reached <= RATE_LIMIT_PER_MINUTE config.
Proof.
  intros Henabled Hlimit Hones Hlog reached. subst reached.
  pose proof (dispatch_all_counted config call_next host opened log requests
                0%nat app Henabled Hlog) as Hcounted.
  destruct (RateLimitMiddleware.dispatch_all config
              (RateLimitMiddleware.counting call_next) log
              (requests, (0%nat, app))) as [responses [requests' [passed app']]].
  cbn [fst snd].
  destruct Hcounted as (_ & _ & Hquota); [|exact Hquota].
  split; [exact Hones|]. split; [lia | exact Hlimit].
Qed.

Lemma middleware_passes_at_most_the_quota_witness :
  RATE_LIMIT_ENABLED Scenario.config = true
  /\ 0 <= RATE_LIMIT_PER_MINUTE Scenario.config
  /\ Forall (fun e => snd e = 1) (RateLimiter.entries_of ∅ ("minute:" ++ "ip"))
  /\ Forall (fun entry =>
               RateLimitMiddleware.client_ip (snd entry) = "ip"%string
               /\ existsb (String.eqb (RateLimitMiddleware.url_path (snd entry)))
                    RateLimitMiddleware.exempt_paths = false
               /\ RateLimiterSpec.within_window 0 60
                    (RateLimitMiddleware.at_minute (fst entry)))
       Samples.two_attempts
  /\ Z.of_nat
       (fst (snd (snd (RateLimitMiddleware.dispatch_all Scenario.config
                         (RateLimitMiddleware.counting Samples.answer)
                         Samples.two_attempts (∅, (0%nat, tt))))))
     <= RATE_LIMIT_PER_MINUTE Scenario.config.
Proof.
  assert (Henabled : RATE_LIMIT_ENABLED Scenario.config = true) by reflexivity.
  assert (Hlimit : 0 <= RATE_LIMIT_PER_MINUTE Scenario.config)
    by (vm_compute; discriminate).
  assert (Hones : Forall (fun e : Q * Z => snd e = 1)
                    (RateLimiter.entries_of ∅ ("minute:" ++ "ip")))
    by constructor.
  assert (Hlog :
    Forall (fun entry =>
              RateLimitMiddleware.client_ip (snd entry) = "ip"%string
              /\ existsb (String.eqb (RateLimitMiddleware.url_path (snd entry)))
                   RateLimitMiddleware.exempt_paths = false
              /\ RateLimiterSpec.within_window 0 60
                   (RateLimitMiddleware.at_minute (fst entry)))
      Samples.two_attempts).
  { repeat constructor; vm_compute; first [discriminate | reflexivity]. }
  split; [exact Henabled|]. split; [exact Hlimit|]. split; [exact Hones|].
  split; [exact Hlog|].
  apply (middleware_passes_at_most_the_quota Scenario.config Samples.answer "ip" 0
           Samples.two_attempts ∅ tt Henabled Hlimit Hones Hlog).
Defined.

(** ** Deleted accounts *)
Section Deleted.

Import AuthRepository Accounts.

Variable config : Config.

#[local] Instance stays_deactivated_preorder (uid : Z) :
  PreOrder (stays_deactivated uid).
Proof. split; [intros w H; exact H | intros a b c H1 H2 H; auto]. Qed.

Lemma find_user_map (f : User.t -> User.t) (uid : Z) (rows : list User.t) :
  (forall u, User.id (f u) = User.id u) ->
  find_user uid (map f rows) = f <$> find_user uid rows.
Proof.
  intros Hf. unfold find_user.
  induction rows as [|u rows IH]; [reflexivity|].
  simpl. rewrite Hf.
  destruct (User.id u =? uid); [reflexivity | exact IH].
Qed.

Lemma find_user_app (uid : Z) (rows more : list User.t) (u : User.t) :
  find_user uid rows = Some u -> find_user uid (rows ++ more) = Some u.
Proof.
  unfold find_user. induction rows as [|x rows IH]; [discriminate|].
  simpl. destruct (User.id x =? uid); [trivial | exact IH].
Qed.

Lemma deactivated_in_map (f : User.t -> User.t) (uid : Z)
    (us : list User.t) (rows rows' : list RefreshToken.t) :
  (forall u, User.id (f u) = User.id u) ->
  (forall u, find_user uid us = Some u -> User.is_active u = false ->
             User.is_active (f u) = false) ->
  deactivated_in uid {| users := us; refresh_tokens := rows |} ->
  deactivated_in uid {| users := map f us; refresh_tokens := rows' |}.
Proof.
  intros Hid Hf (u & Hfound & Hoff). exists (f u). cbn [users] in *.
  rewrite find_user_map, Hfound by exact Hid.
  split; [reflexivity | apply Hf; assumption].
Qed.

Lemma stays_deactivated_datetime_now (uid : Z) :
  relates (stays_deactivated uid) datetime_now.
Proof. intros w H. exact H. Qed.

Lemma stays_deactivated_draw_entropy (uid : Z) :
  relates (stays_deactivated uid) draw_entropy.
Proof. intros w H. exact H. Qed.

Lemma stays_deactivated_create_user (uid : Z) (name addr hashed : string) :
  relates (stays_deactivated uid) (create_user name addr hashed).
Proof.
  intros w H. unfold create_user, bind, datetime_now, get_database,
    put_database, raise, ret. simpl.
  destruct (existsb _ _); simpl; [exact H|].
  destruct H as (u & Hfound & Hoff). exists u. cbn [db users].
  split; [apply find_user_app; exact Hfound | exact Hoff].
Qed.

Lemma stays_deactivated_update_user (uid uid' : Z) (name addr : option string) :
  relates (stays_deactivated uid) (update_user uid' name addr).
Proof.
  intros w H. unfold update_user, bind, datetime_now, get_database,
    put_database, raise, ret. simpl.
  destruct (find_user uid' (users (db w))) as [user|] eqn:Hfound; simpl;
    [|exact H].
  destruct (existsb _ _); simpl; [exact H|].
  pose proof (find_user_id _ _ _ Hfound) as Hid.
  destruct (db w) as [us rows]. cbn [users refresh_tokens] in *.
  apply (deactivated_in_map _ uid us rows rows); [| |exact H].
  - intros u. destruct (User.id u =? uid') eqn:Hsame; [|reflexivity].
    apply Z.eqb_eq in Hsame. cbn. congruence.
  - intros u Hu Hoff. destruct (User.id u =? uid') eqn:Hsame; [|exact Hoff].
    apply Z.eqb_eq in Hsame. pose proof (find_user_id _ _ _ Hu) as Hu_id.
    assert (u = user) as -> by congruence. cbn. exact Hoff.
Qed.

Lemma stays_deactivated_deactivate_user (uid uid' : Z) :
  relates (stays_deactivated uid) (deactivate_user uid').
Proof.
  intros w H. unfold deactivate_user, bind, get_database, put_database, ret.
  simpl. destruct (existsb _ _); simpl; [|exact H].
  destruct (db w) as [us rows]. cbn [users refresh_tokens] in *.
  apply (deactivated_in_map _ uid us rows rows); [| |exact H].
  - intros u. destruct (User.id u =? uid'); reflexivity.
  - intros u _ Hoff. destruct (User.id u =? uid'); [reflexivity | exact Hoff].
Qed.

Lemma stays_deactivated_revoke (uid : Z) (tok : string) :
  relates (stays_deactivated uid) (revoke_refresh_token tok).
Proof. intros w H. exact H. Qed.

Lemma stays_deactivated_create_refresh_token (uid uid' : Z) (tok : string)
    (days : Z) (agent address : option string) :
  relates (stays_deactivated uid)
    (create_refresh_token config uid' tok days agent address).
Proof.
  intros w H. unfold create_refresh_token, bind, datetime_now, get_database,
    put_database, raise, ret. simpl.
  destruct (existsb _ _); simpl; exact H.
Qed.

Lemma stays_deactivated_rollback (uid : Z) (w w' : World) :
  stays_deactivated uid w w' ->
  stays_deactivated uid w {| db := db w; clock := clock w'; entropy := entropy w' |}.
Proof. intros _ H. exact H. Qed.

(** An account that is off stays off through every sequence of
    requests. *)
Lemma serve_all_stays_deactivated
    (hashpw : string -> string -> string)
    (checkpw : string -> string -> pyresult bool)
    (jwt_encode : Security.claims_t -> string -> string -> option string)
    (uid : Z) (requests : list Api.Request) (w : World) :
  deactivated_in uid (db w) ->
  deactivated_in uid (db (Api.serve_all hashpw checkpw jwt_encode config requests w)).
Proof.
  apply (relates_serve_all (stays_deactivated uid) hashpw checkpw jwt_encode config).
  - apply stays_deactivated_datetime_now.
  - apply stays_deactivated_draw_entropy.
  - intros. apply stays_deactivated_create_user.
  - intros. apply stays_deactivated_update_user.
  - intros. apply stays_deactivated_deactivate_user.
  - intros. apply stays_deactivated_revoke.
  - intros. apply stays_deactivated_create_refresh_token.
  - apply stays_deactivated_rollback.
Qed.

(** Deleting an account switches it off. *)
Lemma delete_user_account_deactivates (uid : Z) (w w' : World) :
  UserService.delete_user_account uid w = (Return true, w') ->
  deactivated_in uid (db w').
Proof.
  unfold UserService.delete_user_account, deactivate_user, bind, get_database,
    put_database, ret, raise. simpl.
  destruct (existsb (fun u => User.id u =? uid) (users (db w))) eqn:Hexists;
    simpl; [|discriminate].
  intros [= <-]. unfold deactivated_in. cbn [db users].
  rewrite find_user_map by (intros u; destruct (User.id u =? uid); reflexivity).
  apply existsb_exists in Hexists as (x & Hin & Hx).
  destruct (find_user uid (users (db w))) as [u|] eqn:Hfound.
  - eexists. split; [reflexivity|].
    rewrite (find_user_id _ _ _ Hfound), Z.eqb_refl. reflexivity.
  - exfalso. unfold find_user in Hfound.
    apply (find_none _ _ Hfound) in Hin. congruence.
Qed.

End Deleted.

(** X22. A deleted account stays locked out.  Once [delete_user_account]
    has returned for a user, no sequence of later requests switches the
    account back on: every refresh that presents one of the user's refresh
    tokens ends in a [ValueError], although deleting revokes none of them,
    and [get_current_user] returns this user for no bearer token. *)
Theorem deleted_account_is_locked_out
    (hashpw : string -> string -> string)
    (checkpw : string -> string -> pyresult bool)
    (jwt_encode : Security.claims_t -> string -> string -> option string)
    (jws_verify : string -> string -> string
                  -> Security.JwsFailure + Security.claims_t)
    (validate_before_exp validate_after_exp : Security.claims_t -> Z -> option string)
    (int_of_claim : Security.ClaimValue -> pyresult Z)
    (config : Config) (user_id : Z) (w w' : World) (later : list Api.Request) :
  UserService.delete_user_account user_id w = (Return true, w') ->
  let now := Api.serve_all hashpw checkpw jwt_encode config later w' in
  refresh_tokens (db w') = refresh_tokens (db w)
  /\ Accounts.deactivated_in user_id (db now)
  /\ (forall refresh r user_agent ip_address rotate,
        AuthRepository.find_token refresh (refresh_tokens (db now)) = Some r ->
        RefreshToken.user_id r = user_id ->
        exists msg,
          fst (AuthService.refresh_access_token jwt_encode config refresh
                 user_agent ip_address rotate now) = Raise (ValueError msg))
  /\ (forall token user,
        fst (Dependencies.get_current_user jws_verify validate_before_exp
               validate_after_exp int_of_claim config token now) = Return user ->
        User.id user <> user_id).
Proof.
  intros Hdeleted now.
  pose proof (delete_user_account_deactivates user_id w w' Hdeleted) as Hoff.
  pose proof (serve_all_stays_deactivated config hashpw checkpw jwt_encode
                user_id later w' Hoff) as Hlater.
  fold now in Hlater.
  split; [|split; [exact Hlater|split]].
  - unfold UserService.delete_user_account, AuthRepository.deactivate_user,
      bind, get_database, put_database, ret, raise in Hdeleted. simpl in Hdeleted.
    destruct (existsb _ _); simpl in Hdeleted; [|discriminate].
    injection Hdeleted as <-. reflexivity.
  - intros refresh r user_agent ip_address rotate Hfound Howner.
    destruct Hlater as (u & Hu & Hinactive).
    unfold AuthService.refresh_access_token, AuthRepository.get_refresh_token,
      AuthRepository.get_user_by_id, bind, ret, raise, get_database,
      datetime_now. cbn [fst snd db].
    rewrite Hfound.
    destruct (RefreshToken.is_revoked r); [eexists; reflexivity|].
    cbn [fst snd db].
    destruct (RefreshToken.expires_at r <? clock now 0%nat);
      [eexists; reflexivity|].
    cbn [fst snd db]. rewrite Howner, Hu, Hinactive. eexists; reflexivity.
  - intros token user Hreturned Hsame.
    pose proof (get_current_user_returned jws_verify validate_before_exp
                  validate_after_exp int_of_claim config token now) as Houtcome.
    rewrite Hreturned in Houtcome.
    destruct Houtcome as (Hactive & Hfound).
    destruct Hlater as (u & Hu & Hinactive).
    rewrite Hsame, Hu in Hfound. injection Hfound as ->. congruence.
Qed.

Lemma deleted_account_is_locked_out_witness :
  UserService.delete_user_account 1 Samples.registered
  = (Return true, snd (UserService.delete_user_account 1 Samples.registered))
  /\ (let w' := snd (UserService.delete_user_account 1 Samples.registered) in
      let now :=
        Api.serve_all Scenario.hashpw Scenario.checkpw Scenario.jwt_encode
          Scenario.config [Api.PostLogin Scenario.alice_login None None] w' in
      refresh_tokens (db w') = refresh_tokens (db Samples.registered)
      /\ Accounts.deactivated_in 1 (db now)
      /\ (forall refresh r user_agent ip_address rotate,
            AuthRepository.find_token refresh (refresh_tokens (db now)) = Some r ->
            RefreshToken.user_id r = 1 ->
            exists msg,
              fst (AuthService.refresh_access_token Scenario.jwt_encode
                     Scenario.config refresh user_agent ip_address rotate now)
              = Raise (ValueError msg))
      /\ (forall token user,
            fst (Dependencies.get_current_user Samples.jws_verify
                   Samples.no_complaint Samples.no_complaint
                   Samples.int_of_claim Scenario.config token now)
            = Return user ->
            User.id user <> 1)).
Proof.
  assert (Hdeleted :
    UserService.delete_user_account 1 Samples.registered
    = (Return true, snd (UserService.delete_user_account 1 Samples.registered))).
  { apply pair_of_fst. vm_compute. reflexivity. }
  split; [exact Hdeleted|].
  apply (deleted_account_is_locked_out Scenario.hashpw Scenario.checkpw
           Scenario.jwt_encode Samples.jws_verify Samples.no_complaint
           Samples.no_complaint Samples.int_of_claim Scenario.config 1
           Samples.registered _ [Api.PostLogin Scenario.alice_login None None]
           Hdeleted).
Defined.

(** ** Round trips: registering, logging in, refreshing *)
Section RoundTrips.

Import AuthRepository.

Variable hashpw : string -> string -> string.
Variable checkpw : string -> string -> pyresult bool.
Variable jwt_encode : Security.claims_t -> string -> string -> option string.
Variable config : Config.

(** The row a successful registration has written. *)
Lemma register_user_row (user_data : UserRegister)
    (user_agent ip_address : option string) (w w' : World)
    (tokens : TokenResponse) :
  AuthService.register_user hashpw jwt_encode config user_data user_agent
    ip_address w = (Return tokens, w') ->
  exists user,
    find_username (register_username user_data) (users (db w')) = Some user
    /\ User.hashed_password user
       = Security.hash_password hashpw (entropy w 0%nat)
           (register_password user_data)
    /\ User.is_active user = true.
Proof.
  unfold AuthService.register_user, get_user_by_username, get_user_by_email.
  unfold bind at 1. unfold bind at 1. unfold get_database, ret. simpl.
  destruct (find_username _ _) as [?|] eqn:Fu; [discriminate|].
  unfold bind at 1. unfold bind at 1. simpl.
  destruct (find_email _ _) as [?|] eqn:Fe; [discriminate|].
  unfold bind at 1. unfold draw_entropy at 1. simpl.
  unfold bind at 1. unfold create_user at 1.
  unfold bind at 1. unfold datetime_now at 1. simpl.
  unfold bind at 1. unfold get_database at 1. simpl.
  destruct (existsb _ _); [discriminate|].
  unfold bind at 1. unfold put_database. simpl.
  intros H. apply issue_tokens_stored in H as [U _]. simpl in *.
  eexists. split; [|split].
  - rewrite U. unfold find_username in *. rewrite find_app_None by exact Fu.
    simpl. rewrite String.eqb_refl. reflexivity.
  - reflexivity.
  - reflexivity.
Qed.


End RoundTrips.

(** X23. Whoever has registered can log in.  When bcrypt verifies what it
    has hashed, a login with the username and password of a registration
    that has just succeeded is not refused: it raises no [ValueError];
    and a login with a password that bcrypt does not verify against the
    stored hash is refused with "Invalid username or password". *)
Theorem registered_user_can_log_in
    (hashpw : string -> string -> string)
    (checkpw : string -> string -> pyresult bool)
    (jwt_encode : Security.claims_t -> string -> string -> option string)
    (config : Config) (user_data : UserRegister)
    (user_agent ip_address user_agent' ip_address' : option string)
    (w w' : World) (tokens : TokenResponse) :
  (forall salt,
      checkpw (register_password user_data)
        (hashpw (register_password user_data) salt) = Return true) ->
  AuthService.register_user hashpw jwt_encode config user_data user_agent
    ip_address w = (Return tokens, w') ->
  (forall msg,
      fst (AuthService.login_user checkpw jwt_encode config
             {| login_username := register_username user_data;
                login_password := register_password user_data |}
             user_agent' ip_address' w')
      <> Raise (ValueError msg))
  /\ (forall wrong,
        checkpw wrong (hashpw (register_password user_data) (entropy w 0%nat))
        = Return false ->
        AuthService.login_user checkpw jwt_encode config
          {| login_username := register_username user_data;
             login_password := wrong |}
          user_agent' ip_address' w'
        = (Raise (ValueError "Invalid username or password"), w')).
Proof.
  intros Hbcrypt Hregistered.
  destruct (register_user_row hashpw jwt_encode config user_data user_agent
              ip_address w w' tokens Hregistered)
    as (user & Hfound & Hhash & Hactive).
  split.
  - apply (login_user_active checkpw jwt_encode config _ user_agent' ip_address'
             w' user); [exact Hfound | | exact Hactive].
    cbn [login_password]. rewrite Hhash.
    unfold Security.verify_password, Security.hash_password.
    rewrite Hbcrypt. reflexivity.
  - intros wrong Hwrong.
    apply (login_user_wrong_password checkpw jwt_encode config _ user_agent'
             ip_address' w' user); [exact Hfound|].
    cbn [login_password]. rewrite Hhash.
    unfold Security.verify_password, Security.hash_password.
    rewrite Hwrong. reflexivity.
Qed.

Lemma registered_user_can_log_in_witness :
  (forall salt,
      Scenario.checkpw (register_password Scenario.alice)
        (Scenario.hashpw (register_password Scenario.alice) salt) = Return true)
  /\ AuthService.register_user Scenario.hashpw Scenario.jwt_encode
       Scenario.config Scenario.alice None None Scenario.world
     = (Return {| access_token := "jwt:k"; refresh_token := "1";
                  token_type := "bearer" |},
        snd (AuthService.register_user Scenario.hashpw Scenario.jwt_encode
               Scenario.config Scenario.alice None None Scenario.world))
  /\ (let w' := snd (AuthService.register_user Scenario.hashpw
                       Scenario.jwt_encode Scenario.config Scenario.alice None
                       None Scenario.world) in
      (forall msg,
          fst (AuthService.login_user Scenario.checkpw Scenario.jwt_encode
                 Scenario.config
                 {| login_username := register_username Scenario.alice;
                    login_password := register_password Scenario.alice |}
                 None None w')
          <> Raise (ValueError msg))
      /\ (forall wrong,
            Scenario.checkpw wrong
              (Scenario.hashpw (register_password Scenario.alice)
                 (entropy Scenario.world 0%nat))
            = Return false ->
            AuthService.login_user Scenario.checkpw Scenario.jwt_encode
              Scenario.config
              {| login_username := register_username Scenario.alice;
                 login_password := wrong |}
              None None w'
            = (Raise (ValueError "Invalid username or password"), w'))).
Proof.
  assert (Hbcrypt : forall salt,
            Scenario.checkpw (register_password Scenario.alice)
              (Scenario.hashpw (register_password Scenario.alice) salt)
            = Return true) by (intros salt; reflexivity).
  assert (Hregistered :
    AuthService.register_user Scenario.hashpw Scenario.jwt_encode
      Scenario.config Scenario.alice None None Scenario.world
    = (Return {| access_token := "jwt:k"; refresh_token := "1";
                 token_type := "bearer" |},
       snd (AuthService.register_user Scenario.hashpw Scenario.jwt_encode
              Scenario.config Scenario.alice None None Scenario.world))).
  { apply pair_of_fst. vm_compute. reflexivity. }
  split; [exact Hbcrypt|]. split; [exact Hregistered|].
  apply (registered_user_can_log_in Scenario.hashpw Scenario.checkpw
           Scenario.jwt_encode Scenario.config Scenario.alice None None None
           None Scenario.world _ _ Hbcrypt Hregistered).
Defined.



(** ** Updating a profile *)

(** How a [let*] runs. *)
Lemma bind_run {A B : Type} (m : M A) (k : A -> M B) (w : World) :
  bind m k w
  = match m w with
    | (Return a, w') => k a w'
    | (Raise e, w') => (Raise e, w')
    end.
Proof. reflexivity. Qed.

(** X25. A profile update that is refused writes nothing.  An update
    without fields raises "No fields to update"; a username that belongs
    to another user raises "Username already exists", and is tested before
    the email; whatever [ValueError] the update ends in, the database is
    as it was; and a user who sends the username they already have is not
    told that it exists. *)
Theorem refused_profile_update_changes_nothing
    (user_id : Z) (update_data : UpdateUserRequest) (w : World) :
  let outcome := UserService.update_user_profile user_id update_data w in
  (update_username update_data = None -> update_email update_data = None ->
   outcome = (Raise (ValueError "No fields to update"), w))
  /\ (forall name other,
        update_username update_data = Some name -> name <> EmptyString ->
        AuthRepository.find_username name (users (db w)) = Some other ->
        (User.id other <> user_id ->
         outcome = (Raise (ValueError "Username already exists"), w))
        /\ (User.id other = user_id ->
            fst outcome <> Raise (ValueError "Username already exists")))
  /\ (forall msg,
        fst outcome = Raise (ValueError msg) -> db (snd outcome) = db w).
Proof.
  intros outcome. subst outcome.
  unfold UserService.update_user_profile.
  destruct update_data as [name addr]. cbn [update_username update_email].
  assert (Hemail : forall (w1 : World) msg,
            db w1 = db w ->
            let rest :=
              (let* _ :=
                 if UserService.truthy addr then
                   let* existing_email :=
                     AuthRepository.get_user_by_email (default EmptyString addr) in
                   match existing_email with
                   | Some existing =>
                       if negb (User.id existing =? user_id)
                       then raise (ValueError "Email already exists")
                       else ret tt
                   | None => ret tt
                   end
                 else ret tt in
               let* updated_user := AuthRepository.update_user user_id name addr in
               match updated_user with
               | Some user => ret (UserService.get_user_response user)
               | None => raise (ValueError "User not found")
               end) w1 in
            (fst rest = Raise (ValueError msg) -> db (snd rest) = db w)
            /\ fst rest <> Raise (ValueError "Username already exists")).
  { intros w1 msg Hdb rest. subst rest.
    unfold AuthRepository.get_user_by_email, AuthRepository.update_user,
      bind, ret, raise, get_database, put_database, datetime_now.
    destruct (UserService.truthy addr); cbn [fst snd db].
    - destruct (AuthRepository.find_email _ _) as [existing|]; cbn [fst snd db].
      + destruct (User.id existing =? user_id); cbn [negb fst snd db].
        * destruct (AuthRepository.find_user user_id (users (db w1)));
            cbn [fst snd db];
            [|split; [intros _; exact Hdb | discriminate]].
          destruct (existsb _ _); cbn [fst snd db]; split; discriminate.
        * split; [intros _; exact Hdb | discriminate].
      + destruct (AuthRepository.find_user user_id (users (db w1)));
          cbn [fst snd db];
          [|split; [intros _; exact Hdb | discriminate]].
        destruct (existsb _ _); cbn [fst snd db]; split; discriminate.
    - destruct (AuthRepository.find_user user_id (users (db w1)));
        cbn [fst snd db];
        [|split; [intros _; exact Hdb | discriminate]].
      destruct (existsb _ _); cbn [fst snd db]; split; discriminate. }
  assert (Hlookup : forall name',
            AuthRepository.get_user_by_username name' w
            = (Return (AuthRepository.find_username name' (users (db w))), w))
    by reflexivity.
  split; [|split].
  - intros -> ->. reflexivity.
  - intros name' other -> Hname Hfound.
    assert (Htruthy : UserService.truthy (Some name') = true)
      by (destruct name'; [contradiction | reflexivity]).
    rewrite bind_run, Htruthy, bind_run.
    change (default EmptyString (Some name')) with name'.
    rewrite Hlookup, Hfound.
    split; intros Hid.
    + assert (Hne : (User.id other =? user_id) = false)
        by (apply Z.eqb_neq; exact Hid).
      rewrite Hne. reflexivity.
    + rewrite Hid, Z.eqb_refl. cbn [negb]. unfold ret at 1.
      apply (Hemail w "Username already exists"%string eq_refl).
  - intros msg.
    destruct name as [name'|]; [|destruct addr as [addr'|]; [|intros _; reflexivity]].
    + rewrite bind_run.
      destruct (UserService.truthy (Some name')).
      * rewrite bind_run.
        change (default EmptyString (Some name')) with name'.
        rewrite Hlookup.
        destruct (AuthRepository.find_username _ _) as [existing|].
        -- destruct (User.id existing =? user_id); cbn [negb].
           ++ unfold ret at 1. apply (Hemail w msg eq_refl).
           ++ cbn. intros _. reflexivity.
        -- unfold ret at 1. apply (Hemail w msg eq_refl).
      * unfold ret at 1. apply (Hemail w msg eq_refl).
    + rewrite bind_run. cbn [UserService.truthy]. unfold ret at 1.
      apply (Hemail w msg eq_refl).
Qed.
